(** * NESTConnectionApp: the selection box and the pointer controls

    A shallow embedding of [static/js/selectionBox.js] (class [SelectionBox])
    and [static/js/controls.js] (the [Controls] event handlers), with the
    properties of the selection editor stated and proved over it.

    Conventions of the embedding.
    - A coordinate is kept as the rational that the JavaScript number
      denotes.  Comparisons are exact; the sums and differences by which the
      handlers place corners, handles and lines are taken exactly.
    - The ellipse test, whose answer depends on how its operations round, is
      computed as the code computes it, in IEEE 754 binary64: every operation
      gives the exact result rounded to the nearest double, ties to even,
      with [Infinity] beyond the range and [NaN] for [0 / 0]; values are
      [jsnum].  The rounding is the one of the Standard Library's
      specification of floating point, [SpecFloat].
    - An entry of a colour buffer, a [Float32Array], is a binary32: a store
      rounds the number to single precision.
    - Objects that the code shares by reference (a [SelectionBox] is
      referenced from [selectionBoxArray], [boxInFocus] and [deviceBoxMap] at
      the same time) live in a store, [boxes], and are named by their index
      in it.
    - A handler that raises a [TypeError] stops where it raises; the
      mutations done before that point stay.  Handlers therefore run in a
      small state-and-exception monad.
    - three.js, jQuery and the DOM are collaborators: ray casting, the
      projections [toScreenXY] and [toObjectCoordinates], [findBounds] and
      the form controls are parameters of the development. *)

From Stdlib Require Import QArith Qabs Qfield Lia Lqa SpecFloat.
From stdpp Require Import gmap strings list fin_maps.

Open Scope string_scope.
Open Scope list_scope.

(** ** Numbers *)

Module Num.
Local Open Scope Q_scope.

(** Result of a JavaScript arithmetic expression that may divide by zero. *)
Inductive jsnum : Type :=
| Fin (q : Q)
| PInf
| NInf
| NaN.

Definition Qeqb (a b : Q) : bool := Qeq_bool a b.
Definition Qltb (a b : Q) : bool := negb (Qle_bool b a).

(** [a / b] on finite operands. *)
Definition div (a b : Q) : jsnum :=
  if Qeqb b 0 then
    (if Qeqb a 0 then NaN else if Qltb 0 a then PInf else NInf)
  else Fin (a / b).

(** [a + b]. *)
Definition add (a b : jsnum) : jsnum :=
  match a, b with
  | NaN, _ | _, NaN => NaN
  | PInf, NInf | NInf, PInf => NaN
  | PInf, _ | _, PInf => PInf
  | NInf, _ | _, NInf => NInf
  | Fin p, Fin q => Fin (p + q)
  end.

(** [a <= q] for a finite right operand. *)
Definition leb (a : jsnum) (q : Q) : bool :=
  match a with
  | Fin p => Qle_bool p q
  | NInf => true
  | PInf | NaN => false
  end.

End Num.

(** ** Binary floating point *)

Module Binary.
Import Num.

(** The rational [(-1)^s * m * 2^e]. *)
Definition rational (s : bool) (m : positive) (e : Z) : Q :=
  let n := if s then Zneg m else Zpos m in
  match e with
  | Z0 => n # 1
  | Zpos _ => Z.shiftl n e # 1
  | Zneg p => n # Pos.shiftl 1 (Npos p)
  end.

(** The number that a float of the Standard Library's specification
    stands for, in lowest terms.  The sign of a zero is not kept: the code
    this development is about never divides by a zero that could be
    negative, nor reads the sign of a zero otherwise. *)
Definition value (f : spec_float) : jsnum :=
  match f with
  | S754_zero _ => Fin 0
  | S754_infinity false => PInf
  | S754_infinity true => NInf
  | S754_nan => NaN
  | S754_finite s m e => Fin (Qred (rational s m e))
  end.

(** An integer as a float with the exponent zero and a mantissa of any
    length. *)
Definition ofZ (n : Z) : spec_float :=
  match n with
  | Z0 => S754_zero false
  | Zpos m => S754_finite false m 0
  | Zneg m => S754_finite true m 0
  end.

(** The float with [prec] bits of mantissa and exponents below [emax]
    that is nearest to [q], the one with the even mantissa when two are
    equally near, subnormal near zero and an infinity from half a step
    above the largest float on: the correctly rounded quotient of the
    numerator of [q] by its denominator. *)
Definition round (prec emax : Z) (q : Q) : jsnum :=
  let q' := Qred q in
  value (SFdiv prec emax (ofZ (Qnum q')) (ofZ (Zpos (Qden q')))).

(** A JavaScript number is a binary64. *)
Definition round64 : Q -> jsnum := round 53 1024.

(** An entry of a [Float32Array] is a binary32; [fround] is the rounding
    of a store into it. *)
Definition float32 : Type := jsnum.
Definition fround : Q -> float32 := round 24 128.

End Binary.

(** The operations of JavaScript on numbers: the exact result, rounded. *)
Module Double.
Import Num Binary.
Local Open Scope Q_scope.

Definition rnd (a : jsnum) : jsnum :=
  match a with
  | Fin q => round64 q
  | _ => a
  end.

Definition neg (a : jsnum) : jsnum :=
  match a with
  | Fin q => Fin (- q)
  | PInf => NInf
  | NInf => PInf
  | NaN => NaN
  end.

(** [a + b] and [a - b]. *)
Definition add (a b : jsnum) : jsnum := rnd (Num.add a b).
Definition sub (a b : jsnum) : jsnum := rnd (Num.add a (neg b)).

(** [a * a], and [Math.pow(a, 2)]: the language leaves the precision of
    [Math.pow] to the engine, and the [pow] of the engines, that of
    fdlibm, returns [a * a] for the exponent two. *)
Definition square (a : jsnum) : jsnum :=
  match a with
  | Fin p => round64 (p * p)
  | PInf | NInf => PInf
  | NaN => NaN
  end.

(** [a / b], for a divisor whose zero is [+0]: the code divides by [2]
    and by squares. *)
Definition div (a b : jsnum) : jsnum :=
  match a, b with
  | NaN, _ | _, NaN => NaN
  | Fin p, Fin q => rnd (Num.div p q)
  | Fin _, (PInf | NInf) => Fin 0
  | PInf, Fin q => if Qltb q 0 then NInf else PInf
  | NInf, Fin q => if Qltb q 0 then PInf else NInf
  | (PInf | NInf), (PInf | NInf) => NaN
  end.

End Double.

(** ** Data model *)

(** [{x: ..., y: ...}], a position on the screen or in the scene. *)
Record Pos : Type := mkPos { x : Q; y : Q }.

(** One entry of [this.curves]: the four control points of the
    [THREE.CatmullRomCurve3] in [curve.points] and the [target] device name
    (empty while the line is not attached).  The sampled polyline in
    [curveObject] is a function of the control points and is not kept. *)
Record Curve : Type := mkCurve {
  points0 : Pos;
  points1 : Pos;
  points2 : Pos;
  points3 : Pos;
  target : string
}.

(** A resize handle made by [makePoint]. *)
Record ResizePoint : Type := mkResizePoint {
  point_name : string;
  point_position : Pos
}.

(** The geometry given to the fill mesh [this.box]. *)
Inductive BoxGeometry : Type :=
| BoxBufferGeometry (xLength yLength : Q)
| ShapeBufferGeometry (xRadius yRadius : Q)
| NoGeometry.

Record Mesh : Type := mkMesh {
  geometry : BoxGeometry;
  mesh_position : Pos
}.

(** The fields of a [SelectionBox] object.  [currentCurve] and
    [currentCurveObject] alias the last entry of [curves] and are only read
    to take the line out of the scene; they are not kept. *)
Record SelectionBox : Type := mkSelectionBox {
  layerName : string;
  ll : Pos;
  ur : Pos;
  selectedNeuronType : option string;
  selectedSynModel : option string;
  selectedShape : string;
  box : option Mesh;
  resizePoints : list ResizePoint;
  curves : list Curve;
  selectedPointIDs : list nat
}.

(** One entry of the global [layer_points]: the flat [position] buffer
    (stride 3), the flat [customColor] buffer (stride 3) and the layer's
    offset. *)
Record Layer : Type := mkLayer {
  positions : list Q;
  customColor : list Binary.float32;
  offsetts : Pos
}.

(** A draggable device marker in [drag_objects]. *)
Record Device : Type := mkDevice {
  name : string;
  position : Pos;
  radius : Q
}.

(** The object built by [getSelectionInfo] and posted to [/selector]. *)
Record SelectionInfo : Type := mkSelectionInfo {
  info_name : string;
  selection_ll : Pos;
  selection_ur : Pos;
  neuronType : string;
  synModel : string;
  maskShape : string
}.

(** A mouse event, as far as the handlers read it.  [onCanvas] is
    [event.target.localName === "canvas"]. *)
Record MouseEvent : Type := mkMouseEvent {
  clientX : Q;
  clientY : Q;
  shiftKey : bool;
  onCanvas : bool
}.

Record KeyEvent : Type := mkKeyEvent { keyCode : nat }.

(** The variables of the [Controls] closure, the globals of the page that
    the handlers and the [SelectionBox] methods read and write, the store
    [boxes] of the [SelectionBox] objects, and the requests [sent] to the
    server.  [selectionBoxArray], [boxInFocus] and the lists of
    [deviceBoxMap] hold references: indices into [boxes].
    [object_selected] is an index into [drag_objects]. *)
Record State : Type := mkState {
  mouseDown : bool;
  shiftDown : bool;
  make_selection_box : bool;
  make_connection : bool;
  object_selected : option nat;
  selectionBoxArray : list nat;
  boxInFocus : option nat;
  resizeSideInFocus : option string;
  mouseDownCoords : Pos;
  mRelPos : Pos;
  layerSelected : string;
  nSelected : Z;
  layer_points : list (string * Layer);
  deviceBoxMap : gmap string (list nat);
  drag_objects : list Device;
  boxes : list SelectionBox;
  sent : list SelectionInfo
}.

(** Assignments to one variable. *)
Definition set_mouseDown (v : bool) (s : State) : State :=
  mkState v (shiftDown s) (make_selection_box s) (make_connection s)
          (object_selected s) (selectionBoxArray s) (boxInFocus s)
          (resizeSideInFocus s) (mouseDownCoords s) (mRelPos s)
          (layerSelected s) (nSelected s) (layer_points s) (deviceBoxMap s)
          (drag_objects s) (boxes s) (sent s).
Definition set_shiftDown (v : bool) (s : State) : State :=
  mkState (mouseDown s) v (make_selection_box s) (make_connection s)
          (object_selected s) (selectionBoxArray s) (boxInFocus s)
          (resizeSideInFocus s) (mouseDownCoords s) (mRelPos s)
          (layerSelected s) (nSelected s) (layer_points s) (deviceBoxMap s)
          (drag_objects s) (boxes s) (sent s).
Definition set_make_selection_box (v : bool) (s : State) : State :=
  mkState (mouseDown s) (shiftDown s) v (make_connection s)
          (object_selected s) (selectionBoxArray s) (boxInFocus s)
          (resizeSideInFocus s) (mouseDownCoords s) (mRelPos s)
          (layerSelected s) (nSelected s) (layer_points s) (deviceBoxMap s)
          (drag_objects s) (boxes s) (sent s).
Definition set_make_connection (v : bool) (s : State) : State :=
  mkState (mouseDown s) (shiftDown s) (make_selection_box s) v
          (object_selected s) (selectionBoxArray s) (boxInFocus s)
          (resizeSideInFocus s) (mouseDownCoords s) (mRelPos s)
          (layerSelected s) (nSelected s) (layer_points s) (deviceBoxMap s)
          (drag_objects s) (boxes s) (sent s).
Definition set_object_selected (v : option nat) (s : State) : State :=
  mkState (mouseDown s) (shiftDown s) (make_selection_box s)
          (make_connection s) v (selectionBoxArray s) (boxInFocus s)
          (resizeSideInFocus s) (mouseDownCoords s) (mRelPos s)
          (layerSelected s) (nSelected s) (layer_points s) (deviceBoxMap s)
          (drag_objects s) (boxes s) (sent s).
Definition set_selectionBoxArray (v : list nat) (s : State) : State :=
  mkState (mouseDown s) (shiftDown s) (make_selection_box s)
          (make_connection s) (object_selected s) v (boxInFocus s)
          (resizeSideInFocus s) (mouseDownCoords s) (mRelPos s)
          (layerSelected s) (nSelected s) (layer_points s) (deviceBoxMap s)
          (drag_objects s) (boxes s) (sent s).
Definition set_boxInFocus (v : option nat) (s : State) : State :=
  mkState (mouseDown s) (shiftDown s) (make_selection_box s)
          (make_connection s) (object_selected s) (selectionBoxArray s) v
          (resizeSideInFocus s) (mouseDownCoords s) (mRelPos s)
          (layerSelected s) (nSelected s) (layer_points s) (deviceBoxMap s)
          (drag_objects s) (boxes s) (sent s).
Definition set_resizeSideInFocus (v : option string) (s : State) : State :=
  mkState (mouseDown s) (shiftDown s) (make_selection_box s)
          (make_connection s) (object_selected s) (selectionBoxArray s)
          (boxInFocus s) v (mouseDownCoords s) (mRelPos s) (layerSelected s)
          (nSelected s) (layer_points s) (deviceBoxMap s) (drag_objects s)
          (boxes s) (sent s).
Definition set_mouseDownCoords (v : Pos) (s : State) : State :=
  mkState (mouseDown s) (shiftDown s) (make_selection_box s)
          (make_connection s) (object_selected s) (selectionBoxArray s)
          (boxInFocus s) (resizeSideInFocus s) v (mRelPos s) (layerSelected s)
          (nSelected s) (layer_points s) (deviceBoxMap s) (drag_objects s)
          (boxes s) (sent s).
Definition set_mRelPos (v : Pos) (s : State) : State :=
  mkState (mouseDown s) (shiftDown s) (make_selection_box s)
          (make_connection s) (object_selected s) (selectionBoxArray s)
          (boxInFocus s) (resizeSideInFocus s) (mouseDownCoords s) v
          (layerSelected s) (nSelected s) (layer_points s) (deviceBoxMap s)
          (drag_objects s) (boxes s) (sent s).
Definition set_layerSelected (v : string) (s : State) : State :=
  mkState (mouseDown s) (shiftDown s) (make_selection_box s)
          (make_connection s) (object_selected s) (selectionBoxArray s)
          (boxInFocus s) (resizeSideInFocus s) (mouseDownCoords s) (mRelPos s)
          v (nSelected s) (layer_points s) (deviceBoxMap s) (drag_objects s)
          (boxes s) (sent s).
Definition set_nSelected (v : Z) (s : State) : State :=
  mkState (mouseDown s) (shiftDown s) (make_selection_box s)
          (make_connection s) (object_selected s) (selectionBoxArray s)
          (boxInFocus s) (resizeSideInFocus s) (mouseDownCoords s) (mRelPos s)
          (layerSelected s) v (layer_points s) (deviceBoxMap s)
          (drag_objects s) (boxes s) (sent s).
Definition set_layer_points (v : list (string * Layer)) (s : State) : State :=
  mkState (mouseDown s) (shiftDown s) (make_selection_box s)
          (make_connection s) (object_selected s) (selectionBoxArray s)
          (boxInFocus s) (resizeSideInFocus s) (mouseDownCoords s) (mRelPos s)
          (layerSelected s) (nSelected s) v (deviceBoxMap s) (drag_objects s)
          (boxes s) (sent s).
Definition set_deviceBoxMap (v : gmap string (list nat)) (s : State) : State :=
  mkState (mouseDown s) (shiftDown s) (make_selection_box s)
          (make_connection s) (object_selected s) (selectionBoxArray s)
          (boxInFocus s) (resizeSideInFocus s) (mouseDownCoords s) (mRelPos s)
          (layerSelected s) (nSelected s) (layer_points s) v (drag_objects s)
          (boxes s) (sent s).
Definition set_drag_objects (v : list Device) (s : State) : State :=
  mkState (mouseDown s) (shiftDown s) (make_selection_box s)
          (make_connection s) (object_selected s) (selectionBoxArray s)
          (boxInFocus s) (resizeSideInFocus s) (mouseDownCoords s) (mRelPos s)
          (layerSelected s) (nSelected s) (layer_points s) (deviceBoxMap s) v
          (boxes s) (sent s).
Definition set_boxes (v : list SelectionBox) (s : State) : State :=
  mkState (mouseDown s) (shiftDown s) (make_selection_box s)
          (make_connection s) (object_selected s) (selectionBoxArray s)
          (boxInFocus s) (resizeSideInFocus s) (mouseDownCoords s) (mRelPos s)
          (layerSelected s) (nSelected s) (layer_points s) (deviceBoxMap s)
          (drag_objects s) v (sent s).
Definition set_sent (v : list SelectionInfo) (s : State) : State :=
  mkState (mouseDown s) (shiftDown s) (make_selection_box s)
          (make_connection s) (object_selected s) (selectionBoxArray s)
          (boxInFocus s) (resizeSideInFocus s) (mouseDownCoords s) (mRelPos s)
          (layerSelected s) (nSelected s) (layer_points s) (deviceBoxMap s)
          (drag_objects s) (boxes s) v.

(** Assignments to one field of a [SelectionBox]. *)
Definition with_layerName (v : string) (b : SelectionBox) : SelectionBox :=
  mkSelectionBox v (ll b) (ur b) (selectedNeuronType b) (selectedSynModel b)
                 (selectedShape b) (box b) (resizePoints b) (curves b)
                 (selectedPointIDs b).
Definition with_ll (v : Pos) (b : SelectionBox) : SelectionBox :=
  mkSelectionBox (layerName b) v (ur b) (selectedNeuronType b)
                 (selectedSynModel b) (selectedShape b) (box b)
                 (resizePoints b) (curves b) (selectedPointIDs b).
Definition with_ur (v : Pos) (b : SelectionBox) : SelectionBox :=
  mkSelectionBox (layerName b) (ll b) v (selectedNeuronType b)
                 (selectedSynModel b) (selectedShape b) (box b)
                 (resizePoints b) (curves b) (selectedPointIDs b).
Definition with_selectedNeuronType (v : option string) (b : SelectionBox)
  : SelectionBox :=
  mkSelectionBox (layerName b) (ll b) (ur b) v (selectedSynModel b)
                 (selectedShape b) (box b) (resizePoints b) (curves b)
                 (selectedPointIDs b).
Definition with_selectedSynModel (v : option string) (b : SelectionBox)
  : SelectionBox :=
  mkSelectionBox (layerName b) (ll b) (ur b) (selectedNeuronType b) v
                 (selectedShape b) (box b) (resizePoints b) (curves b)
                 (selectedPointIDs b).
Definition with_box (v : option Mesh) (b : SelectionBox) : SelectionBox :=
  mkSelectionBox (layerName b) (ll b) (ur b) (selectedNeuronType b)
                 (selectedSynModel b) (selectedShape b) v (resizePoints b)
                 (curves b) (selectedPointIDs b).
Definition with_resizePoints (v : list ResizePoint) (b : SelectionBox)
  : SelectionBox :=
  mkSelectionBox (layerName b) (ll b) (ur b) (selectedNeuronType b)
                 (selectedSynModel b) (selectedShape b) (box b) v (curves b)
                 (selectedPointIDs b).
Definition with_curves (v : list Curve) (b : SelectionBox) : SelectionBox :=
  mkSelectionBox (layerName b) (ll b) (ur b) (selectedNeuronType b)
                 (selectedSynModel b) (selectedShape b) (box b)
                 (resizePoints b) v (selectedPointIDs b).
Definition with_selectedPointIDs (v : list nat) (b : SelectionBox)
  : SelectionBox :=
  mkSelectionBox (layerName b) (ll b) (ur b) (selectedNeuronType b)
                 (selectedSynModel b) (selectedShape b) (box b)
                 (resizePoints b) (curves b) v.

(** ** Handlers as state transformers that may throw *)

Inductive Result (A : Type) : Type :=
| Ok (a : A) (s : State)
| TypeError (s : State).
Arguments Ok {A} a s.
Arguments TypeError {A} s.

Definition M (A : Type) : Type := State -> Result A.

#[global] Instance M_ret : MRet M := fun A a s => Ok a s.
#[global] Instance M_bind : MBind M := fun A B f m s =>
  match m s with
  | Ok a s' => f a s'
  | TypeError s' => TypeError s'
  end.

Definition get : M State := fun s => Ok s s.
Definition modify (f : State -> State) : M unit := fun s => Ok tt (f s).
Definition throw {A : Type} : M A := fun s => TypeError s.

(** The state a handler leaves behind, whether it returned or threw. *)
Definition final {A : Type} (r : Result A) : State :=
  match r with Ok _ s => s | TypeError s => s end.

Definition returned {A : Type} (r : Result A) : bool :=
  match r with Ok _ _ => true | TypeError _ => false end.

(** Reading a property of [undefined] throws. *)
Definition defined {A : Type} (o : option A) : M A :=
  match o with Some a => mret a | None => throw end.

(** Dereference a [SelectionBox]. *)
Definition getBox (r : nat) : M SelectionBox :=
  s ← get; defined (boxes s !! r).

(** Mutate a [SelectionBox] in place. *)
Definition modifyBox (r : nat) (f : SelectionBox -> SelectionBox) : M unit :=
  b ← getBox r; modify (fun s => set_boxes (<[r := f b]> (boxes s)) s).

(** ** Collaborators *)

(** Functions and values of the page that are defined outside the two
    files: the projections [toScreenXY] and [toObjectCoordinates], the corner
    normalisation [findBounds] (it returns the pair [(ll, ur)]), the form
    controls, the [height] of the renderer, the base colour [color] of a
    point, and the ray caster of three.js.  The ray caster answers with the
    index of the first object it intersects; [intersectPlane] is
    [raycaster.ray.intersectPlane] for the ray set at the last mouse down. *)
Class Collaborators : Type := {
  toScreenXY : Q -> Q -> Q -> Pos;
  toObjectCoordinates : Pos -> Pos;
  findBounds : Pos -> Pos -> Pos * Pos;
  getSelectedShape : string;
  getSelectedDropDown : string -> string;
  height : Q;
  color : Q * Q * Q;
  intersectResizePoints : MouseEvent -> list ResizePoint -> option nat;
  intersectDragObjects : MouseEvent -> list Device -> option nat;
  intersectPlane : Pos -> bool
}.

(** ** The editor *)

Section Editor.

Context {page : Collaborators}.

(** *** selectionBox.js: hit tests *)

Definition withinRectangleBounds (this : SelectionBox) (pos : Pos) : bool :=
  Qle_bool (x (ll this)) (x pos) && Qle_bool (x pos) (x (ur this))
  && Qle_bool (y (ll this)) (y pos) && Qle_bool (y pos) (y (ur this)).

(** Every number that the test reads is a double: [num] gives the double
    of a coordinate, the coordinate itself when it is one.  The squares
    that are divided are the two [Math.pow(_, 2)]; the divisors are
    [x_side * x_side] and [y_side * y_side]. *)
Definition withinEllipticalBounds (this : SelectionBox) (pos : Pos) : bool :=
  let num := Binary.round64 in
  let two := Num.Fin 2 in
  let x_side :=
    Double.div (Double.sub (num (x (ur this))) (num (x (ll this)))) two in
  let y_side :=
    Double.div (Double.sub (num (y (ur this))) (num (y (ll this)))) two in
  let center_x :=
    Double.div (Double.add (num (x (ur this))) (num (x (ll this)))) two in
  let center_y :=
    Double.div (Double.add (num (y (ur this))) (num (y (ll this)))) two in
  Num.leb
    (Double.add
       (Double.div (Double.square (Double.sub (num (x pos)) center_x))
                   (Double.square x_side))
       (Double.div (Double.square (Double.sub (num (y pos)) center_y))
                   (Double.square y_side)))
    1%Q.

(** [withinBounds] has no [else] branch: for any other shape tag the
    function falls off its end and the caller gets [undefined], here
    [None]. *)
Definition withinBounds (this : SelectionBox) (pos : Pos) : option bool :=
  if String.eqb (selectedShape this) "Rectangle" then
    Some (withinRectangleBounds this pos)
  else if String.eqb (selectedShape this) "Ellipse" then
    Some (withinEllipticalBounds this pos)
  else None.

(** [if ( this.withinBounds(p) )]: [undefined] is falsy. *)
Definition truthy (r : option bool) : bool :=
  match r with Some b => b | None => false end.

(** *** selectionBox.js: point membership *)

(** [colors[i] = r; colors[i + 1] = g; colors[i + 2] = b] on a
    [Float32Array]: each number is rounded to single precision, and a
    write past the end is dropped. *)
Definition setRGB (i : nat) (r g b : Q) (colors : list Binary.float32)
  : list Binary.float32 :=
  <[(i + 2)%nat := Binary.fround b]>
    (<[(i + 1)%nat := Binary.fround g]> (<[i := Binary.fround r]> colors)).

(** [layer_points[layer_name]] *)
Fixpoint lookup_layer (layer_name : string) (layers : list (string * Layer))
  : option Layer :=
  match layers with
  | [] => None
  | (k, L) :: rest =>
      if String.eqb k layer_name then Some L else lookup_layer layer_name rest
  end.

(** Writing the colour buffer of [layer_points[layer_name]]. *)
Fixpoint store_colors (layer_name : string) (colors : list Binary.float32)
    (layers : list (string * Layer)) : list (string * Layer) :=
  match layers with
  | [] => []
  | (k, L) :: rest =>
      if String.eqb k layer_name
      then (k, mkLayer (positions L) colors (offsetts L)) :: rest
      else (k, L) :: store_colors layer_name colors rest
  end.

(** The inner loop of [selectPoints] over one position buffer, from
    offset [i] on.  A position buffer holds whole vertices; the loop stops
    at the end of the last one. *)
Fixpoint selectPoints_positions (layer_name : string) (pts : list Q) (i : nat)
    (this : SelectionBox) (colors : list Binary.float32) (n : Z)
  : SelectionBox * list Binary.float32 * Z :=
  match pts with
  | p_x :: p_y :: p_z :: rest =>
      let xypos := toScreenXY p_x p_y p_z in
      if truthy (withinBounds this xypos) then
        let this1 :=
          with_selectedPointIDs (selectedPointIDs this ++ [i]) this in
        let colors1 := setRGB i 1 0 1 colors in
        let this2 :=
          if String.eqb (layerName this1) EmptyString
          then with_layerName layer_name this1 else this1 in
        selectPoints_positions layer_name rest (i + 3) this2 colors1 (n + 1)%Z
      else selectPoints_positions layer_name rest (i + 3) this colors n
  | _ => (this, colors, n)
  end.

(** The outer loop of [selectPoints]: every layer of [layer_points], in
    the order of its keys. *)
Fixpoint selectPoints_layers (layers : list (string * Layer))
    (this : SelectionBox) (n : Z)
  : list (string * Layer) * SelectionBox * Z :=
  match layers with
  | [] => ([], this, n)
  | (layer_name, L) :: rest =>
      let '(this1, colors1, n1) :=
        selectPoints_positions layer_name (positions L) 0 this
                               (customColor L) n in
      let '(rest', this2, n2) := selectPoints_layers rest this1 n1 in
      ((layer_name, mkLayer (positions L) colors1 (offsetts L)) :: rest',
       this2, n2)
  end.

Definition selectPoints (r : nat) : M unit :=
  this ← getBox r;
  s ← get;
  let '(layers, this', n) :=
    selectPoints_layers (layer_points s) this (nSelected s) in
  modify (fun s => set_boxes (<[r := this']> (boxes s))
                     (set_nSelected n (set_layer_points layers s))).

(** [new SelectionBox( ll, ur, shape )] *)
Definition newSelectionBox (ll0 ur0 : Pos) (shape : string) : M nat :=
  s ← get;
  let r := length (boxes s) in
  modify (fun s =>
    set_boxes
      (boxes s
       ++ [mkSelectionBox EmptyString ll0 ur0 None None shape None [] [] []])
      s);;
  selectPoints r;;
  mret r.

(** The first loop of [updateColors] and of [removeBox]: the old points
    get the base colour back and leave the count. *)
Fixpoint restoreColors (oldPointIDs : list nat)
    (colors : list Binary.float32) (n : Z)
  : list Binary.float32 * Z :=
  match oldPointIDs with
  | [] => (colors, n)
  | colorID :: rest =>
      restoreColors rest
        (setRGB colorID (color.1.1) (color.1.2) (color.2) colors) (n - 1)%Z
  end.

(** The second loop of [updateColors]: a rescan of the layer. *)
Fixpoint updateColors_positions (this : SelectionBox) (pts : list Q) (i : nat)
    (newPoints : list nat) (colors : list Binary.float32) (n : Z)
  : list nat * list Binary.float32 * Z :=
  match pts with
  | p_x :: p_y :: p_z :: rest =>
      let xypos := toScreenXY p_x p_y p_z in
      if truthy (withinBounds this xypos) then
        updateColors_positions this rest (i + 3) (newPoints ++ [i])
                               (setRGB i 1 0 1 colors) (n + 1)%Z
      else updateColors_positions this rest (i + 3) newPoints colors n
  | _ => (newPoints, colors, n)
  end.

Definition updateColors (r : nat) : M unit :=
  this ← getBox r;
  s ← get;
  L ← defined (lookup_layer (layerName this) (layer_points s));
  let '(colors1, n1) :=
    restoreColors (selectedPointIDs this) (customColor L) (nSelected s) in
  let '(newPoints, colors2, n2) :=
    updateColors_positions this (positions L) 0 [] colors1 n1 in
  modify (fun s =>
    set_boxes (<[r := with_selectedPointIDs newPoints this]> (boxes s))
      (set_nSelected n2
         (set_layer_points
            (store_colors (layerName this) colors2 (layer_points s)) s))).

Definition removeBox (r : nat) : M unit :=
  this ← getBox r;
  s ← get;
  L ← defined (lookup_layer (layerName this) (layer_points s));
  let '(colors1, n1) :=
    restoreColors (selectedPointIDs this) (customColor L) (nSelected s) in
  modify (fun s =>
    set_nSelected n1
      (set_layer_points
         (store_colors (layerName this) colors1 (layer_points s)) s)).

(** *** selectionBox.js: fill, handles and lines *)

(** The geometry that [makeBox] and [updateBox] build for the shape. *)
Definition boxGeometry (shape : string) (xLength yLength : Q) : BoxGeometry :=
  if String.eqb shape "Rectangle" then BoxBufferGeometry xLength yLength
  else if String.eqb shape "Ellipse" then
    ShapeBufferGeometry (Qabs (xLength / 2)) (Qabs (yLength / 2))
  else NoGeometry.

Definition boxMesh (this : SelectionBox) : Mesh :=
  let objectBoundsLL := toObjectCoordinates (ll this) in
  let objectBoundsUR := toObjectCoordinates (ur this) in
  let xLength := (x objectBoundsUR - x objectBoundsLL)%Q in
  let yLength := (y objectBoundsUR - y objectBoundsLL)%Q in
  mkMesh (boxGeometry (selectedShape this) xLength yLength)
         (mkPos ((x objectBoundsUR + x objectBoundsLL) / 2)%Q
                (- ((y objectBoundsUR + y objectBoundsLL) / 2))%Q).

Definition makeBox (r : nat) : M unit :=
  modifyBox r (fun this => with_box (Some (boxMesh this)) this).

(** [this.box.geometry = geometry] throws when there is no mesh yet. *)
Definition updateBox (r : nat) : M unit :=
  this ← getBox r;
  defined (box this);;
  modifyBox r (with_box (Some (boxMesh this))).

(** Returns the pair [(ll, ur)]. *)
Definition getSelectionBounds (this : SelectionBox) : Pos * Pos :=
  let roomLL := toObjectCoordinates (ll this) in
  let roomUR := toObjectCoordinates (ur this) in
  (mkPos (x roomLL) (- y roomLL)%Q, mkPos (x roomUR) (- y roomUR)%Q).

Definition makeLine (r : nat) : M unit :=
  modifyBox r (fun this =>
    let selectionBounds := getSelectionBounds this in
    let p := mkPos (x selectionBounds.2)
                   ((y selectionBounds.1 + y selectionBounds.2) / 2)%Q in
    with_curves (curves this ++ [mkCurve p p p p EmptyString]) this).

(** [this.curves[this.curves.length - 1].target = device] *)
Definition setLineTarget (r : nat) (device : string) : M unit :=
  this ← getBox r;
  let i := (length (curves this) - 1)%nat in
  c ← defined (curves this !! i);
  modifyBox r (with_curves
    (<[i := mkCurve (points0 c) (points1 c) (points2 c) (points3 c) device]>
       (curves this))).

Definition lineStart (newPos : Pos) (c : Curve) : Curve :=
  mkCurve newPos (mkPos (x newPos + (5 # 100))%Q (y newPos))
          (points2 c) (points3 c) (target c).

Definition updateLineStart (r : nat) (newPos : Pos) : M unit :=
  modifyBox r (fun this => with_curves (lineStart newPos <$> curves this) this).

Definition lineEnd (newPos : Pos) (tgt : string) (c : Curve) : Curve :=
  if String.eqb (target c) tgt then
    mkCurve (points0 c)
            (mkPos (x (points0 c) + (5 # 100))%Q (y (points1 c)))
            (mkPos (x newPos - (5 # 100))%Q (y newPos))
            newPos
            (target c)
  else c.

Definition updateLineEnd (r : nat) (newPos : Pos) (tgt : string) : M unit :=
  modifyBox r (fun this =>
    with_curves (lineEnd newPos tgt <$> curves this) this).

(** [this.curves.pop()] *)
Definition removeLine (r : nat) : M unit :=
  modifyBox r (fun this => with_curves (removelast (curves this)) this).

(** The loop of [removeLines] for a target that is not empty: the first
    line to that target goes. *)
Fixpoint removeLineTo (tgt : string) (cs : list Curve) : list Curve :=
  match cs with
  | [] => []
  | c :: rest =>
      if String.eqb tgt (target c) then rest else c :: removeLineTo tgt rest
  end.

Definition removeLines (r : nat) (tgt : string) : M unit :=
  modifyBox r (fun this =>
    if String.eqb tgt EmptyString then with_curves [] this
    else with_curves (removeLineTo tgt (curves this)) this).

Definition selectionPoints (this : SelectionBox) : list ResizePoint :=
  let sb := getSelectionBounds this in
  let l := sb.1 in
  let u := sb.2 in
  [ mkResizePoint "lowerLeft" (mkPos (x l) (y l));
    mkResizePoint "lowerMiddle" (mkPos ((x l + x u) / 2)%Q (y l));
    mkResizePoint "lowerRight" (mkPos (x u) (y l));
    mkResizePoint "middleRight" (mkPos (x u) ((y l + y u) / 2)%Q);
    mkResizePoint "upperRight" (mkPos (x u) (y u));
    mkResizePoint "upperMiddle" (mkPos ((x l + x u) / 2)%Q (y u));
    mkResizePoint "upperLeft" (mkPos (x l) (y u));
    mkResizePoint "middleLeft" (mkPos (x l) ((y l + y u) / 2)%Q) ].

Definition makeSelectionPoints (r : nat) : M unit :=
  modifyBox r (fun this =>
    with_resizePoints (resizePoints this ++ selectionPoints this) this).

Definition removePoints (r : nat) : M unit :=
  modifyBox r (with_resizePoints []).

Definition getSelectionInfo (r : nat) : M SelectionInfo :=
  this ← getBox r;
  s ← get;
  let bll := toObjectCoordinates (ll this) in
  let bur := toObjectCoordinates (ur this) in
  L ← defined (lookup_layer (layerName this) (layer_points s));
  mret (mkSelectionInfo (layerName this)
          (mkPos (x bll - x (offsetts L))%Q (- (y bll - y (offsetts L)))%Q)
          (mkPos (x bur - x (offsetts L))%Q (- (y bur - y (offsetts L)))%Q)
          (getSelectedDropDown "neuronType")
          (getSelectedDropDown "synapseModel")
          (selectedShape this)).

(** *** controls.js *)

Definition resetButtons : M unit :=
  modify (fun s =>
    set_layerSelected EmptyString
      (set_mRelPos (mkPos 0 0)
         (set_mouseDownCoords (mkPos 0 0)
            (set_make_connection false
               (set_make_selection_box false
                  (set_shiftDown false (set_mouseDown false s))))))).

(** [raycaster.intersectObjects( objects )[ 0 ].object] *)
Definition firstIntersect {A : Type} (hit : option nat) (objects : list A)
  : option (nat * A) :=
  match hit with
  | Some k => match objects !! k with Some o => Some (k, o) | None => None end
  | None => None
  end.

(** [boxInFocus.curveObject]: a [SelectionBox] has no property of that
    name.  Its constructor sets [currentCurve], [currentCurveObject] and
    [curves], no method assigns [curveObject], and [curveObject] in
    controls.js is a variable of the closure, not a property.  Reading the
    property gives [undefined]. *)
Definition curveObject (this : SelectionBox) : option Curve := None.

(** The loop of [onMouseDown] over [selectionBoxArray]; [true] when it
    left the handler through its [return]. *)
Fixpoint focusFirst (mouseDownCorrected : Pos) (refs : list nat) : M bool :=
  match refs with
  | [] => mret false
  | r :: rest =>
      this ← getBox r;
      if truthy (withinBounds this mouseDownCorrected) then
        modify (set_boxInFocus (Some r));;
        match curveObject this with
        | None => modify (set_make_connection true);; makeLine r
        | Some _ => mret tt
        end;;
        makeSelectionPoints r;;
        mret true
      else focusFirst mouseDownCorrected rest
  end.

Definition onMouseDown (event : MouseEvent) : M unit :=
  if onCanvas event then
    modify (fun s =>
      set_mouseDownCoords (mkPos (clientX event) (clientY event))
        (set_mouseDown true s));;
    s ← get;
    onHandle ←
      match boxInFocus s with
      | Some r =>
          this ← getBox r;
          match firstIntersect
                  (intersectResizePoints event (resizePoints this))
                  (resizePoints this) with
          | Some (_, p) =>
              modify (set_resizeSideInFocus (Some (point_name p)));;
              mret true
          | None =>
              removePoints r;;
              modify (set_boxInFocus None);;
              mret false
          end
      | None => mret false
      end;
    if (onHandle : bool) then mret tt
    else if shiftKey event then
      modify (set_shiftDown true);;
      s ← get;
      match firstIntersect (intersectDragObjects event (drag_objects s))
                           (drag_objects s) with
      | Some (k, _) => modify (set_object_selected (Some k))
      | None => mret tt
      end
    else
      s ← get;
      let mouseDownCorrected :=
        mkPos (x (mouseDownCoords s)) (height - y (mouseDownCoords s))%Q in
      found ← focusFirst mouseDownCorrected (selectionBoxArray s);
      if (found : bool) then mret tt
      else modify (set_make_selection_box true)
  else mret tt.

(** The [switch] of [onMouseMove] on the handle name: the corners after
    the move, [None] for a name that no [case] matches. *)
Definition resizeSide (side : string) (event : MouseEvent)
    (this : SelectionBox) : option SelectionBox :=
  let ex := clientX event in
  let ey := (height - clientY event)%Q in
  if String.eqb side "lowerLeft" then
    Some (with_ll (mkPos ex ey) this)
  else if String.eqb side "lowerMiddle" then
    Some (with_ll (mkPos (x (ll this)) ey) this)
  else if String.eqb side "lowerRight" then
    Some (with_ll (mkPos (x (ll this)) ey)
            (with_ur (mkPos ex (y (ur this))) this))
  else if String.eqb side "middleRight" then
    Some (with_ur (mkPos ex (y (ur this))) this)
  else if String.eqb side "upperRight" then
    Some (with_ur (mkPos ex ey) this)
  else if String.eqb side "upperMiddle" then
    Some (with_ur (mkPos (x (ur this)) ey) this)
  else if String.eqb side "upperLeft" then
    Some (with_ur (mkPos (x (ur this)) ey)
            (with_ll (mkPos ex (y (ll this))) this))
  else if String.eqb side "middleLeft" then
    Some (with_ll (mkPos ex (y (ll this))) this)
  else None.

(** The loop of [onMouseMove] over [deviceBoxMap[deviceName]]. *)
Fixpoint updateLineEnds (refs : list nat) (newPos : Pos) (deviceName : string)
  : M unit :=
  match refs with
  | [] => mret tt
  | r :: rest =>
      updateLineEnd r newPos deviceName;;
      updateLineEnds rest newPos deviceName
  end.

Definition onMouseMove (event : MouseEvent) : M unit :=
  s ← get;
  if make_selection_box s then
    modify (set_mRelPos
              (mkPos (clientX event - x (mouseDownCoords s))%Q
                     (clientY event - y (mouseDownCoords s))%Q))
  else
    match resizeSideInFocus s with
    | Some side =>
        r ← defined (boxInFocus s);
        this ← getBox r;
        match resizeSide side event this with
        | Some this' => modifyBox r (fun _ => this');; updateBox r
        | None => mret tt
        end
    | None =>
        let relScreenPos :=
          toObjectCoordinates (mkPos (clientX event) (clientY event)) in
        if make_connection s then
          r ← defined (boxInFocus s);
          updateLineEnd r relScreenPos EmptyString
        else if shiftDown s then
          match object_selected s with
          | Some k =>
              if intersectPlane (mouseDownCoords s) then
                d ← defined (drag_objects s !! k);
                modify (set_drag_objects
                  (<[k := mkDevice (name d) relScreenPos (radius d)]>
                     (drag_objects s)));;
                updateLineEnds (default [] (deviceBoxMap s !! name d))
                  (mkPos (x relScreenPos - radius d)%Q (y relScreenPos))
                  (name d)
              else mret tt
          | None => mret tt
          end
        else mret tt
    end.

(** The exchange of coordinates at the end of a resize. *)
Definition flipCorners (this : SelectionBox) : SelectionBox :=
  let this1 :=
    if Num.Qltb (x (ur this)) (x (ll this)) then
      with_ll (mkPos (x (ur this)) (y (ll this)))
        (with_ur (mkPos (x (ll this)) (y (ur this))) this)
    else this in
  if Num.Qltb (y (ur this1)) (y (ll this1)) then
    with_ll (mkPos (x (ll this1)) (y (ur this1)))
      (with_ur (mkPos (x (ur this1)) (y (ll this1))) this1)
  else this1.

Definition onMouseUp (event : MouseEvent) : M unit :=
  s ← get;
  if make_selection_box s then
    let mouseDownCorrected :=
      mkPos (x (mouseDownCoords s)) (height - y (mouseDownCoords s))%Q in
    let mouseUpCoords :=
      mkPos (x (mRelPos s) + x mouseDownCorrected)%Q
            (- y (mRelPos s) + y mouseDownCorrected)%Q in
    let bounds := findBounds mouseUpCoords mouseDownCorrected in
    r ← newSelectionBox bounds.1 bounds.2 getSelectedShape;
    modify (set_boxInFocus (Some r));;
    this ← getBox r;
    modify (set_layerSelected (layerName this));;
    modify (fun s => set_selectionBoxArray (selectionBoxArray s ++ [r]) s);;
    (* If we didn't click on a layer, it will cause problems further down *)
    if String.eqb (layerName this) EmptyString then resetButtons
    else
      makeBox r;;
      makeSelectionPoints r;;
      modifyBox r (fun this =>
        with_selectedSynModel (Some (getSelectedDropDown "synapseModel"))
          (with_selectedNeuronType (Some (getSelectedDropDown "neuronType"))
             this));;
      info ← getSelectionInfo r;
      modify (fun s => set_sent (sent s ++ [info]) s);;
      resetButtons
  else
    match resizeSideInFocus s with
    | Some _ =>
        modify (set_resizeSideInFocus None);;
        r ← defined (boxInFocus s);
        modifyBox r flipCorners;;
        removePoints r;;
        makeSelectionPoints r;;
        updateColors r;;
        this ← getBox r;
        updateLineStart r
          (toObjectCoordinates
             (mkPos (x (ur this))
                    (height - (y (ll this) + y (ur this)) / 2)%Q));;
        resetButtons
    | None =>
        if make_connection s then
          match firstIntersect (intersectDragObjects event (drag_objects s))
                               (drag_objects s) with
          | Some (_, intersect_target) =>
              r ← defined (boxInFocus s);
              setLineTarget r (name intersect_target);;
              updateLineEnd r
                (mkPos (x (position intersect_target)
                        - radius intersect_target)%Q
                       (y (position intersect_target)))
                (name intersect_target);;
              s ← get;
              l ← defined (deviceBoxMap s !! name intersect_target);
              modify (set_deviceBoxMap
                (<[name intersect_target := (l ++ [r])%list]>
                   (deviceBoxMap s)));;
              resetButtons
          | None =>
              r ← defined (boxInFocus s);
              removeLine r;;
              resetButtons
          end
        else if shiftDown s then
          modify (set_object_selected None);;
          resetButtons
        else resetButtons
    end.

(** [array.indexOf( r )] *)
Fixpoint indexOf (l : list nat) (r : nat) : option nat :=
  match l with
  | [] => None
  | r' :: rest =>
      if Nat.eqb r' r then Some 0%nat else S <$> indexOf rest r
  end.

(** [index = array.indexOf( r ); if ( index > -1 ) array.splice( index, 1 )] *)
Definition spliceOut (r : nat) (l : list nat) : list nat :=
  match indexOf l r with
  | Some index => delete index l
  | None => l
  end.

Definition onKeyUp (event : KeyEvent) : M unit :=
  s ← get;
  match boxInFocus s with
  | Some r =>
      if Nat.eqb (keyCode event) 46 then
        removePoints r;;
        removeBox r;;
        removeLines r EmptyString;;
        modify (fun s =>
          set_selectionBoxArray (spliceOut r (selectionBoxArray s)) s);;
        modify (fun s =>
          set_deviceBoxMap (spliceOut r <$> deviceBoxMap s) s);;
        modify (set_boxInFocus None)
      else mret tt
  | None => mret tt
  end.

(** *** The event loop *)

(** The events that [activate] subscribes to (a window resize only
    reaches the renderer). *)
Inductive Event : Type :=
| MouseDown (event : MouseEvent)
| MouseMove (event : MouseEvent)
| MouseUp (event : MouseEvent)
| KeyUp (event : KeyEvent).

Definition dispatch (e : Event) : M unit :=
  match e with
  | MouseDown event => onMouseDown event
  | MouseMove event => onMouseMove event
  | MouseUp event => onMouseUp event
  | KeyUp event => onKeyUp event
  end.

(** The events are handled in the order of their delivery; a handler that
    throws leaves its state to the next one. *)
Definition runEvents (es : list Event) (s : State) : State :=
  fold_left (fun s e => final (dispatch e s)) es s.

End Editor.

(** ** Definitions of the specification *)

Section Specification.
Context {page : Collaborators}.

(** Center [(cx, cy)] and half-extents [(rx, ry)] of a box. *)
Definition cx (this : SelectionBox) : Q := ((x (ur this) + x (ll this)) / 2)%Q.
Definition cy (this : SelectionBox) : Q := ((y (ur this) + y (ll this)) / 2)%Q.


(** The vertex number [k] of a position buffer: the three entries from
    offset [3 * k] on. *)
Definition vertex (pts : list Q) (k : nat) : option (Q * Q * Q) :=
  match pts !! (3 * k)%nat, pts !! (3 * k + 1)%nat, pts !! (3 * k + 2)%nat
  with
  | Some a, Some b, Some c => Some (a, b, c)
  | _, _, _ => None
  end.

(** "whose projected screen position satisfies [withinBounds]" *)
Definition pointWithin (this : SelectionBox) (pts : list Q) (k : nat) : bool :=
  match vertex pts k with
  | Some (a, b, c) => truthy (withinBounds this (toScreenXY a b c))
  | None => false
  end.

(** The points of a layer within the bounds of [this], each named as the
    code names it, by the offset of its vertex in the position buffer, in
    increasing order. *)
Definition pointsWithin (this : SelectionBox) (L : Layer) : list nat :=
  List.map (fun k => (3 * k)%nat)
    (List.filter (pointWithin this (positions L))
       (seq 0 (length (positions L) / 3))).

(** The offsets that one pass over a position buffer collects, from
    offset [i] on. *)
Fixpoint scan (this : SelectionBox) (pts : list Q) (i : nat) : list nat :=
  match pts with
  | p_x :: p_y :: p_z :: rest =>
      if truthy (withinBounds this (toScreenXY p_x p_y p_z))
      then i :: scan this rest (i + 3)
      else scan this rest (i + 3)
  | _ => []
  end.

(** The colour buffer after the given points got the highlight colour,
    and after they got the base colour back. *)
Definition highlight (ids : list nat) (colors : list Binary.float32)
  : list Binary.float32 :=
  fold_left (fun c i => setRGB i 1 0 1 c) ids colors.

Definition restore (ids : list nat) (colors : list Binary.float32)
  : list Binary.float32 :=
  fold_left (fun c i => setRGB i (color.1.1) (color.1.2) (color.2) c)
            ids colors.

(** The offsets that painting the points [ids] writes. *)
Definition touched (ids : list nat) (j : nat) : Prop :=
  exists i, i ∈ ids /\ (j = i \/ j = (i + 1)%nat \/ j = (i + 2)%nat).


(** The layer name of a box after the points [ids] of the layer
    [layer_name] were found within it. *)
Definition adoptLayer (layer_name : string) (ids : list nat)
    (this : SelectionBox) : SelectionBox :=
  match ids with
  | [] => this
  | _ :: _ =>
      if String.eqb (layerName this) EmptyString
      then with_layerName layer_name this
      else this
  end.

(** The offsets that [selectPoints] collects over all the layers. *)
Fixpoint scanLayers (this : SelectionBox) (layers : list (string * Layer))
  : list nat :=
  match layers with
  | [] => []
  | (_, L) :: rest => scan this (positions L) 0 ++ scanLayers this rest
  end.

(** The object that [new SelectionBox] allocates, before [selectPoints]
    runs on it. *)
Definition freshBox (ll0 ur0 : Pos) (shape : string) : SelectionBox :=
  mkSelectionBox EmptyString ll0 ur0 None None shape None [] [] [].

(** The corners that [onMouseUp] computes for the marquee. *)
Definition marqueeBounds (s : State) : Pos * Pos :=
  let mouseDownCorrected :=
    mkPos (x (mouseDownCoords s)) (height - y (mouseDownCoords s))%Q in
  let mouseUpCoords :=
    mkPos (x (mRelPos s) + x mouseDownCorrected)%Q
          (- y (mRelPos s) + y mouseDownCorrected)%Q in
  findBounds mouseUpCoords mouseDownCorrected.

(** The layers, the region and the count after [selectPoints] ran on the
    region of the marquee. *)
Definition marqueeSelected (s : State)
  : list (string * Layer) * SelectionBox * Z :=
  selectPoints_layers (layer_points s)
    (freshBox (marqueeBounds s).1 (marqueeBounds s).2 getSelectedShape)
    (nSelected s).

Definition marqueeBox (s : State) : SelectionBox := (marqueeSelected s).1.2.

(** The first region, in the order of [refs], that contains [pos]. *)
Fixpoint firstWithin (bs : list SelectionBox) (pos : Pos) (refs : list nat)
  : option nat :=
  match refs with
  | [] => None
  | r :: rest =>
      match bs !! r with
      | Some this =>
          if truthy (withinBounds this pos) then Some r
          else firstWithin bs pos rest
      | None => None
      end
  end.

(** The line that [makeLine] adds to a box. *)
Definition newLine (this : SelectionBox) : Curve :=
  let selectionBounds := getSelectionBounds this in
  let p := mkPos (x selectionBounds.2)
                 ((y selectionBounds.1 + y selectionBounds.2) / 2)%Q in
  mkCurve p p p p EmptyString.

(** A region is referenced from the adjacency map. *)
Definition referenced (r : nat) (m : gmap string (list nat)) : Prop :=
  exists device l, m !! device = Some l /\ r ∈ l.

(** The pointer-down misses every handle of the box in focus, if there is
    one. *)
Definition missesHandles (ev : MouseEvent) (s : State) : Prop :=
  match boxInFocus s with
  | None => True
  | Some r0 =>
      exists b0, boxes s !! r0 = Some b0 /\
                 firstIntersect
                   (intersectResizePoints ev (resizePoints b0))
                   (resizePoints b0) = None
  end.

End Specification.

(** ** A page to run the editor on *)

Module Scenario.

(** Modelled from the spec: [findBounds] is not in the two files.  The
    marquee is committed "normalizing the two corners from the signed
    drag": the smaller coordinates make [ll], the larger ones [ur]. *)
Definition minMaxBounds (pos1 pos2 : Pos) : Pos * Pos :=
  let lo a b := if Qle_bool a b then a else b in
  let hi a b := if Qle_bool a b then b else a in
  (mkPos (lo (x pos1) (x pos2)) (lo (y pos1) (y pos2)),
   mkPos (hi (x pos1) (x pos2)) (hi (y pos1) (y pos2))).

(** The first device whose marker, a disc of its bounding radius around
    its position, contains the point. *)
Fixpoint deviceAt (p : Pos) (devices : list Device) : option nat :=
  match devices with
  | [] => None
  | d :: rest =>
      let dx := (x p - x (position d))%Q in
      let dy := (y p - y (position d))%Q in
      if Qle_bool (dx * dx + dy * dy)%Q (radius d * radius d)%Q
      then Some 0%nat
      else S <$> deviceAt p rest
  end.

(** The first handle that lies under the pointer: handles are placed at
    the corners of [getSelectionBounds], which negates the vertical
    coordinate. *)
Fixpoint handleAt (p : Pos) (handles : list ResizePoint) : option nat :=
  match handles with
  | [] => None
  | h :: rest =>
      if Qeq_bool (x p) (x (point_position h))
         && Qeq_bool (y p) (- y (point_position h))%Q
      then Some 0%nat
      else S <$> handleAt p rest
  end.

(** A page that shows the scene unscaled, 600 pixels high, with the
    rectangle tool selected. *)
#[export] Instance page : Collaborators := {|
  toScreenXY := fun p_x p_y _ => mkPos p_x p_y;
  toObjectCoordinates := fun p => p;
  findBounds := minMaxBounds;
  getSelectedShape := "Rectangle";
  getSelectedDropDown := fun id =>
    if String.eqb id "neuronType" then "iaf_psc_alpha" else "static_synapse";
  height := 600;
  color := (1 # 2, 1 # 2, 1 # 2)%Q;
  intersectResizePoints := fun event handles =>
    handleAt (mkPos (clientX event) (600 - clientY event)%Q) handles;
  intersectDragObjects := fun event devices =>
    deviceAt (mkPos (clientX event) (clientY event)) devices;
  intersectPlane := fun _ => true
|}.

Definition grey (n : nat) : list Binary.float32 :=
  repeat (Num.Fin (1 # 2)) n.

(** Three points, two of them between [(100, 150)] and [(300, 250)]. *)
Definition layer_a : Layer :=
  mkLayer [150; 200; 0; 250; 220; 0; 700; 500; 0]%Q (grey 9) (mkPos 0 0).

(** Three points, the third one between [(100, 150)] and [(300, 250)]. *)
Definition layer_b : Layer :=
  mkLayer [900; 900; 0; 800; 100; 0; 200; 200; 0]%Q (grey 9) (mkPos 0 0).

Definition oneLayer : list (string * Layer) := [("layer_a", layer_a)].

Definition twoLayers : list (string * Layer) :=
  [("layer_a", layer_a); ("layer_b", layer_b)].

(** A marker at [(5, 0)] with bounding radius [0.2]. *)
Definition generator : Device :=
  mkDevice "poisson_generator_1" (mkPos 5 0) (2 # 10).

(** The editor before the first event. *)
Definition start (layers : list (string * Layer)) : State :=
  mkState false false false false None [] None None (mkPos 0 0) (mkPos 0 0)
          EmptyString 0 layers {[ "poisson_generator_1" := [] ]}
          [generator] [] [].

Definition mouse (cx cy : Q) : MouseEvent := mkMouseEvent cx cy false true.

(** Drag a marquee from the pixel [(100, 450)] to the pixel [(300, 350)]:
    with the vertical flip, from [(100, 150)] to [(300, 250)]. *)
Definition drawMarquee : list Event :=
  [MouseDown (mouse 100 450); MouseMove (mouse 300 350);
   MouseUp (mouse 300 350)].

(** Drag a marquee over a part of the canvas without points. *)
Definition drawEmptyMarquee : list Event :=
  [MouseDown (mouse 400 100); MouseMove (mouse 500 50);
   MouseUp (mouse 500 50)].

(** Click into the region and release on the marker. *)
Definition connect : list Event :=
  [MouseDown (mouse 200 400); MouseMove (mouse 5 0); MouseUp (mouse 5 0)].

Definition pressDelete : Event := KeyUp (mkKeyEvent 46).

(** Take the lower left handle of the region and drag it to the right,
    past the right edge. *)
Definition dragHandleAcross : list Event :=
  [MouseDown (mouse 100 450); MouseMove (mouse 400 450)].


(** The editor after the marquee was drawn over [layer_a], then with the
    lower left handle dragged across, with a line in progress towards the
    marker, with that line attached, and with a second line attached. *)
Definition drawn : State := runEvents drawMarquee (start oneLayer).
Definition resizing : State := runEvents dragHandleAcross drawn.
Definition connected : State := runEvents connect drawn.
Definition connectedTwice : State := runEvents connect connected.

(** A rectangle between [(100, 150)] and [(300, 250)] and an ellipse in
    the same box. *)
Definition rectangle : SelectionBox :=
  mkSelectionBox "layer_a" (mkPos 100 150) (mkPos 300 250) None None
                 "Rectangle" None [] [] [].


(** The region in those states, the line in progress, and the layer as
    the marquee painted it. *)
Definition drawnBox : SelectionBox := default rectangle (boxes drawn !! 0%nat).

Definition resizingBox : SelectionBox :=
  default rectangle (boxes resizing !! 0%nat).



Definition paintedLayer : Layer :=
  default layer_a (lookup_layer "layer_a" (layer_points drawn)).

End Scenario.

(** ** Predicates on states and runs *)

(** What a computation establishes from the state [s]: [Q] when it returns,
    [E] when it throws. *)
Definition wp {A : Type} (m : M A) (Q : A -> State -> Prop)
    (E : State -> Prop) (s : State) : Prop :=
  match m s with
  | Ok a s' => Q a s'
  | TypeError s' => E s'
  end.

(** A computation keeps [P], whether it returns or throws. *)
Definition keeps {A : Type} (P : State -> Prop) (m : M A) : Prop :=
  forall s, P s -> wp m (fun _ => P) P s.

(** Every box of [l] is still there in [l'], related by [rel]. *)
Definition keptBy (rel : SelectionBox -> SelectionBox -> Prop)
    (l l' : list SelectionBox) : Prop :=
  forall r b, l !! r = Some b -> exists b', l' !! r = Some b' /\ rel b b'.

(** The same region: the shape and the layer are those of the
    construction. *)
Definition sameRegion (b b' : SelectionBox) : Prop :=
  selectedShape b' = selectedShape b /\ layerName b' = layerName b.

(** The same region with the same points and the same number of lines, as
    a pointer move leaves it. *)
Definition sameMembers (b b' : SelectionBox) : Prop :=
  sameRegion b b' /\
  selectedPointIDs b' = selectedPointIDs b /\
  resizePoints b' = resizePoints b /\
  List.map target (curves b') = List.map target (curves b).

(** The references of a state lead to boxes, and no region is twice in
    [selectionBoxArray]. *)
Definition wellFormed (s : State) : Prop :=
  NoDup (selectionBoxArray s) /\
  (forall r, r ∈ selectionBoxArray s -> is_Some (boxes s !! r)) /\
  (forall r, boxInFocus s = Some r -> is_Some (boxes s !! r)) /\
  (forall device l r,
      deviceBoxMap s !! device = Some l -> r ∈ l -> is_Some (boxes s !! r)).

(** The state [s] is well formed and still holds the regions of [s0]. *)
Definition evolved (s0 s : State) : Prop :=
  wellFormed s /\ keptBy sameRegion (boxes s0) (boxes s).

(** What a pointer move leaves alone: the collections, the focus, the
    mode, the count and the colours of the points, the requests, and in
    every box the region, its points, its handles and the targets of its
    lines.  Only [mRelPos], the positions of the devices, the corners and
    the fill of a box and the control points of its lines may differ. *)
Definition sameSelection (s s' : State) : Prop :=
  selectionBoxArray s' = selectionBoxArray s /\
  boxInFocus s' = boxInFocus s /\
  deviceBoxMap s' = deviceBoxMap s /\
  nSelected s' = nSelected s /\
  layer_points s' = layer_points s /\
  sent s' = sent s /\
  make_selection_box s' = make_selection_box s /\
  make_connection s' = make_connection s /\
  resizeSideInFocus s' = resizeSideInFocus s /\
  shiftDown s' = shiftDown s /\
  mouseDown s' = mouseDown s /\
  object_selected s' = object_selected s /\
  length (boxes s') = length (boxes s) /\
  keptBy sameMembers (boxes s) (boxes s').

(** The fields that [resetButtons] clears.  The handle of a resize,
    [resizeSideInFocus], and [object_selected] are not among them. *)
Definition idle (s : State) : Prop :=
  mouseDown s = false /\ shiftDown s = false /\
  make_selection_box s = false /\ make_connection s = false /\
  mouseDownCoords s = mkPos 0 0 /\ mRelPos s = mkPos 0 0 /\
  layerSelected s = EmptyString.

(** A computation that, when it returns, has reset the buttons last. *)
Definition resets (m : M unit) : Prop :=
  forall s, wp m (fun _ => idle) (fun _ => True) s.

(** The handle of a resize and the selected device after a pointer-up that
    returns from [s]: a pending marquee is served first and leaves both as
    they are; otherwise the pointer-up ends a resize, and the release of a
    shift gesture lets the device go. *)
Definition resizeAfter (s : State) : option string :=
  if make_selection_box s then resizeSideInFocus s else None.

Definition selectedAfter (s : State) : option nat :=
  if make_selection_box s then object_selected s
  else match resizeSideInFocus s with
       | Some _ => object_selected s
       | None =>
           if make_connection s then object_selected s
           else if shiftDown s then None else object_selected s
       end.

(** The two fields have the given values. *)
Definition modeIs (side : option string) (device : option nat) (s : State)
  : Prop :=
  resizeSideInFocus s = side /\ object_selected s = device.

(** ** More definitions of the specification *)

Section MoreSpecification.
Context {page : Collaborators}.

(** The name that a new box gets: that of the first layer, in the order
    of [layer_points], with a point within the bounds and a name that is
    not empty; the empty name when there is none. *)
Fixpoint firstHitLayer (this : SelectionBox) (layers : list (string * Layer))
  : string :=
  match layers with
  | [] => EmptyString
  | (layer_name, L) :: rest =>
      match scan this (positions L) 0 with
      | [] => firstHitLayer this rest
      | _ :: _ =>
          if String.eqb layer_name EmptyString then firstHitLayer this rest
          else layer_name
      end
  end.

(** A layer after the points within the bounds of [this] were painted. *)
Definition painted (this : SelectionBox) (L : Layer) : Layer :=
  mkLayer (positions L)
          (highlight (pointsWithin this L) (customColor L))
          (offsetts L).




End MoreSpecification.

(** ** Colours of a point *)

(** The three entries of a colour buffer from offset [i] on. *)
Definition rgbAt (colors : list Binary.float32) (i : nat)
  : option (Binary.float32 * Binary.float32 * Binary.float32) :=
  match colors !! i, colors !! (i + 1)%nat, colors !! (i + 2)%nat with
  | Some r, Some g, Some b => Some (r, g, b)
  | _, _, _ => None
  end.

(** Offsets that are the start of a vertex. *)
Definition aligned (ids : list nat) : Prop :=
  forall i, i ∈ ids -> (i mod 3 = 0)%nat.

(** ** Gestures *)

Section GestureSpecification.
Context {page : Collaborators}.




End GestureSpecification.

(** ** The count of the selected points *)

(** The number of points of the box [r] of a store. *)
Definition pointsOf (bs : list SelectionBox) (r : nat) : Z :=
  match bs !! r with
  | Some b => Z.of_nat (length (selectedPointIDs b))
  | None => 0%Z
  end.

(** The points of the boxes [refs], a point counted once for every box
    that holds it. *)
Fixpoint total (bs : list SelectionBox) (refs : list nat) : Z :=
  match refs with
  | [] => 0%Z
  | r :: rest => (pointsOf bs r + total bs rest)%Z
  end.

(** [nSelected] is the number of points of the regions of
    [selectionBoxArray], and the box in focus is one of these regions. *)
Definition counted (s : State) : Prop :=
  nSelected s = total (boxes s) (selectionBoxArray s) /\
  (forall r, boxInFocus s = Some r -> r ∈ selectionBoxArray s).

Definition sameIds (b b' : SelectionBox) : Prop :=
  sameRegion b b' /\ selectedPointIDs b' = selectedPointIDs b.

(** [counted], with what the handlers need to keep it: no region is twice
    in [selectionBoxArray], and the boxes [R] are among the regions. *)
Definition tracked (R : list nat) (s : State) : Prop :=
  counted s /\ NoDup (selectionBoxArray s) /\
  forall r, r ∈ R -> r ∈ selectionBoxArray s.

(** ** Decidable forms *)

Definition alignedb (ids : list nat) : bool :=
  forallb (fun i => Nat.eqb (i mod 3) 0) ids.


(** ** The ellipse test in binary64 *)

Section EllipseSpecification.
Import Num Binary.
Local Open Scope Q_scope.




(** The square of a half-extent, and the quotient for one axis, as
    [withinEllipticalBounds] computes them. *)
Definition squaredHalfExtent (lo hi : Q) : jsnum :=
  Double.square (Double.div (Double.sub (round64 hi) (round64 lo)) (Fin 2)).

Definition axisTerm (lo hi p : Q) : jsnum :=
  Double.div
    (Double.square
       (Double.sub (round64 p)
          (Double.div (Double.add (round64 hi) (round64 lo)) (Fin 2))))
    (squaredHalfExtent lo hi).

Definition isZero (a : jsnum) : bool :=
  match a with
  | Fin q => Qeqb q 0
  | _ => false
  end.

(** Not negative: a number that is at least zero, [Infinity] or [NaN]. *)
Definition nonneg (a : jsnum) : Prop :=
  match a with
  | Fin q => 0 <= q
  | NInf => False
  | PInf | NaN => True
  end.

(** A divisor that is zero or [NaN]. *)
Definition degenerate (d : jsnum) : Prop := d = NaN \/ isZero d = true.

End EllipseSpecification.

(** ** More states of the page *)

Module Cases.
Import Scenario.

(** An ellipse whose corners a resize drag has exchanged, an ellipse
    without width, and a rectangle whose [ur] is left of its [ll]. *)
Definition invertedEllipse : SelectionBox :=
  mkSelectionBox "layer_a" (mkPos 300 250) (mkPos 100 150) None None
                 "Ellipse" None [] [] [].

Definition flatEllipse : SelectionBox :=
  mkSelectionBox "layer_a" (mkPos 100 150) (mkPos 100 250) None None
                 "Ellipse" None [] [] [].

Definition invertedRectangle : SelectionBox :=
  mkSelectionBox "layer_a" (mkPos 300 150) (mkPos 100 250) None None
                 "Rectangle" None [] [] [].



(** An ellipse of the width [2^-700], a double; the square of its
    half-extent, [2^-1402], is below the smallest double. *)
Definition thinEllipse : SelectionBox :=
  mkSelectionBox "layer_a" (mkPos 0 0)
                 (mkPos (1 # Pos.shiftl 1 700) 2) None None
                 "Ellipse" None [] [] [].


Definition emptyDrawn : State := runEvents drawEmptyMarquee (start oneLayer).

Definition emptyBox : SelectionBox :=
  default rectangle (boxes emptyDrawn !! 0%nat).

(** The region with its line to the marker, and the layers then. *)
Definition connectedBox : SelectionBox :=
  default rectangle (boxes connected !! 0%nat).

Definition connectedLayer : Layer :=
  default layer_a (lookup_layer "layer_a" (layer_points connected)).

Definition resizingLayer : Layer :=
  default layer_a (lookup_layer "layer_a" (layer_points resizing)).

Definition lowerLeftHandle : ResizePoint :=
  default (mkResizePoint EmptyString (mkPos 0 0))
          (resizePoints drawnBox !! 0%nat).

(** The marker taken with shift held. *)
Definition shiftPress : MouseEvent := mkMouseEvent 5 0 true true.

Definition holding : State := runEvents [MouseDown shiftPress] connected.

Definition holdingBox : SelectionBox :=
  default rectangle (boxes holding !! 0%nat).

(** A press on the empty canvas, a press on the region and a press on
    its lower left handle, with no release between them: a marquee and a
    resize are pending at once. *)
Definition pendingResize : State :=
  runEvents [MouseDown (mouse 400 100); MouseDown (mouse 200 400);
             MouseDown (mouse 100 450)] drawn.

(** Draw a region, connect it to the marker, delete it. *)
Definition session : list Event := drawMarquee ++ connect ++ [pressDelete].

End Cases.

(** * Properties *)

(** ** Numbers *)

Module NumFacts.
Import Num.
Local Open Scope Q_scope.

Lemma Qltb_lt a b : Qltb a b = true <-> a < b.
Proof.
  unfold Qltb. rewrite negb_true_iff.
  split; intros H.
  - apply Qnot_le_lt. intros Hle. apply Qle_bool_iff in Hle. congruence.
  - destruct (Qle_bool b a) eqn:E; [|reflexivity].
    apply Qle_bool_iff in E. exfalso. exact (Qlt_not_le _ _ H E).
Qed.

Lemma Qltb_ge a b : Qltb a b = false <-> b <= a.
Proof. unfold Qltb. rewrite negb_false_iff. apply Qle_bool_iff. Qed.


Lemma div_nonzero a b : ~ b == 0 -> div a b = Fin (a / b).
Proof.
  intros Hb. unfold div, Qeqb.
  destruct (Qeq_bool b 0) eqn:E; [|reflexivity].
  apply Qeq_bool_iff in E. contradiction.
Qed.


Lemma half_between a b : a <= b -> a <= (a + b) / 2 /\ (a + b) / 2 <= b.
Proof.
  intros H.
  assert (E : (a + b) / 2 == (1 # 2) * a + (1 # 2) * b) by field.
  rewrite E. split; lra.
Qed.

End NumFacts.

(** ** Rounding *)

Module RoundFacts.
Import Num NumFacts Binary Double.
Local Open Scope Q_scope.

Lemma rational_neg m e : rational true m e = - rational false m e.
Proof.
  unfold rational. destruct e as [|p|p]; try reflexivity.
  unfold Qopp. cbn [Qnum Qden]. f_equal.
  rewrite !Z.shiftl_mul_pow2 by discriminate.
  change (Z.neg m) with (- Z.pos m)%Z. apply Z.mul_opp_l.
Qed.

Lemma rational_nonneg m e : 0 <= rational false m e.
Proof.
  unfold rational. destruct e as [|p|p].
  - discriminate.
  - unfold Qle. cbn [Qnum Qden]. rewrite Z.mul_0_l, Z.mul_1_r.
    apply Z.shiftl_nonneg. discriminate.
  - discriminate.
Qed.

(** The sign of a rounded number is the sign that went in. *)
Lemma value_round_aux_neg prec emax mx ex lx :
  value (binary_round_aux prec emax true mx ex lx)
  = neg (value (binary_round_aux prec emax false mx ex lx)).
Proof.
  unfold binary_round_aux.
  destruct (shr_fexp _ _ _ _ _) as [mrs' e'].
  destruct (shr_fexp _ _ _ _ _) as [mrs'' e''].
  destruct (shr_m mrs'') as [|mz|mz]; [reflexivity| |reflexivity].
  destruct (Z.leb _ _); [|reflexivity].
  cbn [value neg]. now rewrite rational_neg, Qred_opp.
Qed.

Lemma value_round_aux_pos prec emax mx ex lx :
  value (binary_round_aux prec emax false mx ex lx)
  = neg (value (binary_round_aux prec emax true mx ex lx)).
Proof.
  unfold binary_round_aux.
  destruct (shr_fexp _ _ _ _ _) as [mrs' e'].
  destruct (shr_fexp _ _ _ _ _) as [mrs'' e''].
  destruct (shr_m mrs'') as [|mz|mz]; [reflexivity| |reflexivity].
  destruct (Z.leb _ _); [|reflexivity].
  cbn [value neg]. rewrite rational_neg, Qred_opp. f_equal.
  destruct (Qred (rational false mz e'')) as [n d].
  unfold Qopp. cbn [Qnum Qden]. now rewrite Z.opp_involutive.
Qed.

Lemma value_round_aux_nonneg prec emax mx ex lx :
  nonneg (value (binary_round_aux prec emax false mx ex lx)).
Proof.
  unfold binary_round_aux.
  destruct (shr_fexp _ _ _ _ _) as [mrs' e'].
  destruct (shr_fexp _ _ _ _ _) as [mrs'' e''].
  destruct (shr_m mrs'') as [|mz|mz]; [discriminate| |exact I].
  destruct (Z.leb _ _); [|exact I].
  cbn [value nonneg]. rewrite Qred_correct. apply rational_nonneg.
Qed.

Section Round.
Variables prec emax : Z.

Lemma round_compat a b : a == b -> round prec emax a = round prec emax b.
Proof. intros E. unfold round. now rewrite (Qred_complete a b E). Qed.

Lemma round_zero q : q == 0 -> round prec emax q = Fin 0.
Proof. intros E. now rewrite (round_compat q 0 E). Qed.

Lemma round_opp q : round prec emax (- q) = neg (round prec emax q).
Proof.
  unfold round. rewrite Qred_opp.
  destruct (Qred q) as [n d]. cbv zeta. cbn [Qopp Qnum Qden].
  destruct n as [|m|m]; cbv [Z.opp ofZ SFdiv xorb].
  - reflexivity.
  - destruct (SFdiv_core_binary _ _ _ _ _ _) as [[mz ez] lz].
    apply value_round_aux_neg.
  - destruct (SFdiv_core_binary _ _ _ _ _ _) as [[mz ez] lz].
    apply value_round_aux_pos.
Qed.

Lemma round_nonneg q : 0 <= q -> nonneg (round prec emax q).
Proof.
  intros H. unfold round.
  assert (H' : 0 <= Qred q) by now rewrite Qred_correct.
  destruct (Qred q) as [n d]. cbv zeta. cbn [Qnum Qden].
  unfold Qle in H'. cbn in H'. rewrite Z.mul_1_r in H'.
  destruct n as [|m|m]; cbv [ofZ SFdiv xorb].
  - apply Qle_refl.
  - destruct (SFdiv_core_binary _ _ _ _ _ _) as [[mz ez] lz].
    apply value_round_aux_nonneg.
  - exfalso. now apply H'.
Qed.

End Round.

(** The rounding on numbers whose nearest float is known: [0.1] as a
    double and as a single, the half-way case below the smallest double,
    which goes to the even neighbour zero, the largest double, and the
    first number that rounds to [Infinity]. *)
Lemma round_examples :
  round64 (1 # 10) = Fin (3602879701896397 # 36028797018963968) /\
  fround (1 # 10) = Fin (13421773 # 134217728) /\
  round64 (1 # Pos.shiftl 1 1074) = Fin (1 # Pos.shiftl 1 1074) /\
  round64 (1 # Pos.shiftl 1 1075) = Fin 0 /\
  round64 (3 # Pos.shiftl 1 1075) = Fin (1 # Pos.shiftl 1 1073) /\
  round64 ((Z.shiftl 1 1024 - Z.shiftl 1 971) # 1)
  = Fin ((Z.shiftl 1 1024 - Z.shiftl 1 971) # 1) /\
  round64 ((Z.shiftl 1 1024 - Z.shiftl 1 970) # 1) = PInf /\
  round64 (- (Z.shiftl 1 1024 # 1)) = NInf.
Proof. vm_compute. repeat split. Qed.

(** *** The operations *)

Lemma sub_swap a b : sub b a = neg (sub a b).
Proof.
  unfold sub. destruct a as [p| | |], b as [q| | |]; try reflexivity.
  cbn [neg Num.add rnd]. unfold round64.
  rewrite <- round_opp. apply round_compat. ring.
Qed.

Lemma add_swap a b : add b a = add a b.
Proof.
  unfold add. destruct a as [p| | |], b as [q| | |]; try reflexivity.
  cbn [Num.add rnd]. apply round_compat. ring.
Qed.

Lemma half_neg a : div (neg a) (Fin 2) = neg (div a (Fin 2)).
Proof.
  destruct a as [p| | |]; try reflexivity.
  cbn [neg div]. rewrite !div_nonzero by discriminate.
  cbn [rnd]. unfold round64. rewrite <- round_opp.
  apply round_compat. field.
Qed.

Lemma square_neg a : square (neg a) = square a.
Proof.
  destruct a as [p| | |]; try reflexivity.
  cbn [neg square]. apply round_compat. ring.
Qed.

Lemma square_not_negative a : nonneg (square a).
Proof.
  destruct a as [p| | |]; try exact I.
  cbn [square]. apply round_nonneg. nra.
Qed.

End RoundFacts.
(** ** Hit tests *)

Section HitTests.
Import Num NumFacts.
Local Open Scope Q_scope.

Variable this : SelectionBox.

Lemma withinRectangleBounds_spec pos :
  withinRectangleBounds this pos = true <->
  x (ll this) <= x pos /\ x pos <= x (ur this) /\
  y (ll this) <= y pos /\ y pos <= y (ur this).
Proof.
  unfold withinRectangleBounds.
  rewrite !andb_true_iff, !Qle_bool_iff. tauto.
Qed.

Lemma withinRectangleBounds_outside pos :
  x pos < x (ll this) \/ x (ur this) < x pos \/
  y pos < y (ll this) \/ y (ur this) < y pos ->
  withinRectangleBounds this pos = false.
Proof.
  intros H.
  destruct (withinRectangleBounds this pos) eqn:E; [|reflexivity].
  apply withinRectangleBounds_spec in E.
  destruct E as (E1 & E2 & E3 & E4).
  destruct H as [H|[H|[H|H]]]; exfalso; eapply Qlt_not_le; eauto.
Qed.

(** C6.  A rectangle with [ll.x <= ur.x] and [ll.y <= ur.y] contains its
    four corners and its center, contains exactly the points of the closed
    intervals [[ll.x, ur.x]] and [[ll.y, ur.y]], and so rejects every point
    with a coordinate strictly outside them. *)
Theorem withinBounds_rectangle :
  selectedShape this = "Rectangle" ->
  x (ll this) <= x (ur this) ->
  y (ll this) <= y (ur this) ->
  withinBounds this (ll this) = Some true /\
  withinBounds this (ur this) = Some true /\
  withinBounds this (mkPos (x (ll this)) (y (ur this))) = Some true /\
  withinBounds this (mkPos (x (ur this)) (y (ll this))) = Some true /\
  withinBounds this (mkPos ((x (ll this) + x (ur this)) / 2)
                           ((y (ll this) + y (ur this)) / 2)) = Some true /\
  (forall pos,
      withinBounds this pos = Some true <->
      x (ll this) <= x pos <= x (ur this) /\
      y (ll this) <= y pos <= y (ur this)) /\
  (forall pos,
      x pos < x (ll this) \/ x (ur this) < x pos \/
      y pos < y (ll this) \/ y (ur this) < y pos ->
      withinBounds this pos = Some false).
Proof.
  intros Hshape Hx Hy.
  assert (Hw : forall pos,
             withinBounds this pos = Some (withinRectangleBounds this pos)).
  { intros pos. unfold withinBounds. rewrite Hshape. reflexivity. }
  pose proof (half_between _ _ Hx) as [Hx1 Hx2].
  pose proof (half_between _ _ Hy) as [Hy1 Hy2].
  repeat split;
    try (rewrite Hw; f_equal; apply withinRectangleBounds_spec; simpl;
         repeat split; solve [ apply Qle_refl | assumption ]).
  - rewrite Hw in H. injection H as H.
    apply withinRectangleBounds_spec in H. tauto.
  - rewrite Hw in H. injection H as H.
    apply withinRectangleBounds_spec in H. tauto.
  - rewrite Hw in H. injection H as H.
    apply withinRectangleBounds_spec in H. tauto.
  - rewrite Hw in H. injection H as H.
    apply withinRectangleBounds_spec in H. tauto.
  - intros [[H1 H2] [H3 H4]]. rewrite Hw. f_equal.
    apply withinRectangleBounds_spec. tauto.
  - intros pos H. rewrite Hw. f_equal.
    now apply withinRectangleBounds_outside.
Qed.

End HitTests.

Section Ellipse.
Import Num NumFacts Binary Double RoundFacts.
Local Open Scope Q_scope.

Lemma withinEllipticalBounds_terms this pos :
  withinEllipticalBounds this pos
  = leb (add (axisTerm (x (ll this)) (x (ur this)) (x pos))
             (axisTerm (y (ll this)) (y (ur this)) (y pos))) 1.
Proof. reflexivity. Qed.









Variable this : SelectionBox.



End Ellipse.

(** C10.  [withinBounds] answers with a boolean exactly for the two shape
    tags "Rectangle" and "Ellipse"; for every other tag it takes no branch
    and its result is [undefined]. *)
Theorem withinBounds_defined_iff_shape (this : SelectionBox) (pos : Pos) :
  (exists b : bool, withinBounds this pos = Some b) <->
  (selectedShape this = "Rectangle" \/ selectedShape this = "Ellipse").
Proof.
  unfold withinBounds.
  destruct (String.eqb_spec (selectedShape this) "Rectangle") as [E1|E1].
  { split; [tauto | eauto]. }
  destruct (String.eqb_spec (selectedShape this) "Ellipse") as [E2|E2].
  { split; [tauto | eauto]. }
  split.
  - intros [b Hb]. discriminate.
  - tauto.
Qed.

(** ** Running the handlers *)

Ltac st_simpl :=
  cbn [mouseDown shiftDown make_selection_box make_connection
       object_selected selectionBoxArray boxInFocus resizeSideInFocus
       mouseDownCoords mRelPos layerSelected nSelected layer_points
       deviceBoxMap drag_objects boxes sent set_mouseDown set_shiftDown
       set_make_selection_box set_make_connection set_object_selected
       set_selectionBoxArray set_boxInFocus set_resizeSideInFocus
       set_mouseDownCoords set_mRelPos set_layerSelected set_nSelected
       set_layer_points set_deviceBoxMap set_drag_objects set_boxes set_sent
       layerName ll ur selectedNeuronType selectedSynModel selectedShape box
       resizePoints curves selectedPointIDs with_layerName with_ll with_ur
       with_selectedNeuronType with_selectedSynModel with_box
       with_resizePoints with_curves with_selectedPointIDs] in *.

Section Steps.
Context {page : Collaborators}.

Lemma bind_Ok {A B} (m : M A) (f : A -> M B) s a s' :
  m s = Ok a s' -> (m ≫= f) s = f a s'.
Proof. intros H. unfold mbind, M_bind. now rewrite H. Qed.

Lemma bind_TypeError {A B} (m : M A) (f : A -> M B) s s' :
  m s = TypeError s' -> (m ≫= f) s = TypeError s'.
Proof. intros H. unfold mbind, M_bind. now rewrite H. Qed.

Lemma bind_assoc {A B C} (m : M A) (g : A -> M B) (f : B -> M C) s :
  ((m ≫= g) ≫= f) s = (m ≫= (fun a => g a ≫= f)) s.
Proof. unfold mbind, M_bind. now destruct (m s). Qed.

Lemma bind_get {B} (f : State -> M B) s : (get ≫= f) s = f s s.
Proof. reflexivity. Qed.

Lemma bind_modify {B} (g : State -> State) (f : unit -> M B) s :
  (modify g ≫= f) s = f tt (g s).
Proof. reflexivity. Qed.

Lemma bind_ret {A B} (a : A) (f : A -> M B) s : (mret a ≫= f) s = f a s.
Proof. reflexivity. Qed.

Lemma bind_defined_Some {A B} (a : A) (f : A -> M B) s :
  (defined (Some a) ≫= f) s = f a s.
Proof. reflexivity. Qed.

Lemma bind_defined_None {A B} (f : A -> M B) s :
  (defined None ≫= f) s = TypeError s.
Proof. reflexivity. Qed.

Lemma getBox_Some r s b : boxes s !! r = Some b -> getBox r s = Ok b s.
Proof.
  intros H. unfold getBox. rewrite bind_get. now rewrite H.
Qed.

Lemma getBox_None r s : boxes s !! r = None -> getBox r s = TypeError s.
Proof.
  intros H. unfold getBox. rewrite bind_get. now rewrite H.
Qed.

Lemma modifyBox_Some r f s b :
  boxes s !! r = Some b ->
  modifyBox r f s = Ok tt (set_boxes (<[r := f b]> (boxes s)) s).
Proof.
  intros H. unfold modifyBox.
  rewrite (bind_Ok _ _ _ _ _ (getBox_Some _ _ _ H)). reflexivity.
Qed.

Lemma lookup_modified r (v : SelectionBox) (l : list SelectionBox) b :
  l !! r = Some b -> <[r := v]> l !! r = Some v.
Proof.
  intros H. apply list_lookup_insert_eq. now apply lookup_lt_Some in H.
Qed.

End Steps.

Ltac box_lookup :=
  st_simpl;
  first [ eassumption
        | eapply lookup_modified; box_lookup ].

Ltac run_getBox :=
  erewrite (bind_Ok (getBox _)); [| apply getBox_Some; box_lookup ].

Ltac run_modifyBox :=
  erewrite (bind_Ok (modifyBox _ _)); [| apply modifyBox_Some; box_lookup ].

Ltac run_pure :=
  cbv beta iota;
  repeat (first [ rewrite bind_assoc | rewrite bind_get | rewrite bind_modify
                | rewrite bind_ret | rewrite bind_defined_Some ];
          cbv beta iota).

(** ** Point membership *)

Section Membership.
Context {page : Collaborators}.

Lemma list_ind3 {A} (P : list A -> Prop) :
  P [] -> (forall a, P [a]) -> (forall a b, P [a; b]) ->
  (forall a b c l, P l -> P (a :: b :: c :: l)) ->
  forall l, P l.
Proof.
  intros H0 H1 H2 H3.
  fix IH 1.
  intros [|a [|b [|c l]]]; [exact H0 | apply H1 | apply H2 | apply H3, IH].
Qed.

Lemma pointWithin_cons a b c pts this k :
  pointWithin this (a :: b :: c :: pts) (S k) = pointWithin this pts k.
Proof.
  unfold pointWithin, vertex.
  replace (3 * S k)%nat with (S (S (S (3 * k)))) by lia.
  replace (S (S (S (3 * k))) + 1)%nat with (S (S (S (3 * k + 1)))) by lia.
  replace (S (S (S (3 * k))) + 2)%nat with (S (S (S (3 * k + 2)))) by lia.
  reflexivity.
Qed.

Lemma scan_filter this pts : forall i,
  scan this pts i =
  List.map (fun k => (i + 3 * k)%nat)
    (List.filter (pointWithin this pts) (seq 0 (length pts / 3))).
Proof.
  induction pts as [|a|a b|a b c pts IH] using list_ind3; intros i;
    try reflexivity.
  change (length (a :: b :: c :: pts)) with (3 + length pts)%nat.
  replace ((3 + length pts) / 3)%nat with (S (length pts / 3)).
  2:{ replace (3 + length pts)%nat with (1 * 3 + length pts)%nat by lia.
      rewrite Nat.div_add_l by lia. lia. }
  cbn [seq List.filter]. rewrite <- seq_shift, filter_map_swap.
  assert (E : pointWithin this (a :: b :: c :: pts) 0
              = truthy (withinBounds this (toScreenXY a b c))) by reflexivity.
  rewrite E. cbn [scan]. rewrite IH.
  erewrite (filter_ext (fun k => pointWithin this (a :: b :: c :: pts) (S k)))
    by (intros k; apply pointWithin_cons).
  destruct (truthy _); cbn [List.map]; rewrite map_map;
    [ f_equal; [lia|] | ]; apply map_ext; intros k; lia.
Qed.

Lemma scan_pointsWithin this L :
  scan this (positions L) 0 = pointsWithin this L.
Proof. apply scan_filter. Qed.

Lemma scan_same_bounds this this' pts :
  ll this' = ll this -> ur this' = ur this ->
  selectedShape this' = selectedShape this ->
  forall i, scan this' pts i = scan this pts i.
Proof.
  intros Hl Hu Hs.
  assert (E : forall p, withinBounds this' p = withinBounds this p).
  { intros p.
    unfold withinBounds, withinRectangleBounds, withinEllipticalBounds.
    now rewrite Hl, Hu, Hs. }
  induction pts as [|a|a b|a b c pts IH] using list_ind3; intros i;
    try reflexivity.
  cbn [scan]. now rewrite E, IH.
Qed.

Lemma updateColors_positions_scan this pts : forall i newPoints colors n,
  updateColors_positions this pts i newPoints colors n =
  (newPoints ++ scan this pts i, highlight (scan this pts i) colors,
   (n + Z.of_nat (length (scan this pts i)))%Z).
Proof.
  induction pts as [|a|a b|a b c pts IH] using list_ind3;
    intros i newPoints colors n;
    try (cbn; rewrite app_nil_r, Z.add_0_r; reflexivity).
  cbn [updateColors_positions scan].
  destruct (truthy _); rewrite IH; [|reflexivity].
  rewrite <- app_assoc. cbn [length highlight fold_left app].
  f_equal. lia.
Qed.

Lemma restoreColors_restore ids : forall colors n,
  restoreColors ids colors n =
  (restore ids colors, (n - Z.of_nat (length ids))%Z).
Proof.
  induction ids as [|i ids IH]; intros colors n.
  - cbn. now rewrite Z.sub_0_r.
  - cbn [restoreColors]. rewrite IH. cbn [restore fold_left length].
    f_equal. lia.
Qed.
End Membership.

(** ** Resizing *)

Section Resize.
Context {page : Collaborators}.
Import Num NumFacts.

Lemma updateColors_corners r s this :
  boxes s !! r = Some this ->
  exists b', boxes (final (updateColors r s)) !! r = Some b' /\
             ll b' = ll this /\ ur b' = ur this /\ curves b' = curves this.
Proof.
  intros H. unfold updateColors.
  run_getBox. run_pure.
  destruct (lookup_layer (layerName this) (layer_points s)) as [L|].
  - rewrite bind_defined_Some.
    destruct (restoreColors _ _ _) as [colors1 n1].
    destruct (updateColors_positions _ _ _ _ _ _) as [[newPoints colors2] n2].
    eexists. split; [box_lookup|]. auto.
  - rewrite bind_defined_None. simpl. eauto.
Qed.

Lemma updateColors_state r s :
  resizeSideInFocus (final (updateColors r s)) = resizeSideInFocus s.
Proof.
  unfold updateColors.
  destruct (boxes s !! r) as [this|] eqn:Hr;
    [| now rewrite (bind_TypeError _ _ _ _ (getBox_None _ _ Hr)) ].
  run_getBox. run_pure.
  destruct (lookup_layer _ _) as [L|]; [|reflexivity].
  rewrite bind_defined_Some.
  destruct (restoreColors _ _ _) as [colors1 n1].
  destruct (updateColors_positions _ _ _ _ _ _) as [[newPoints colors2] n2].
  reflexivity.
Qed.

Lemma flipCorners_normalized this :
  (x (ll (flipCorners this)) <= x (ur (flipCorners this)))%Q /\
  (y (ll (flipCorners this)) <= y (ur (flipCorners this)))%Q.
Proof.
  unfold flipCorners.
  destruct (Qltb (x (ur this)) (x (ll this))) eqn:Ex;
    destruct (Qltb (y (ur _)) (y (ll _))) eqn:Ey; st_simpl;
    rewrite ?Ex, ?Ey in *; st_simpl;
    repeat match goal with
           | H : Qltb _ _ = true |- _ => apply Qltb_lt, Qlt_le_weak in H
           | H : Qltb _ _ = false |- _ => apply Qltb_ge in H
           end; auto.
Qed.

Lemma flipCorners_swaps this :
  ((x (ll (flipCorners this)) = x (ll this) /\
    x (ur (flipCorners this)) = x (ur this)) \/
   (x (ll (flipCorners this)) = x (ur this) /\
    x (ur (flipCorners this)) = x (ll this))) /\
  ((y (ll (flipCorners this)) = y (ll this) /\
    y (ur (flipCorners this)) = y (ur this)) \/
   (y (ll (flipCorners this)) = y (ur this) /\
    y (ur (flipCorners this)) = y (ll this))).
Proof.
  unfold flipCorners.
  destruct (Qltb (x (ur this)) (x (ll this))) eqn:Ex;
    destruct (Qltb (y (ur _)) (y (ll _))) eqn:Ey; st_simpl; auto.
Qed.

Lemma onMouseUp_resize_corners ev s side r this :
  make_selection_box s = false ->
  resizeSideInFocus s = Some side ->
  boxInFocus s = Some r ->
  boxes s !! r = Some this ->
  exists this',
    boxes (final (onMouseUp ev s)) !! r = Some this' /\
    ll this' = ll (flipCorners this) /\ ur this' = ur (flipCorners this) /\
    resizeSideInFocus (final (onMouseUp ev s)) = None.
Proof.
  intros H1 H2 H3 H4.
  unfold onMouseUp. rewrite bind_get, H1, H2. run_pure. rewrite H3. run_pure.
  run_modifyBox. unfold removePoints. run_modifyBox.
  unfold makeSelectionPoints. run_modifyBox.
  match goal with |- context [ (updateColors r ≫= ?f) ?s0 ] =>
    set (s1 := s0) end.
  assert (Hs1 : boxes s1 !! r = Some
            (with_resizePoints
               (selectionPoints (with_resizePoints [] (flipCorners this)))
               (with_resizePoints [] (flipCorners this)))).
  { subst s1. box_lookup. }
  assert (Hr1 : resizeSideInFocus s1 = None) by reflexivity.
  destruct (updateColors_corners r s1 _ Hs1) as (b2 & Hb2 & Hll & Hur & _).
  pose proof (updateColors_state r s1) as Hst.
  clearbody s1.
  destruct (updateColors r s1) as [[] s2|s2] eqn:E.
  - rewrite (bind_Ok _ _ _ _ _ E). simpl in Hb2, Hst.
    run_getBox. unfold updateLineStart. run_modifyBox.
    unfold resetButtons. simpl.
    eexists. split; [box_lookup|]. st_simpl. rewrite Hll, Hur.
    repeat split; congruence.
  - rewrite (bind_TypeError _ _ _ _ E). simpl in *.
    eexists. split; [eassumption|]. rewrite Hll, Hur.
    repeat split; congruence.
Qed.
(** C4.  After the pointer-up that ends a resize, the corners of the box
    in focus are in order, [ll.x <= ur.x] and [ll.y <= ur.y], also when the
    drag had inverted them; each pair of coordinates is the pair the drag
    left, exchanged or not, so the extent of the box is kept.  This is the
    state the handler leaves whether or not [updateColors] finds the layer
    of the box. *)
Theorem onMouseUp_resize_normalizes ev s side r this :
  make_selection_box s = false ->
  resizeSideInFocus s = Some side ->
  boxInFocus s = Some r ->
  boxes s !! r = Some this ->
  exists this',
    boxes (final (onMouseUp ev s)) !! r = Some this' /\
    (x (ll this') <= x (ur this'))%Q /\
    (y (ll this') <= y (ur this'))%Q /\
    ((x (ll this') = x (ll this) /\ x (ur this') = x (ur this)) \/
     (x (ll this') = x (ur this) /\ x (ur this') = x (ll this))) /\
    ((y (ll this') = y (ll this) /\ y (ur this') = y (ur this)) \/
     (y (ll this') = y (ur this) /\ y (ur this') = y (ll this))) /\
    resizeSideInFocus (final (onMouseUp ev s)) = None.
Proof.
  intros H1 H2 H3 H4.
  destruct (onMouseUp_resize_corners ev s side r this H1 H2 H3 H4)
    as (this' & Hb & Hll & Hur & Hside).
  exists this'. rewrite Hll, Hur.
  destruct (flipCorners_normalized this) as [Hx Hy].
  destruct (flipCorners_swaps this) as [Sx Sy].
  repeat split; assumption.
Qed.

End Resize.

(** ** Colour buffers *)

Section Colors.

Lemma setRGB_length i r g b colors :
  length (setRGB i r g b colors) = length colors.
Proof. unfold setRGB. now rewrite !length_insert. Qed.

Lemma setRGB_lookup_other i r g b colors j :
  j <> i -> j <> (i + 1)%nat -> j <> (i + 2)%nat ->
  setRGB i r g b colors !! j = colors !! j.
Proof.
  intros H0 H1 H2. unfold setRGB.
  rewrite !list_lookup_insert_ne by lia. reflexivity.
Qed.

Lemma setRGB_lookup_same i r g b colors colors' j :
  length colors = length colors' ->
  j = i \/ j = (i + 1)%nat \/ j = (i + 2)%nat ->
  setRGB i r g b colors !! j = setRGB i r g b colors' !! j.
Proof.
  intros Hlen Hj. unfold setRGB.
  rewrite !list_lookup_insert, !length_insert, Hlen.
  repeat case_decide; try reflexivity; try lia.
  rewrite !lookup_ge_None_2 by lia. reflexivity.
Qed.

Section Paint.
Variables r g b : Q.

Let paint (ids : list nat) (colors : list Binary.float32)
  : list Binary.float32 :=
  fold_left (fun c i => setRGB i r g b c) ids colors.

Lemma paint_length ids : forall colors,
  length (paint ids colors) = length colors.
Proof.
  induction ids as [|i ids IH]; intros colors; [reflexivity|].
  cbn. fold (paint ids). now rewrite IH, setRGB_length.
Qed.

Lemma paint_untouched ids j : forall colors,
  ~ touched ids j -> paint ids colors !! j = colors !! j.
Proof.
  induction ids as [|i ids IH]; intros colors Hj; [reflexivity|].
  cbn. fold (paint ids). rewrite IH.
  - apply setRGB_lookup_other; intros ->; apply Hj; exists i;
      (split; [apply list_elem_of_here | tauto]).
  - intros (i' & Hi' & Hj'). apply Hj. exists i'.
    split; [now apply list_elem_of_further | exact Hj'].
Qed.

Lemma paint_agree ids : forall colors colors',
  length colors = length colors' ->
  (forall j, ~ touched ids j -> colors !! j = colors' !! j) ->
  paint ids colors = paint ids colors'.
Proof.
  induction ids as [|i ids IH]; intros colors colors' Hlen Hout.
  - cbn. apply list_eq. intros j. apply Hout.
    intros (i & Hi & _). now apply not_elem_of_nil in Hi.
  - cbn. fold (paint ids). apply IH.
    + now rewrite !setRGB_length.
    + intros j Hj.
      destruct (decide (j = i \/ j = (i + 1)%nat \/ j = (i + 2)%nat))
        as [Hi|Hi].
      * now apply setRGB_lookup_same.
      * rewrite !setRGB_lookup_other by lia. apply Hout.
        intros (i' & Hi' & Hj'). apply elem_of_cons in Hi'.
        destruct Hi' as [->|Hi']; [tauto|].
        apply Hj. now exists i'.
Qed.
End Paint.

Context {page : Collaborators}.

Lemma highlight_length ids colors :
  length (highlight ids colors) = length colors.
Proof. apply paint_length. Qed.

Lemma restore_length ids colors :
  length (restore ids colors) = length colors.
Proof. apply paint_length. Qed.

(** Painting the points again, after they got the base colour back, gives
    the buffer that was there. *)
Lemma highlight_restore_highlight ids colors :
  highlight ids (restore ids (highlight ids colors)) = highlight ids colors.
Proof.
  unfold highlight at 1 3.
  apply paint_agree.
  - now rewrite restore_length, highlight_length.
  - intros j Hj. unfold restore. rewrite paint_untouched by assumption.
    unfold highlight. now rewrite paint_untouched by assumption.
Qed.

End Colors.

(** ** Recomputing the membership *)

Section UpdateColors.
Context {page : Collaborators}.

Lemma lookup_store_colors layer_name colors layers L :
  lookup_layer layer_name layers = Some L ->
  lookup_layer layer_name (store_colors layer_name colors layers)
  = Some (mkLayer (positions L) colors (offsetts L)).
Proof.
  induction layers as [|[k L'] layers IH]; intros H; [discriminate|].
  cbn in *. destruct (String.eqb k layer_name) eqn:E; cbn; rewrite E.
  - now injection H as ->.
  - now apply IH.
Qed.

Lemma store_colors_same layer_name layers L :
  lookup_layer layer_name layers = Some L ->
  store_colors layer_name (customColor L) layers = layers.
Proof.
  induction layers as [|[k L'] layers IH]; intros H; [reflexivity|].
  cbn in *. destruct (String.eqb k layer_name) eqn:E.
  - injection H as ->. now destruct L.
  - now rewrite IH.
Qed.

(** What one call of [updateColors] does, when the layer of the box
    exists. *)
Lemma updateColors_run r s this L :
  boxes s !! r = Some this ->
  lookup_layer (layerName this) (layer_points s) = Some L ->
  updateColors r s =
  Ok tt
    (set_boxes
       (<[r := with_selectedPointIDs (scan this (positions L) 0) this]>
          (boxes s))
       (set_nSelected
          (nSelected s - Z.of_nat (length (selectedPointIDs this))
           + Z.of_nat (length (scan this (positions L) 0)))%Z
          (set_layer_points
             (store_colors (layerName this)
                (highlight (scan this (positions L) 0)
                   (restore (selectedPointIDs this) (customColor L)))
                (layer_points s))
             s))).
Proof.
  intros Hr HL. unfold updateColors.
  run_getBox. run_pure. rewrite HL, bind_defined_Some.
  rewrite restoreColors_restore, updateColors_positions_scan.
  reflexivity.
Qed.

(** Without the layer, [updateColors] throws before it changes anything. *)
Lemma updateColors_throws r s this :
  boxes s !! r = Some this ->
  lookup_layer (layerName this) (layer_points s) = None ->
  updateColors r s = TypeError s.
Proof.
  intros Hr HL. unfold updateColors.
  run_getBox. run_pure. now rewrite HL.
Qed.

(** After [updateColors], [selectedPointIDs] is exactly the points of the
    layer [layerName] within the bounds, and the count moved by the net
    difference. *)
Lemma updateColors_exact r s this L :
  boxes s !! r = Some this ->
  lookup_layer (layerName this) (layer_points s) = Some L ->
  exists s' this',
    updateColors r s = Ok tt s' /\
    boxes s' !! r = Some this' /\
    selectedPointIDs this' = pointsWithin this' L /\
    ll this' = ll this /\ ur this' = ur this /\
    layerName this' = layerName this /\
    nSelected s' =
    (nSelected s - Z.of_nat (length (selectedPointIDs this))
     + Z.of_nat (length (pointsWithin this' L)))%Z.
Proof.
  intros Hr HL. eexists _, _. split; [eapply updateColors_run; eassumption|].
  split; [box_lookup|]. st_simpl.
  rewrite <- scan_pointsWithin.
  assert (E : forall ids i,
             scan (with_selectedPointIDs ids this) (positions L) i
             = scan this (positions L) i)
    by (intros; apply scan_same_bounds; reflexivity).
  rewrite E. repeat split; reflexivity.
Qed.

(** With the box and its layer present, [updateColors] returns, and a call
    on the state it leaves returns that state. *)
Lemma updateColors_settles r s this L :
  boxes s !! r = Some this ->
  lookup_layer (layerName this) (layer_points s) = Some L ->
  exists s1 this1,
    updateColors r s = Ok tt s1 /\
    updateColors r s1 = Ok tt s1 /\
    boxes s1 !! r = Some this1.
Proof.
  intros Hr HL.
  set (ids := scan this (positions L) 0).
  set (this1 := with_selectedPointIDs ids this).
  set (colors1 :=
         highlight ids (restore (selectedPointIDs this) (customColor L))).
  set (L1 := mkLayer (positions L) colors1 (offsetts L)).
  pose proof (updateColors_run r s this L Hr HL) as E1.
  fold ids this1 colors1 in E1.
  match type of E1 with _ = Ok tt ?st => set (s1 := st) in * end.
  assert (Hr1 : boxes s1 !! r = Some this1) by (subst s1; box_lookup).
  assert (HL1 : lookup_layer (layerName this1) (layer_points s1) = Some L1).
  { subst s1. st_simpl. now apply lookup_store_colors. }
  assert (E2 : updateColors r s1 = Ok tt s1).
  { rewrite (updateColors_run r s1 this1 L1 Hr1 HL1).
    cbn [positions customColor L1].
    rewrite (scan_same_bounds this this1) by reflexivity. fold ids.
    assert (Hc : highlight ids (restore (selectedPointIDs this1) colors1)
                 = colors1).
    { subst colors1. cbn [selectedPointIDs this1 with_selectedPointIDs].
      apply highlight_restore_highlight. }
    rewrite Hc.
    rewrite (store_colors_same (layerName this1) (layer_points s1) L1 HL1
             : store_colors (layerName this1) colors1 (layer_points s1)
               = layer_points s1).
    assert (Hb : <[r := with_selectedPointIDs ids this1]> (boxes s1)
                 = boxes s1).
    { apply list_insert_id. exact Hr1. }
    rewrite Hb.
    assert (Hn : (nSelected s1 - Z.of_nat (length (selectedPointIDs this1))
                  + Z.of_nat (length ids))%Z = nSelected s1).
    { cbn [selectedPointIDs this1 with_selectedPointIDs]. lia. }
    rewrite Hn. clearbody s1. now destruct s1. }
  exists s1, this1. repeat split; assumption.
Qed.

(** C9.  [updateColors] is idempotent: both calls return, and the second
    call, with unchanged bounds, leaves [selectedPointIDs] the same sequence
    and [nSelected] the same value as the first call left them; indeed it
    leaves the whole state as it was. *)
Theorem updateColors_idempotent r s this L :
  boxes s !! r = Some this ->
  lookup_layer (layerName this) (layer_points s) = Some L ->
  exists s1 s2 this1 this2,
    updateColors r s = Ok tt s1 /\
    updateColors r s1 = Ok tt s2 /\
    boxes s1 !! r = Some this1 /\
    boxes s2 !! r = Some this2 /\
    selectedPointIDs this2 = selectedPointIDs this1 /\
    nSelected s2 = nSelected s1 /\
    s2 = s1.
Proof.
  intros Hr HL.
  destruct (updateColors_settles r s this L Hr HL)
    as (s1 & this1 & E1 & E2 & B1).
  exists s1, s1, this1, this1. repeat split; assumption.
Qed.

(** Whatever the box and the layers, a second call leaves the state as the
    first call left it: a call that throws has changed nothing. *)
Lemma updateColors_twice r s :
  final (updateColors r (final (updateColors r s)))
  = final (updateColors r s).
Proof.
  destruct (boxes s !! r) as [this|] eqn:Hr.
  - destruct (lookup_layer (layerName this) (layer_points s)) as [L|] eqn:HL.
    + destruct (updateColors_settles r s this L Hr HL)
        as (s1 & _ & E1 & E2 & _).
      rewrite E1. cbn [final]. now rewrite E2.
    + rewrite (updateColors_throws r s this Hr HL). cbn [final].
      now rewrite (updateColors_throws r s this Hr HL).
  - assert (E : updateColors r s = TypeError s).
    { unfold updateColors.
      now rewrite (bind_TypeError _ _ _ _ (getBox_None _ _ Hr)). }
    rewrite E. cbn [final]. now rewrite E.
Qed.

End UpdateColors.

(** ** Selecting the points of a new box *)

Section SelectPoints.
Context {page : Collaborators}.

Lemma selectPoints_positions_scan layer_name pts :
  forall i this colors n,
    selectPoints_positions layer_name pts i this colors n =
    (with_selectedPointIDs (selectedPointIDs this ++ scan this pts i)
       (adoptLayer layer_name (scan this pts i) this),
     highlight (scan this pts i) colors,
     (n + Z.of_nat (length (scan this pts i)))%Z).
Proof.
  induction pts as [|a|a b|a b c pts IH] using list_ind3;
    intros i this colors n;
    try (cbn; rewrite app_nil_r, Z.add_0_r; now destruct this).
  cbn [selectPoints_positions scan].
  destruct (truthy _); [|apply IH].
  rewrite IH.
  match goal with |- context [scan ?t pts (i + 3)] =>
    rewrite (scan_same_bounds this t pts) by (now destruct (String.eqb _ _))
  end.
  set (ids := scan this pts (i + 3)).
  cbn [length highlight fold_left]. f_equal; [f_equal|lia].
  destruct this as [nm l u nt sm sh bx rp cs sel]. cbn.
  destruct (String.eqb nm EmptyString) eqn:E; cbn; rewrite <- ?app_assoc; cbn.
  - destruct ids; cbn.
    + reflexivity.
    + now destruct (String.eqb layer_name EmptyString).
  - destruct ids; cbn; rewrite ?E; reflexivity.
Qed.
End SelectPoints.

(** ** Committing a marquee *)

Section Drawing.
Context {page : Collaborators}.

Lemma selectPoints_run r s this :
  boxes s !! r = Some this ->
  selectPoints r s =
  Ok tt
    (set_boxes
       (<[r := (selectPoints_layers (layer_points s) this (nSelected s)).1.2]>
          (boxes s))
       (set_nSelected
          (selectPoints_layers (layer_points s) this (nSelected s)).2
          (set_layer_points
             (selectPoints_layers (layer_points s) this (nSelected s)).1.1
             s))).
Proof.
  intros Hr. unfold selectPoints. run_getBox. run_pure.
  now destruct (selectPoints_layers _ _ _) as [[layers this'] n].
Qed.

Lemma newSelectionBox_run ll0 ur0 shape s :
  newSelectionBox ll0 ur0 shape s =
  Ok (length (boxes s))
    (set_boxes
       (boxes s ++
        [(selectPoints_layers (layer_points s) (freshBox ll0 ur0 shape)
            (nSelected s)).1.2])
       (set_nSelected
          (selectPoints_layers (layer_points s) (freshBox ll0 ur0 shape)
             (nSelected s)).2
          (set_layer_points
             (selectPoints_layers (layer_points s) (freshBox ll0 ur0 shape)
                (nSelected s)).1.1
             s))).
Proof.
  unfold newSelectionBox. run_pure.
  erewrite (bind_Ok (selectPoints _)).
  2:{ apply selectPoints_run. st_simpl.
      rewrite lookup_app_r by lia. rewrite Nat.sub_diag. reflexivity. }
  run_pure. unfold mret, M_ret. f_equal.
  fold (freshBox ll0 ur0 shape).
  cbv [set_boxes set_nSelected set_layer_points]. st_simpl. f_equal.
  rewrite insert_app_r_alt by lia. now rewrite Nat.sub_diag.
Qed.

(** A marquee whose region has an empty [layerName] is not dropped:
    [onMouseUp] pushes the region before it tests the name, so it returns
    with the region as the last entry of [selectionBoxArray] and as the box
    in focus. *)
Lemma onMouseUp_empty_layer_retained ev s :
  make_selection_box s = true ->
  layerName (marqueeBox s) = EmptyString ->
  exists s',
    onMouseUp ev s = Ok tt s' /\
    selectionBoxArray s' = selectionBoxArray s ++ [length (boxes s)] /\
    boxes s' !! length (boxes s) = Some (marqueeBox s) /\
    boxInFocus s' = Some (length (boxes s)).
Proof.
  intros Hm Hl. unfold onMouseUp. rewrite bind_get, Hm.
  fold (marqueeBounds s).
  rewrite (bind_Ok _ _ _ _ _ (newSelectionBox_run _ _ _ s)).
  fold (marqueeSelected s). fold (marqueeBox s).
  run_pure.
  assert (Hb : forall l,
             (l ++ [marqueeBox s]) !! length l = Some (marqueeBox s)).
  { intros l. rewrite lookup_app_r by lia. now rewrite Nat.sub_diag. }
  erewrite (bind_Ok (getBox _)); [| apply getBox_Some; st_simpl; apply Hb].
  run_pure. rewrite Hl. cbn [String.eqb].
  unfold resetButtons, modify. eexists. split; [reflexivity|].
  st_simpl. auto.
Qed.

End Drawing.

(** ** Attaching a line to a device *)

Section Connecting.
Context {page : Collaborators}.

Lemma lineEnd_target newPos tgt c :
  target (lineEnd newPos tgt c) = target c.
Proof. unfold lineEnd. now destruct (String.eqb _ _). Qed.




End Connecting.

(** ** Focusing a region *)

Section Focusing.
Context {page : Collaborators}.

Lemma firstWithin_insert bs pos r0 b0 b0' refs :
  bs !! r0 = Some b0 ->
  (forall p, withinBounds b0' p = withinBounds b0 p) ->
  firstWithin (<[r0 := b0']> bs) pos refs = firstWithin bs pos refs.
Proof.
  intros H0 Hw. induction refs as [|r rest IH]; [reflexivity|].
  cbn [firstWithin]. destruct (decide (r0 = r)) as [<-|Hne].
  - rewrite (lookup_modified _ _ _ _ H0), H0, Hw, IH. reflexivity.
  - rewrite list_lookup_insert_ne by assumption. rewrite IH. reflexivity.
Qed.

(** The loop focuses the first region that contains the point, and makes
    a line for it whatever lines it has. *)
Lemma focusFirst_run pos refs : forall s r this,
  firstWithin (boxes s) pos refs = Some r ->
  boxes s !! r = Some this ->
  focusFirst pos refs s =
  Ok true
    (set_boxes
       (<[r := with_resizePoints (resizePoints this ++ selectionPoints this)
                 (with_curves (curves this ++ [newLine this]) this)]>
          (boxes s))
       (set_make_connection true (set_boxInFocus (Some r) s))).
Proof.
  induction refs as [|r0 rest IH]; intros s r this Hfirst Hr; [discriminate|].
  cbn [firstWithin focusFirst] in *.
  destruct (boxes s !! r0) as [b0|] eqn:H0; [|discriminate].
  run_getBox.
  destruct (truthy (withinBounds b0 pos)).
  - injection Hfirst as ->. rewrite Hr in H0. injection H0 as <-.
    run_pure. cbn [curveObject]. run_pure.
    unfold makeLine. run_modifyBox.
    unfold makeSelectionPoints. run_modifyBox. run_pure.
    unfold mret, M_ret. f_equal.
    cbv [set_boxes set_make_connection set_boxInFocus]. st_simpl.
    f_equal. now rewrite list_insert_insert_eq.
  - now apply IH.
Qed.

(** A pointer-down without shift that misses the handles and focuses a
    region always enters the connecting state and adds a new line to the
    region, whatever lines the region has already: the test
    [boxInFocus.curveObject === undefined] never fails. *)
Lemma onMouseDown_focus_makes_line ev s r this :
  onCanvas ev = true ->
  shiftKey ev = false ->
  missesHandles ev s ->
  firstWithin (boxes s) (mkPos (clientX ev) (height - clientY ev)%Q)
              (selectionBoxArray s) = Some r ->
  boxes s !! r = Some this ->
  exists s' this',
    onMouseDown ev s = Ok tt s' /\
    boxInFocus s' = Some r /\
    make_connection s' = true /\
    make_selection_box s' = make_selection_box s /\
    boxes s' !! r = Some this' /\
    curves this' = curves this ++ [newLine this].
Proof.
  intros Hc Hs Hmiss Hfirst Hr.
  unfold onMouseDown. rewrite Hc. run_pure. st_simpl.
  unfold missesHandles in Hmiss.
  destruct (boxInFocus s) as [r0|] eqn:Hf.
  - destruct Hmiss as (b0 & H0 & Hray). run_pure.
    run_getBox. rewrite Hray. run_pure.
    unfold removePoints. run_modifyBox. run_pure. rewrite Hs. run_pure.
    st_simpl.
    destruct (decide (r0 = r)) as [->|Hne].
    + rewrite Hr in H0. injection H0 as <-.
      erewrite (bind_Ok (focusFirst _ _)).
      2:{ eapply focusFirst_run; st_simpl.
          - rewrite (firstWithin_insert _ _ _ this) by (auto; reflexivity).
            eassumption.
          - eapply lookup_modified; eassumption. }
      eexists _, _. split; [reflexivity|]. st_simpl.
      do 3 (split; [reflexivity|]).
      split; [ rewrite list_insert_insert_eq;
               eapply lookup_modified; eassumption
             | reflexivity ].
    + erewrite (bind_Ok (focusFirst _ _)).
      2:{ eapply focusFirst_run; st_simpl.
          - rewrite (firstWithin_insert _ _ _ b0) by (auto; reflexivity).
            eassumption.
          - rewrite list_lookup_insert_ne by assumption. eassumption. }
      eexists _, _. split; [reflexivity|]. st_simpl.
      do 3 (split; [reflexivity|]).
      split; [ eapply lookup_modified;
               rewrite list_lookup_insert_ne by assumption; eassumption
             | reflexivity ].
  - run_pure. rewrite Hs. run_pure. st_simpl.
    erewrite (bind_Ok (focusFirst _ _)).
    2:{ eapply focusFirst_run; st_simpl; eassumption. }
    eexists _, _. split; [reflexivity|]. st_simpl.
    do 3 (split; [reflexivity|]).
    split; [ eapply lookup_modified; eassumption | reflexivity ].
Qed.

End Focusing.

(** ** Deleting the region in focus *)

Section Deleting.
Context {page : Collaborators}.

Lemma indexOf_None l r : indexOf l r = None <-> r ∉ l.
Proof.
  induction l as [|r' l IH]; cbn.
  - split; [intros _; apply not_elem_of_nil | reflexivity].
  - rewrite not_elem_of_cons.
    destruct (Nat.eqb_spec r' r) as [->|Hne].
    + split; [discriminate | tauto].
    + destruct (indexOf l r); cbn.
      * split; [discriminate|]. intros [_ H]. now apply IH in H.
      * split; [|reflexivity]. intros _. split; [congruence | now apply IH].
Qed.

(** [spliceOut] takes out the first occurrence, and only that one. *)
Lemma spliceOut_first r l1 l2 :
  r ∉ l1 -> spliceOut r (l1 ++ r :: l2) = l1 ++ l2.
Proof.
  intros H. unfold spliceOut.
  assert (E : indexOf (l1 ++ r :: l2) r = Some (length l1)).
  { induction l1 as [|r' l1 IH]; cbn.
    - now rewrite Nat.eqb_refl.
    - apply not_elem_of_cons in H as [Hne H].
      destruct (Nat.eqb_spec r' r) as [->|_]; [congruence|].
      now rewrite IH. }
  rewrite E. apply delete_middle.
Qed.

Lemma spliceOut_absent r l : r ∉ l -> spliceOut r l = l.
Proof.
  intros H. unfold spliceOut. apply indexOf_None in H. now rewrite H.
Qed.

Lemma spliceOut_NoDup r l : NoDup l -> r ∉ spliceOut r l.
Proof.
  intros Hnd. destruct (decide (r ∈ l)) as [Hin|Hout].
  - apply list_elem_of_split in Hin as (l1 & l2 & ->).
    apply NoDup_app in Hnd as (_ & H1 & H2).
    apply NoDup_cons in H2 as [H2 _].
    rewrite spliceOut_first.
    + rewrite elem_of_app. intros [H|H]; [|tauto].
      apply (H1 r H), list_elem_of_here.
    + intros H. apply (H1 r H), list_elem_of_here.
  - now rewrite spliceOut_absent.
Qed.

Lemma spliceOut_twice r l1 l2 l3 :
  r ∉ l1 -> spliceOut r (l1 ++ r :: l2 ++ r :: l3) = l1 ++ l2 ++ r :: l3.
Proof. apply spliceOut_first. Qed.

(** Without a box in focus, and for every other key, [onKeyUp] changes
    nothing. *)
Lemma onKeyUp_no_focus ev s : boxInFocus s = None -> onKeyUp ev s = Ok tt s.
Proof. intros H. unfold onKeyUp. rewrite bind_get, H. reflexivity. Qed.

Lemma onKeyUp_other_key ev s : keyCode ev <> 46%nat -> onKeyUp ev s = Ok tt s.
Proof.
  intros H. unfold onKeyUp. rewrite bind_get.
  destruct (boxInFocus s); [|reflexivity].
  destruct (Nat.eqb_spec (keyCode ev) 46); [contradiction|reflexivity].
Qed.

Lemma removeBox_run r s this L :
  boxes s !! r = Some this ->
  lookup_layer (layerName this) (layer_points s) = Some L ->
  removeBox r s =
  Ok tt
    (set_nSelected
       (nSelected s - Z.of_nat (length (selectedPointIDs this)))%Z
       (set_layer_points
          (store_colors (layerName this)
             (restore (selectedPointIDs this) (customColor L))
             (layer_points s))
          s)).
Proof.
  intros Hr HL. unfold removeBox. run_getBox. run_pure.
  rewrite HL, bind_defined_Some, restoreColors_restore. reflexivity.
Qed.

(** The delete key with a box in focus whose layer exists. *)
Lemma onKeyUp_delete ev s r this L :
  keyCode ev = 46%nat ->
  boxInFocus s = Some r ->
  boxes s !! r = Some this ->
  lookup_layer (layerName this) (layer_points s) = Some L ->
  exists s',
    onKeyUp ev s = Ok tt s' /\
    selectionBoxArray s' = spliceOut r (selectionBoxArray s) /\
    deviceBoxMap s' = spliceOut r <$> deviceBoxMap s /\
    boxInFocus s' = None /\
    (exists this', boxes s' !! r = Some this' /\
                   curves this' = [] /\ resizePoints this' = []).
Proof.
  intros Hk Hf Hr HL. unfold onKeyUp. rewrite bind_get, Hf, Hk.
  cbn [Nat.eqb]. unfold removePoints. run_modifyBox.
  erewrite (bind_Ok (removeBox _)).
  2:{ eapply removeBox_run; st_simpl.
      - eapply lookup_modified; eassumption.
      - exact HL. }
  unfold removeLines. run_modifyBox. run_pure.
  eexists. split; [reflexivity|]. st_simpl.
  do 3 (split; [reflexivity|]).
  eexists. split; [eapply lookup_modified; box_lookup|]. cbn. auto.
Qed.

(** When no list holds the box twice, nothing references it after the
    delete. *)
Lemma onKeyUp_delete_clean ev s r this L :
  keyCode ev = 46%nat ->
  boxInFocus s = Some r ->
  boxes s !! r = Some this ->
  lookup_layer (layerName this) (layer_points s) = Some L ->
  NoDup (selectionBoxArray s) ->
  (forall device l, deviceBoxMap s !! device = Some l -> NoDup l) ->
  exists s',
    onKeyUp ev s = Ok tt s' /\
    (r ∉ selectionBoxArray s') /\
    (~ referenced r (deviceBoxMap s')) /\
    boxInFocus s' = None /\
    onKeyUp ev s' = Ok tt s'.
Proof.
  intros Hk Hf Hr HL Hnd Hmap.
  destruct (onKeyUp_delete ev s r this L Hk Hf Hr HL)
    as (s' & E & Ha & Hm & Hf' & _).
  exists s'. split; [exact E|]. rewrite Ha, Hm.
  split; [now apply spliceOut_NoDup|].
  split; [|split; [exact Hf' | now apply onKeyUp_no_focus]].
  intros (device & l & Hl & Hin).
  rewrite lookup_fmap in Hl.
  destruct (deviceBoxMap s !! device) as [l0|] eqn:E0; [|discriminate].
  injection Hl as <-. revert Hin. apply spliceOut_NoDup. eauto.
Qed.

(** When a list of the adjacency map holds the box twice, the second
    reference stays after the delete. *)
Lemma onKeyUp_keeps_second_reference ev s r this L device l1 l2 l3 :
  keyCode ev = 46%nat ->
  boxInFocus s = Some r ->
  boxes s !! r = Some this ->
  lookup_layer (layerName this) (layer_points s) = Some L ->
  deviceBoxMap s !! device = Some (l1 ++ r :: l2 ++ r :: l3) ->
  exists s',
    onKeyUp ev s = Ok tt s' /\
    boxInFocus s' = None /\
    referenced r (deviceBoxMap s').
Proof.
  intros Hk Hf Hr HL Hd.
  destruct (onKeyUp_delete ev s r this L Hk Hf Hr HL)
    as (s' & E & Ha & Hm & Hf' & _).
  exists s'. split; [exact E|]. split; [exact Hf'|].
  destruct (decide (r ∈ l1)) as [Hin|Hout].
  - apply list_elem_of_split_l in Hin as (la & lb & Hsplit & Hla).
    exists device, (la ++ lb ++ r :: l2 ++ r :: l3).
    split.
    + rewrite Hm, lookup_fmap, Hd. cbn. f_equal. rewrite Hsplit.
      rewrite <- app_assoc. cbn. now apply spliceOut_first.
    + rewrite !elem_of_app. right. right. apply list_elem_of_here.
  - exists device, (l1 ++ l2 ++ r :: l3). split.
    + rewrite Hm, lookup_fmap, Hd. cbn. f_equal. now apply spliceOut_first.
    + rewrite !elem_of_app. right. right. apply list_elem_of_here.
Qed.

End Deleting.

Section SelectLayers.
Context {page : Collaborators}.

Lemma adoptLayer_bounds layer_name ids this :
  ll (adoptLayer layer_name ids this) = ll this /\
  ur (adoptLayer layer_name ids this) = ur this /\
  selectedShape (adoptLayer layer_name ids this) = selectedShape this /\
  selectedPointIDs (adoptLayer layer_name ids this) = selectedPointIDs this.
Proof.
  unfold adoptLayer. destruct ids; [auto|].
  destruct (String.eqb _ _); auto.
Qed.

Lemma scanLayers_same_bounds this this' layers :
  ll this' = ll this -> ur this' = ur this ->
  selectedShape this' = selectedShape this ->
  scanLayers this' layers = scanLayers this layers.
Proof.
  intros Hl Hu Hs. induction layers as [|[nm L] layers IH]; [reflexivity|].
  cbn [scanLayers]. now rewrite IH, (scan_same_bounds this this').
Qed.

(** [selectPoints] appends the points within the bounds of every layer,
    one layer after the other. *)
Lemma selectPoints_layers_ids layers : forall this n,
  selectedPointIDs (selectPoints_layers layers this n).1.2
  = selectedPointIDs this ++ scanLayers this layers /\
  ll (selectPoints_layers layers this n).1.2 = ll this /\
  ur (selectPoints_layers layers this n).1.2 = ur this /\
  selectedShape (selectPoints_layers layers this n).1.2 = selectedShape this /\
  (selectPoints_layers layers this n).2
  = (n + Z.of_nat (length (scanLayers this layers)))%Z.
Proof.
  induction layers as [|[nm L] layers IH]; intros this n.
  - cbn. rewrite app_nil_r, Z.add_0_r. auto.
  - cbn [selectPoints_layers scanLayers].
    rewrite selectPoints_positions_scan.
    set (ids := scan this (positions L) 0).
    set (this1 := with_selectedPointIDs _ _).
    destruct (adoptLayer_bounds nm ids this) as (Hl & Hu & Hs & Hi).
    specialize (IH this1 (n + Z.of_nat (length ids))%Z).
    destruct (selectPoints_layers layers this1 _) as [[rest' this2] n2].
    cbn [fst snd] in *.
    destruct IH as (Ei & El & Eu & Es & En).
    rewrite (scanLayers_same_bounds this this1) in Ei, En
      by (subst this1; cbn; assumption).
    rewrite Ei, El, Eu, Es, En.
    subst this1. st_simpl. rewrite ?Hi, ?Hl, ?Hu, ?Hs, length_app, <- app_assoc.
    repeat split; try reflexivity. lia.
Qed.

Lemma scanLayers_pointsWithin this layers :
  scanLayers this layers
  = concat (List.map (fun nL => pointsWithin this nL.2) layers).
Proof.
  induction layers as [|[nm L] layers IH]; [reflexivity|].
  cbn [scanLayers List.map concat snd]. now rewrite IH, scan_pointsWithin.
Qed.

(** After construction, [selectedPointIDs] holds the points within the
    bounds of all the layers of [layer_points], not only those of the layer
    [layerName]. *)
Lemma newSelectionBox_all_layers ll0 ur0 shape s :
  exists s' this,
    newSelectionBox ll0 ur0 shape s = Ok (length (boxes s)) s' /\
    boxes s' !! length (boxes s) = Some this /\
    ll this = ll0 /\ ur this = ur0 /\ selectedShape this = shape /\
    selectedPointIDs this
    = concat (List.map (fun nL => pointsWithin this nL.2) (layer_points s)) /\
    nSelected s' = (nSelected s + Z.of_nat (length (selectedPointIDs this)))%Z.
Proof.
  eexists _, _. split; [apply newSelectionBox_run|]. st_simpl.
  split. { rewrite lookup_app_r by lia. now rewrite Nat.sub_diag. }
  destruct (selectPoints_layers_ids (layer_points s)
              (freshBox ll0 ur0 shape) (nSelected s))
    as (Ei & El & Eu & Es & En).
  rewrite El, Eu, Es, Ei, En.
  cbn [freshBox ll ur selectedShape selectedPointIDs app].
  repeat split; try reflexivity.
  rewrite <- scanLayers_pointsWithin.
  symmetry. apply scanLayers_same_bounds; assumption.
Qed.

End SelectLayers.

(** * The properties on a page *)

Module OnPage.
Import Scenario.

(** C1.  The pointer-up of a marquee that touched no point of any layer
    leaves the region, with its empty [layerName], as an entry of
    [selectionBoxArray] and as the box in focus; a delete key then throws
    in [removeBox] and the region stays. *)
Theorem empty_marquee_is_retained :
  let s := runEvents drawEmptyMarquee (start oneLayer) in
  selectionBoxArray s = [0%nat] /\
  boxInFocus s = Some 0%nat /\
  layerName <$> boxes s !! 0%nat = Some EmptyString /\
  returned (dispatch pressDelete s) = false /\
  selectionBoxArray (final (dispatch pressDelete s)) = [0%nat].
Proof. vm_compute. repeat split. Qed.

(** C2.  A marquee over the points of two layers: after construction the
    region belongs to [layer_a], whose points within the bounds are those
    at the offsets 0 and 3, and [selectedPointIDs] also holds the offset 6
    of a point of [layer_b]; the point of [layer_a] at that offset is
    outside the bounds. *)
Theorem new_box_selects_points_of_other_layers :
  match boxes (runEvents drawMarquee (start twoLayers)) !! 0%nat with
  | Some this =>
      layerName this = "layer_a" /\
      selectedPointIDs this = [0; 3; 6]%nat /\
      pointsWithin this layer_a = [0; 3]%nat /\
      pointsWithin this layer_b = [6]%nat
  | None => False
  end.
Proof. vm_compute. repeat split. Qed.

(** C3.  A click into a region that has a line already, attached to the
    marker, makes a second line and enters the connecting state. *)
Theorem click_on_connected_region_makes_line :
  let s' := final (dispatch (MouseDown (mouse 200 400)) connected) in
  length ∘ curves <$> boxes connected !! 0%nat = Some 1%nat /\
  returned (dispatch (MouseDown (mouse 200 400)) connected) = true /\
  boxInFocus s' = Some 0%nat /\
  make_connection s' = true /\
  length ∘ curves <$> boxes s' !! 0%nat = Some 2%nat.
Proof. vm_compute. repeat split. Qed.

(** C5.  A region that was connected twice to the same marker is twice
    in the adjacency list of the marker; the delete key takes it out of
    [selectionBoxArray] and clears the focus, and leaves one reference to
    it in the adjacency list. *)
Theorem delete_leaves_reference :
  let s' := final (dispatch pressDelete connectedTwice) in
  boxInFocus connectedTwice = Some 0%nat /\
  selectionBoxArray connectedTwice = [0%nat] /\
  deviceBoxMap connectedTwice !! "poisson_generator_1" = Some [0; 0]%nat /\
  returned (dispatch pressDelete connectedTwice) = true /\
  selectionBoxArray s' = [] /\
  boxInFocus s' = None /\
  deviceBoxMap s' !! "poisson_generator_1" = Some [0%nat].
Proof. vm_compute. repeat split. Qed.

Lemma withinBounds_rectangle_witness :
  selectedShape rectangle = "Rectangle" /\
  (x (ll rectangle) <= x (ur rectangle))%Q /\
  (y (ll rectangle) <= y (ur rectangle))%Q /\
  withinBounds rectangle (mkPos 100 150) = Some true /\
  withinBounds rectangle (mkPos 300 250) = Some true /\
  withinBounds rectangle (mkPos 100 250) = Some true /\
  withinBounds rectangle (mkPos 300 150) = Some true /\
  withinBounds rectangle (mkPos ((100 + 300) / 2) ((150 + 250) / 2))
  = Some true /\
  withinBounds rectangle (mkPos 301 200) = Some false.
Proof.
  assert (Hs : selectedShape rectangle = "Rectangle")
    by (vm_compute; reflexivity).
  assert (Hx : (x (ll rectangle) <= x (ur rectangle))%Q) by discriminate.
  assert (Hy : (y (ll rectangle) <= y (ur rectangle))%Q) by discriminate.
  destruct (withinBounds_rectangle rectangle Hs Hx Hy)
    as (H1 & H2 & H3 & H4 & H5 & _ & H7).
  refine (conj Hs (conj Hx (conj Hy (conj H1 (conj H2 (conj H3
            (conj H4 (conj H5 (H7 (mkPos 301 200) _))))))))).
  right. left. reflexivity.
Defined.



Lemma onMouseUp_resize_normalizes_witness :
  make_selection_box resizing = false /\
  resizeSideInFocus resizing = Some "lowerLeft" /\
  boxInFocus resizing = Some 0%nat /\
  boxes resizing !! 0%nat = Some resizingBox /\
  (x (ur resizingBox) < x (ll resizingBox))%Q /\
  exists this',
    boxes (final (onMouseUp (mouse 400 450) resizing)) !! 0%nat
    = Some this' /\
    (x (ll this') <= x (ur this'))%Q /\
    (y (ll this') <= y (ur this'))%Q.
Proof.
  assert (H1 : make_selection_box resizing = false)
    by (vm_compute; reflexivity).
  assert (H2 : resizeSideInFocus resizing = Some "lowerLeft")
    by (vm_compute; reflexivity).
  assert (H3 : boxInFocus resizing = Some 0%nat) by (vm_compute; reflexivity).
  assert (H4 : boxes resizing !! 0%nat = Some resizingBox)
    by (vm_compute; reflexivity).
  destruct (onMouseUp_resize_normalizes (mouse 400 450) resizing "lowerLeft"
              0%nat resizingBox H1 H2 H3 H4)
    as (this' & Hb & Hx & Hy & _).
  refine (conj H1 (conj H2 (conj H3 (conj H4 (conj _ _))))).
  - reflexivity.
  - exists this'. exact (conj Hb (conj Hx Hy)).
Defined.


Lemma updateColors_idempotent_witness :
  boxes drawn !! 0%nat = Some drawnBox /\
  lookup_layer (layerName drawnBox) (layer_points drawn)
  = Some paintedLayer /\
  exists s1 s2 this1 this2,
    updateColors 0 drawn = Ok tt s1 /\
    updateColors 0 s1 = Ok tt s2 /\
    boxes s1 !! 0%nat = Some this1 /\
    boxes s2 !! 0%nat = Some this2 /\
    selectedPointIDs this2 = selectedPointIDs this1 /\
    nSelected s2 = nSelected s1.
Proof.
  assert (H1 : boxes drawn !! 0%nat = Some drawnBox)
    by (vm_compute; reflexivity).
  assert (H2 : lookup_layer (layerName drawnBox) (layer_points drawn)
               = Some paintedLayer) by (vm_compute; reflexivity).
  destruct (updateColors_idempotent 0%nat drawn drawnBox paintedLayer H1 H2)
    as (s1 & s2 & this1 & this2 & E1 & E2 & B1 & B2 & Hi & Hn & _).
  refine (conj H1 (conj H2 _)).
  exists s1, s2, this1, this2.
  exact (conj E1 (conj E2 (conj B1 (conj B2 (conj Hi Hn))))).
Defined.

End OnPage.

(** * Further properties of the code *)

(** ** Hit tests on boxes that are inverted or flat *)

Section Degenerate.
Import Num NumFacts Binary Double RoundFacts.
Local Open Scope Q_scope.

Lemma Qeqb_true a b : Qeqb a b = true <-> a == b.
Proof. apply Qeq_bool_iff. Qed.

Lemma Qeqb_false a b : Qeqb a b = false <-> ~ a == b.
Proof.
  unfold Qeqb. split.
  - intros H E. apply Qeq_bool_iff in E. congruence.
  - intros H. destruct (Qeq_bool a b) eqn:E; [|reflexivity].
    apply Qeq_bool_iff in E. contradiction.
Qed.

(** A square divided by zero is [NaN] or [Infinity]. *)
Lemma div_by_zero a b :
  0 <= a -> b == 0 -> Num.div a b = NaN \/ Num.div a b = PInf.
Proof.
  intros Ha Hb. unfold Num.div. apply Qeqb_true in Hb. rewrite Hb.
  destruct (Qeqb a 0) eqn:E0; [now left|]. right.
  destruct (Qltb 0 a) eqn:E1; [reflexivity|].
  exfalso. apply Qeqb_false in E0. apply Qltb_ge in E1.
  apply E0. now apply Qle_antisym.
Qed.

Lemma quotient_degenerate n d :
  nonneg n -> degenerate d -> div n d = NaN \/ div n d = PInf.
Proof.
  intros Hn [-> | Hd].
  { left. now destruct n. }
  destruct d as [z| | |]; try discriminate. cbn [isZero] in Hd.
  apply Qeqb_true in Hd.
  destruct n as [q| | |]; cbn [div nonneg] in *.
  - destruct (div_by_zero q z Hn Hd) as [-> | ->]; [now left | now right].
  - right. destruct (Qltb z 0) eqn:E; [|reflexivity].
    apply Qltb_lt in E. rewrite Hd in E. discriminate.
  - contradiction.
  - now left.
Qed.

Lemma sum_fails_l a b : a = NaN \/ a = PInf -> leb (add a b) 1 = false.
Proof. intros [-> | ->]; now destruct b. Qed.

Lemma sum_fails_r a b : b = NaN \/ b = PInf -> leb (add a b) 1 = false.
Proof. intros [-> | ->]; now destruct a. Qed.

Lemma axisTerm_degenerate lo hi p :
  degenerate (squaredHalfExtent lo hi) ->
  axisTerm lo hi p = NaN \/ axisTerm lo hi p = PInf.
Proof.
  intros H. unfold axisTerm.
  apply quotient_degenerate; [apply square_not_negative | exact H].
Qed.

(** Equal corners give a half-extent whose square is zero, or [NaN] when
    the corners are beyond the range of the doubles. *)
Lemma squaredHalfExtent_flat lo hi :
  hi == lo -> degenerate (squaredHalfExtent lo hi).
Proof.
  intros E. unfold squaredHalfExtent, round64.
  rewrite (round_compat _ _ hi lo E).
  destruct (round 53 1024 lo) as [p| | |]; try (now left).
  right. unfold sub. cbn [neg Num.add rnd]. unfold round64.
  rewrite (round_zero 53 1024 (p + - p)) by ring.
  cbn [div]. rewrite div_nonzero by discriminate. cbn [rnd].
  unfold round64. rewrite (round_zero 53 1024 (0 / 2)) by reflexivity.
  cbn [square]. unfold round64.
  rewrite (round_zero 53 1024 (0 * 0)) by reflexivity.
  reflexivity.
Qed.

Variable this : SelectionBox.

Lemma withinEllipticalBounds_degenerate pos :
  degenerate (squaredHalfExtent (x (ll this)) (x (ur this))) \/
  degenerate (squaredHalfExtent (y (ll this)) (y (ur this))) ->
  withinEllipticalBounds this pos = false.
Proof.
  intros H. rewrite withinEllipticalBounds_terms.
  destruct H as [H|H].
  - apply sum_fails_l. now apply axisTerm_degenerate.
  - apply sum_fails_r. now apply axisTerm_degenerate.
Qed.

Lemma withinBounds_Ellipse pos :
  selectedShape this = "Ellipse" ->
  withinBounds this pos = Some (withinEllipticalBounds this pos).
Proof. intros H. unfold withinBounds. now rewrite H. Qed.

Lemma withinBounds_Rectangle pos :
  selectedShape this = "Rectangle" ->
  withinBounds this pos = Some (withinRectangleBounds this pos).
Proof. intros H. unfold withinBounds. now rewrite H. Qed.

(** X1.  An ellipse with a half-extent whose square is zero in binary64
    contains no point.  The corners of such an ellipse need not agree: the
    square of a half-extent below about [1.5e-162] underflows to zero, and
    the quotient by it is [NaN] or [Infinity]. *)
Theorem ellipse_zero_square_empty pos :
  selectedShape this = "Ellipse" ->
  isZero (squaredHalfExtent (x (ll this)) (x (ur this))) = true \/
  isZero (squaredHalfExtent (y (ll this)) (y (ur this))) = true ->
  withinBounds this pos = Some false.
Proof.
  intros Hs H. rewrite (withinBounds_Ellipse pos Hs). f_equal.
  apply withinEllipticalBounds_degenerate.
  destruct H as [H|H]; [left | right]; now right.
Qed.

(** X2.  A flat ellipse, one whose corners agree in a coordinate, contains
    no point, not even its center: the quotient by the zero half-extent is
    [NaN] or [Infinity], and neither is [<= 1]. *)
Theorem withinBounds_flat_ellipse_empty pos :
  selectedShape this = "Ellipse" ->
  x (ur this) == x (ll this) \/ y (ur this) == y (ll this) ->
  withinBounds this pos = Some false.
Proof.
  intros Hs Hflat. rewrite (withinBounds_Ellipse pos Hs). f_equal.
  apply withinEllipticalBounds_degenerate.
  destruct Hflat as [H|H]; [left | right];
    now apply squaredHalfExtent_flat.
Qed.

(** X3.  An inverted rectangle, one whose [ur] is left of or below its
    [ll] as a resize drag can leave it before the pointer-up, contains no
    point. *)
Theorem withinBounds_inverted_rectangle_empty pos :
  selectedShape this = "Rectangle" ->
  x (ur this) < x (ll this) \/ y (ur this) < y (ll this) ->
  withinBounds this pos = Some false.
Proof.
  intros Hs Hinv. rewrite (withinBounds_Rectangle pos Hs). f_equal.
  destruct (withinRectangleBounds this pos) eqn:E; [|reflexivity].
  apply withinRectangleBounds_spec in E as (H1 & H2 & H3 & H4).
  exfalso. destruct Hinv as [H|H].
  - apply (Qlt_not_le _ _ H). now apply Qle_trans with (x pos).
  - apply (Qlt_not_le _ _ H). now apply Qle_trans with (y pos).
Qed.

End Degenerate.

Section FlippedEllipse.
Import Num NumFacts Binary Double RoundFacts.
Local Open Scope Q_scope.

(** The test reads the two corners of an axis through their sum and
    through the square of their difference: it does not tell which of them
    is which. *)
Lemma squaredHalfExtent_swap lo hi :
  squaredHalfExtent hi lo = squaredHalfExtent lo hi.
Proof.
  unfold squaredHalfExtent.
  now rewrite (sub_swap (round64 hi) (round64 lo)), half_neg, square_neg.
Qed.

Lemma axisTerm_swap lo hi p : axisTerm hi lo p = axisTerm lo hi p.
Proof.
  unfold axisTerm.
  now rewrite squaredHalfExtent_swap, (add_swap (round64 hi) (round64 lo)).
Qed.

Variable this : SelectionBox.

(** X4.  The exchange of coordinates at the end of a resize does not
    change which points an ellipse contains: the test reads the corners
    only through the center and the squares of the half-extents. *)
Theorem ellipse_flipCorners_same pos :
  selectedShape this = "Ellipse" ->
  withinBounds (flipCorners this) pos = withinBounds this pos.
Proof.
  intros Hs.
  assert (Hs' : selectedShape (flipCorners this) = "Ellipse").
  { unfold flipCorners.
    destruct (Qltb _ _); destruct (Qltb _ _); exact Hs. }
  rewrite (withinBounds_Ellipse this pos Hs).
  rewrite (withinBounds_Ellipse (flipCorners this) pos Hs').
  f_equal. rewrite !withinEllipticalBounds_terms.
  destruct (flipCorners_swaps this) as [Sx Sy].
  destruct Sx as [[-> ->]|[-> ->]]; destruct Sy as [[-> ->]|[-> ->]];
    rewrite ?(axisTerm_swap (x (ll this)) (x (ur this))),
            ?(axisTerm_swap (y (ll this)) (y (ur this)));
    reflexivity.
Qed.

End FlippedEllipse.

(** ** Rules for the handlers *)

Section Rules.
Context {page : Collaborators}.

Lemma wp_bind {A B} (m : M A) (f : A -> M B) Q E s :
  wp m (fun a s' => wp (f a) Q E s') E s -> wp (m ≫= f) Q E s.
Proof.
  unfold wp, mbind, M_bind. now destruct (m s).
Qed.

Lemma wp_mono {A} (m : M A) (Q Q' : A -> State -> Prop)
    (E E' : State -> Prop) s :
  wp m Q E s ->
  (forall a s', Q a s' -> Q' a s') ->
  (forall s', E s' -> E' s') ->
  wp m Q' E' s.
Proof.
  unfold wp. destruct (m s); auto.
Qed.

Lemma wp_get Q E s : Q s s -> wp get Q E s.
Proof. exact id. Qed.

Lemma wp_modify g Q E s : Q tt (g s) -> wp (modify g) Q E s.
Proof. exact id. Qed.

Lemma wp_ret {A} (a : A) Q E s : Q a s -> wp (mret a) Q E s.
Proof. exact id. Qed.

Lemma wp_throw {A} (Q : A -> State -> Prop) E s : E s -> wp throw Q E s.
Proof. exact id. Qed.

Lemma wp_defined {A} (o : option A) Q E s :
  (forall a, o = Some a -> Q a s) -> (o = None -> E s) ->
  wp (defined o) Q E s.
Proof. destruct o; cbn; auto. Qed.

Lemma wp_getBox r Q E s :
  (forall b, boxes s !! r = Some b -> Q b s) ->
  (boxes s !! r = None -> E s) ->
  wp (getBox r) Q E s.
Proof.
  intros HQ HE. unfold getBox. apply wp_bind, wp_get.
  now apply wp_defined.
Qed.

Lemma wp_modifyBox r f Q E s :
  (forall b, boxes s !! r = Some b ->
             Q tt (set_boxes (<[r := f b]> (boxes s)) s)) ->
  (boxes s !! r = None -> E s) ->
  wp (modifyBox r f) Q E s.
Proof.
  intros HQ HE. unfold modifyBox. apply wp_bind, wp_getBox; [|exact HE].
  intros b Hb. apply wp_modify. now apply HQ.
Qed.

Lemma keeps_bind {A B} P (m : M A) (f : A -> M B) :
  keeps P m -> (forall a, keeps P (f a)) -> keeps P (m ≫= f).
Proof.
  intros Hm Hf s Hs. apply wp_bind.
  eapply wp_mono; [apply Hm, Hs | | auto].
  intros a s' Hs'. now apply Hf.
Qed.

Lemma keeps_ret {A} P (a : A) : keeps P (mret a).
Proof. intros s Hs. exact Hs. Qed.

Lemma keeps_get P : keeps P get.
Proof. intros s Hs. exact Hs. Qed.

Lemma keeps_throw {A} P : keeps P (throw : M A).
Proof. intros s Hs. exact Hs. Qed.

Lemma keeps_defined {A} P (o : option A) : keeps P (defined o).
Proof. intros s Hs. now destruct o. Qed.

Lemma keeps_modify P g : (forall s, P s -> P (g s)) -> keeps P (modify g).
Proof. intros H s Hs. now apply H. Qed.

Lemma keeps_getBox P r : keeps P (getBox r).
Proof. intros s Hs. apply wp_getBox; auto. Qed.

Lemma keeps_modifyBox P r f :
  (forall s b, P s -> boxes s !! r = Some b ->
               P (set_boxes (<[r := f b]> (boxes s)) s)) ->
  keeps P (modifyBox r f).
Proof. intros H s Hs. apply wp_modifyBox; auto. Qed.

(** [keptBy] is a preorder when [rel] is, and holds for an update in
    place and for an allocation. *)
Lemma keptBy_refl rel l : (forall b, rel b b) -> keptBy rel l l.
Proof. intros Hr r b Hb. eauto. Qed.

Lemma keptBy_trans rel l1 l2 l3 :
  (forall a b c, rel a b -> rel b c -> rel a c) ->
  keptBy rel l1 l2 -> keptBy rel l2 l3 -> keptBy rel l1 l3.
Proof.
  intros Ht H12 H23 r b Hb.
  destruct (H12 r b Hb) as (b2 & Hb2 & R12).
  destruct (H23 r b2 Hb2) as (b3 & Hb3 & R23). eauto.
Qed.

Lemma keptBy_insert rel l r b b' :
  (forall b, rel b b) ->
  l !! r = Some b -> rel b b' -> keptBy rel l (<[r := b']> l).
Proof.
  intros Hrefl Hb Hrel r0 b0 Hb0. destruct (decide (r = r0)) as [<-|Hne].
  - exists b'. split; [now apply (lookup_modified _ _ _ b)|]. congruence.
  - exists b0. split; [now rewrite list_lookup_insert_ne|]. apply Hrefl.
Qed.

Lemma keptBy_app rel l k : (forall b, rel b b) -> keptBy rel l (l ++ k).
Proof.
  intros Hrefl r b Hb. exists b. split; [|apply Hrefl].
  now apply lookup_app_l_Some.
Qed.

Lemma sameRegion_refl b : sameRegion b b.
Proof. now split. Qed.

Lemma sameRegion_trans a b c :
  sameRegion a b -> sameRegion b c -> sameRegion a c.
Proof. intros [H1 H2] [H3 H4]. split; congruence. Qed.

Lemma sameMembers_refl b : sameMembers b b.
Proof. repeat split. Qed.

Lemma sameMembers_trans a b c :
  sameMembers a b -> sameMembers b c -> sameMembers a c.
Proof.
  intros ([H1 H2] & H3 & H4 & H5) ([G1 G2] & G3 & G4 & G5).
  repeat split; congruence.
Qed.

End Rules.

(** ** References and regions through the handlers *)

Section WellFormed.
Context {page : Collaborators}.

Lemma keptBy_valid rel l l' r :
  keptBy rel l l' -> is_Some (l !! r) -> is_Some (l' !! r).
Proof. intros H [b Hb]. destruct (H r b Hb) as (b' & Hb' & _). eauto. Qed.

Lemma evolved_refl s : wellFormed s -> evolved s s.
Proof.
  intros H. split; [exact H|]. apply keptBy_refl, sameRegion_refl.
Qed.

Lemma evolved_trans s0 s1 s2 :
  evolved s0 s1 -> evolved s1 s2 -> evolved s0 s2.
Proof.
  intros [_ K1] [W2 K2]. split; [exact W2|].
  eapply keptBy_trans; eauto using sameRegion_trans.
Qed.

(** A change of the boxes that keeps the regions, with the references
    as they were. *)
Lemma evolved_transfer s0 s s' :
  evolved s0 s ->
  keptBy sameRegion (boxes s) (boxes s') ->
  selectionBoxArray s' = selectionBoxArray s ->
  boxInFocus s' = boxInFocus s ->
  deviceBoxMap s' = deviceBoxMap s ->
  evolved s0 s'.
Proof.
  intros [(W1 & W2 & W3 & W4) K] Hk Ha Hf Hm.
  split; [|eapply keptBy_trans; eauto using sameRegion_trans].
  unfold wellFormed. rewrite Ha, Hf, Hm.
  repeat split; [exact W1 | | |]; intros;
    eapply keptBy_valid; eauto.
Qed.

Lemma evolved_unfocus s0 s :
  evolved s0 s -> evolved s0 (set_boxInFocus None s).
Proof.
  intros [(W1 & W2 & W3 & W4) K]. split; [|exact K].
  repeat split; st_simpl; auto. discriminate.
Qed.

Lemma evolved_focus s0 s r :
  evolved s0 s -> is_Some (boxes s !! r) ->
  evolved s0 (set_boxInFocus (Some r) s).
Proof.
  intros [(W1 & W2 & W3 & W4) K] Hr. split; [|exact K].
  repeat split; st_simpl; auto. now intros r' [= <-].
Qed.

Lemma evolved_push s0 s r :
  evolved s0 s -> is_Some (boxes s !! r) -> r ∉ selectionBoxArray s ->
  evolved s0 (set_selectionBoxArray (selectionBoxArray s ++ [r]) s).
Proof.
  intros [(W1 & W2 & W3 & W4) K] Hr Hn. split; [|exact K].
  repeat split; st_simpl; auto.
  - apply NoDup_app. repeat split; [exact W1 | | apply NoDup_singleton].
    intros r' Hin Hin'. apply list_elem_of_singleton in Hin'. congruence.
  - intros r' Hin. apply elem_of_app in Hin as [Hin|Hin]; [auto|].
    apply list_elem_of_singleton in Hin. congruence.
Qed.

Lemma evolved_attach s0 s device l r :
  evolved s0 s -> is_Some (boxes s !! r) ->
  deviceBoxMap s !! device = Some l ->
  evolved s0 (set_deviceBoxMap (<[device := l ++ [r]]> (deviceBoxMap s)) s).
Proof.
  intros [(W1 & W2 & W3 & W4) K] Hr Hl. split; [|exact K].
  repeat split; st_simpl; auto.
  intros device' l' r' Hl' Hin.
  destruct (decide (device = device')) as [<-|Hne].
  - rewrite lookup_insert_eq in Hl'. injection Hl' as <-.
    apply elem_of_app in Hin as [Hin|Hin]; [eauto|].
    apply list_elem_of_singleton in Hin. congruence.
  - rewrite lookup_insert_ne in Hl' by assumption. eauto.
Qed.

Lemma spliceOut_sublist r l : sublist (spliceOut r l) l.
Proof.
  unfold spliceOut. destruct (indexOf l r) as [i|]; [|reflexivity].
  apply sublist_delete.
Qed.

Lemma evolved_splice_array s0 s r :
  evolved s0 s ->
  evolved s0 (set_selectionBoxArray (spliceOut r (selectionBoxArray s)) s).
Proof.
  intros [(W1 & W2 & W3 & W4) K]. split; [|exact K].
  repeat split; st_simpl; auto.
  - eapply sublist_NoDup; [exact W1 | apply spliceOut_sublist].
  - intros r' Hin. apply W2.
    eapply elem_of_sublist; [exact Hin | apply spliceOut_sublist].
Qed.

Lemma evolved_splice_map s0 s r :
  evolved s0 s ->
  evolved s0 (set_deviceBoxMap (spliceOut r <$> deviceBoxMap s) s).
Proof.
  intros [(W1 & W2 & W3 & W4) K]. split; [|exact K].
  repeat split; st_simpl; auto.
  intros device l r' Hl Hin. rewrite lookup_fmap in Hl.
  destruct (deviceBoxMap s !! device) as [l0|] eqn:E; [|discriminate].
  injection Hl as <-. apply (W4 device l0 r' E).
  eapply elem_of_sublist; [exact Hin | apply spliceOut_sublist].
Qed.

Lemma wp_final {A} (m : M A) (P : State -> Prop) s :
  wp m (fun _ => P) P s -> P (final (m s)).
Proof. unfold wp. now destruct (m s). Qed.

Lemma keeps_get_then {B} P (f : State -> M B) :
  (forall s, P s -> wp (f s) (fun _ => P) P s) -> keeps P (get ≫= f).
Proof. intros H s Hs. apply wp_bind, wp_get. now apply H. Qed.

Lemma keeps_getBox_then {B} P r (f : SelectionBox -> M B) :
  (forall s this, P s -> boxes s !! r = Some this ->
                  wp (f this) (fun _ => P) P s) ->
  keeps P (getBox r ≫= f).
Proof.
  intros H s Hs. apply wp_bind, wp_getBox; [|now intros _].
  intros this Hr. now apply H.
Qed.

Lemma keeps_if {A} P (c : bool) (m1 m2 : M A) :
  keeps P m1 -> keeps P m2 -> keeps P (if c then m1 else m2).
Proof. now destruct c. Qed.

Section Methods.
Variable s0 : State.

Lemma keeps_flags g :
  (forall s, boxes (g s) = boxes s) ->
  (forall s, selectionBoxArray (g s) = selectionBoxArray s) ->
  (forall s, boxInFocus (g s) = boxInFocus s) ->
  (forall s, deviceBoxMap (g s) = deviceBoxMap s) ->
  keeps (evolved s0) (modify g).
Proof.
  intros Hb Ha Hf Hm. apply keeps_modify. intros s Hs.
  eapply evolved_transfer; eauto.
  rewrite Hb. apply keptBy_refl, sameRegion_refl.
Qed.

Lemma keeps_region r f :
  (forall b, sameRegion b (f b)) -> keeps (evolved s0) (modifyBox r f).
Proof.
  intros Hf. apply keeps_modifyBox. intros s b Hs Hb.
  eapply evolved_transfer; [exact Hs | | reflexivity..].
  st_simpl. eapply keptBy_insert; eauto using sameRegion_refl.
Qed.

Lemma keeps_removePoints r : keeps (evolved s0) (removePoints r).
Proof. apply keeps_region. now intros b. Qed.

Lemma keeps_makeSelectionPoints r :
  keeps (evolved s0) (makeSelectionPoints r).
Proof. apply keeps_region. now intros b. Qed.

Lemma keeps_makeLine r : keeps (evolved s0) (makeLine r).
Proof. apply keeps_region. now intros b. Qed.

Lemma keeps_makeBox r : keeps (evolved s0) (makeBox r).
Proof. apply keeps_region. now intros b. Qed.

Lemma keeps_updateLineStart r p : keeps (evolved s0) (updateLineStart r p).
Proof. apply keeps_region. now intros b. Qed.

Lemma keeps_updateLineEnd r p tgt :
  keeps (evolved s0) (updateLineEnd r p tgt).
Proof. apply keeps_region. now intros b. Qed.

Lemma keeps_removeLine r : keeps (evolved s0) (removeLine r).
Proof. apply keeps_region. now intros b. Qed.

Lemma keeps_removeLines r tgt : keeps (evolved s0) (removeLines r tgt).
Proof. apply keeps_region. intros b. now destruct (String.eqb _ _). Qed.

Lemma keeps_updateBox r : keeps (evolved s0) (updateBox r).
Proof.
  apply keeps_bind; [apply keeps_getBox|]. intros this.
  apply keeps_bind; [apply keeps_defined|]. intros _.
  apply keeps_region. now intros b.
Qed.

Lemma keeps_setLineTarget r device :
  keeps (evolved s0) (setLineTarget r device).
Proof.
  apply keeps_bind; [apply keeps_getBox|]. intros this.
  apply keeps_bind; [apply keeps_defined|]. intros c.
  apply keeps_region. now intros b.
Qed.

Lemma keeps_resetButtons : keeps (evolved s0) resetButtons.
Proof. now apply keeps_flags. Qed.

Lemma keeps_updateColors r : keeps (evolved s0) (updateColors r).
Proof.
  apply keeps_getBox_then. intros s this Hs Hr.
  apply wp_bind, wp_get. apply wp_bind, wp_defined; [|now intros _].
  intros L HL.
  destruct (restoreColors _ _ _) as [colors1 n1].
  destruct (updateColors_positions _ _ _ _ _ _)
    as [[newPoints colors2] n2].
  apply wp_modify.
  eapply evolved_transfer; [exact Hs | | reflexivity..].
  st_simpl. eapply keptBy_insert; eauto using sameRegion_refl.
  now split.
Qed.

Lemma keeps_removeBox r : keeps (evolved s0) (removeBox r).
Proof.
  apply keeps_getBox_then. intros s this Hs Hr.
  apply wp_bind, wp_get. apply wp_bind, wp_defined; [|now intros _].
  intros L HL.
  destruct (restoreColors _ _ _) as [colors1 n1].
  apply wp_modify.
  eapply evolved_transfer; [exact Hs | | reflexivity..].
  st_simpl. apply keptBy_refl, sameRegion_refl.
Qed.

Lemma keeps_getSelectionInfo r : keeps (evolved s0) (getSelectionInfo r).
Proof.
  apply keeps_bind; [apply keeps_getBox|]. intros this.
  apply keeps_bind; [apply keeps_get|]. intros s.
  apply keeps_bind; [apply keeps_defined|]. intros L.
  apply keeps_ret.
Qed.

Lemma keeps_focusFirst pos refs : keeps (evolved s0) (focusFirst pos refs).
Proof.
  induction refs as [|r rest IH]; [apply keeps_ret|].
  cbn [focusFirst]. apply keeps_getBox_then. intros s this Hs Hr.
  destruct (truthy _); [|now apply IH].
  apply wp_bind, wp_modify.
  assert (Hs' : evolved s0 (set_boxInFocus (Some r) s))
    by (apply evolved_focus; eauto).
  revert Hs'. generalize (set_boxInFocus (Some r) s). clear s Hs Hr.
  intros s Hs. cbn [curveObject].
  refine (keeps_bind _ _ _ _ _ s Hs).
  - apply keeps_bind; [now apply keeps_flags|]. intros _.
    apply keeps_makeLine.
  - intros _. apply keeps_bind; [apply keeps_makeSelectionPoints|].
    intros _. apply keeps_ret.
Qed.

Lemma keeps_updateLineEnds refs p device :
  keeps (evolved s0) (updateLineEnds refs p device).
Proof.
  induction refs as [|r rest IH]; [apply keeps_ret|].
  cbn [updateLineEnds].
  apply keeps_bind; [apply keeps_updateLineEnd|]. intros _. exact IH.
Qed.

End Methods.

Lemma keeps_use {A} P (m : M A) s :
  keeps P m -> P s -> wp m (fun _ => P) P s.
Proof. intros H. apply H. Qed.

(** The handlers keep the state well formed and keep every region. *)
Lemma keeps_onMouseDown s0 event : keeps (evolved s0) (onMouseDown event).
Proof.
  unfold onMouseDown. destruct (onCanvas event); [|apply keeps_ret].
  apply keeps_bind; [now apply keeps_flags|]. intros _.
  apply keeps_get_then. intros s Hs.
  assert (Hrest : forall onHandle : bool,
    keeps (evolved s0)
      (if onHandle then mret tt
       else if shiftKey event then
         modify (set_shiftDown true);;
         s ← get;
         match firstIntersect (intersectDragObjects event (drag_objects s))
                              (drag_objects s) with
         | Some (k, _) => modify (set_object_selected (Some k))
         | None => mret tt
         end
       else
         s ← get;
         let mouseDownCorrected :=
           mkPos (x (mouseDownCoords s))
                 (height - y (mouseDownCoords s))%Q in
         found ← focusFirst mouseDownCorrected (selectionBoxArray s);
         if (found : bool) then mret tt
         else modify (set_make_selection_box true))).
  { intros [|]; [apply keeps_ret|]. apply keeps_if.
    - apply keeps_bind; [now apply keeps_flags|]. intros _.
      apply keeps_bind; [apply keeps_get|]. intros s1.
      destruct (firstIntersect _ _) as [[k d]|];
        [now apply keeps_flags | apply keeps_ret].
    - apply keeps_bind; [apply keeps_get|]. intros s1. cbv zeta.
      apply keeps_bind; [apply keeps_focusFirst|]. intros [|];
        [apply keeps_ret | now apply keeps_flags]. }
  refine (keeps_bind _ _ _ _ Hrest s Hs).
  destruct (boxInFocus s) as [r|]; [|apply keeps_ret].
  apply keeps_bind; [apply keeps_getBox|]. intros this.
  destruct (firstIntersect _ _) as [[k p]|].
  - apply keeps_bind; [now apply keeps_flags | intros _; apply keeps_ret].
  - apply keeps_bind; [apply keeps_removePoints|]. intros _.
    apply keeps_bind; [|intros _; apply keeps_ret].
    apply keeps_modify. intros s1. apply evolved_unfocus.
Qed.

Lemma resizeSide_members side event this this' :
  resizeSide side event this = Some this' -> sameMembers this this'.
Proof.
  unfold resizeSide. intros H.
  repeat match type of H with
         | (if ?c then _ else _) = _ => destruct c
         end;
    try discriminate; injection H as <-; repeat split.
Qed.

Lemma keeps_onMouseMove s0 event : keeps (evolved s0) (onMouseMove event).
Proof.
  unfold onMouseMove. apply keeps_get_then. intros s Hs.
  destruct (make_selection_box s).
  { apply wp_modify.
    eapply evolved_transfer; [exact Hs | | reflexivity..].
    apply keptBy_refl, sameRegion_refl. }
  destruct (resizeSideInFocus s) as [side|].
  - refine (keeps_bind _ _ _ (keeps_defined _ _) _ s Hs). intros r.
    apply keeps_getBox_then. clear s Hs. intros s this Hs Hr.
    destruct (resizeSide side event this) as [this'|] eqn:E;
      [|apply wp_ret; exact Hs].
    apply wp_bind, wp_modifyBox; [|now intros _].
    intros b Hb. apply keeps_use; [apply keeps_updateBox|].
    eapply evolved_transfer; [exact Hs | | reflexivity..].
    st_simpl. eapply keptBy_insert; eauto using sameRegion_refl.
    rewrite Hr in Hb. injection Hb as <-.
    now destruct (resizeSide_members _ _ _ _ E).
  - cbv zeta. destruct (make_connection s).
    { refine (keeps_bind _ _ _ (keeps_defined _ _) _ s Hs). intros r.
      apply keeps_updateLineEnd. }
    destruct (shiftDown s); [|apply wp_ret; exact Hs].
    destruct (object_selected s) as [k|]; [|apply wp_ret; exact Hs].
    destruct (intersectPlane _); [|apply wp_ret; exact Hs].
    refine (keeps_bind _ _ _ (keeps_defined _ _) _ s Hs). intros d.
    apply keeps_bind; [now apply keeps_flags|]. intros _.
    apply keeps_updateLineEnds.
Qed.

Lemma keeps_onKeyUp s0 event : keeps (evolved s0) (onKeyUp event).
Proof.
  unfold onKeyUp. apply keeps_get_then. intros s Hs.
  destruct (boxInFocus s) as [r|]; [|apply wp_ret; exact Hs].
  destruct (Nat.eqb _ _); [|apply wp_ret; exact Hs].
  apply keeps_use; [|exact Hs].
  apply keeps_bind; [apply keeps_removePoints|]. intros _.
  apply keeps_bind; [apply keeps_removeBox|]. intros _.
  apply keeps_bind; [apply keeps_removeLines|]. intros _.
  apply keeps_bind.
  { apply keeps_modify. intros s1. apply evolved_splice_array. }
  intros _. apply keeps_bind.
  { apply keeps_modify. intros s1. apply evolved_splice_map. }
  intros _. apply keeps_modify. intros s1. apply evolved_unfocus.
Qed.

Lemma flipCorners_region this : sameRegion this (flipCorners this).
Proof.
  unfold flipCorners. destruct (Num.Qltb _ _); destruct (Num.Qltb _ _);
    now split.
Qed.

Lemma onMouseUp_evolved event s :
  wellFormed s -> wp (onMouseUp event) (fun _ => evolved s) (evolved s) s.
Proof.
  intros W. pose proof (evolved_refl s W) as Hs.
  unfold onMouseUp. apply wp_bind, wp_get.
  destruct (make_selection_box s).
  - cbv zeta. apply wp_bind. unfold wp at 1. rewrite newSelectionBox_run.
    match goal with
    | |- wp _ _ _ (set_boxes (boxes s ++ [?b]) ?st) =>
        set (this1 := b); set (s1 := set_boxes (boxes s ++ [this1]) st)
    end.
    assert (H1 : evolved s s1).
    { eapply evolved_transfer; [exact Hs | | reflexivity..].
      subst s1. st_simpl. apply keptBy_app, sameRegion_refl. }
    assert (Hr : boxes s1 !! length (boxes s) = Some this1).
    { subst s1. st_simpl. rewrite lookup_app_r by lia.
      now rewrite Nat.sub_diag. }
    assert (Hn : length (boxes s) ∉ selectionBoxArray s1).
    { subst s1. st_simpl. intros Hin.
      destruct W as (_ & W2 & _). apply W2 in Hin.
      apply lookup_lt_is_Some in Hin. lia. }
    clearbody s1 this1.
    apply wp_bind, wp_modify.
    assert (H2 : evolved s (set_boxInFocus (Some (length (boxes s))) s1))
      by (apply evolved_focus; eauto).
    apply wp_bind, wp_getBox; [|now intros _]. intros this _.
    apply wp_bind, wp_modify. apply wp_bind, wp_modify.
    match goal with
    | |- wp _ _ _ ?st => assert (H3 : evolved s st)
    end.
    { apply (evolved_push s
               (set_layerSelected (layerName this)
                  (set_boxInFocus (Some (length (boxes s))) s1))).
      - eapply evolved_transfer; [exact H2 | | reflexivity..].
        apply keptBy_refl, sameRegion_refl.
      - st_simpl. eauto.
      - exact Hn. }
    apply keeps_use; [|exact H3].
    apply keeps_if; [apply keeps_resetButtons|].
    apply keeps_bind; [apply keeps_makeBox|]. intros _.
    apply keeps_bind; [apply keeps_makeSelectionPoints|]. intros _.
    apply keeps_bind; [apply keeps_region; now intros b|]. intros _.
    apply keeps_bind; [apply keeps_getSelectionInfo|]. intros info.
    apply keeps_bind; [now apply keeps_flags|]. intros _.
    apply keeps_resetButtons.
  - destruct (resizeSideInFocus s) as [side|].
    + apply keeps_use; [|exact Hs].
      apply keeps_bind; [now apply keeps_flags|]. intros _.
      apply keeps_bind; [apply keeps_defined|]. intros r.
      apply keeps_bind; [apply keeps_region, flipCorners_region|].
      intros _.
      apply keeps_bind; [apply keeps_removePoints|]. intros _.
      apply keeps_bind; [apply keeps_makeSelectionPoints|]. intros _.
      apply keeps_bind; [apply keeps_updateColors|]. intros _.
      apply keeps_bind; [apply keeps_getBox|]. intros this.
      apply keeps_bind; [apply keeps_updateLineStart|]. intros _.
      apply keeps_resetButtons.
    + destruct (make_connection s).
      * destruct (firstIntersect _ _) as [[k d]|].
        -- destruct (boxInFocus s) as [r|] eqn:Hf; [|exact Hs].
           assert (Hr : is_Some (boxes s !! r)).
           { destruct W as (_ & _ & W3 & _). now apply W3. }
           apply wp_bind, wp_defined; [|discriminate]. intros r' [= <-].
           apply keeps_use; [|exact Hs].
           apply keeps_bind; [apply keeps_setLineTarget|]. intros _.
           apply keeps_bind; [apply keeps_updateLineEnd|]. intros _.
           apply keeps_get_then. intros s' Hs'.
           apply wp_bind, wp_defined; [|now intros _]. intros l Hl.
           apply wp_bind, wp_modify.
           apply keeps_use; [apply keeps_resetButtons|].
           apply evolved_attach; [exact Hs' | | exact Hl].
           destruct Hs' as [_ K]. eapply keptBy_valid; eauto.
        -- apply keeps_use; [|exact Hs].
           apply keeps_bind; [apply keeps_defined|]. intros r.
           apply keeps_bind; [apply keeps_removeLine|]. intros _.
           apply keeps_resetButtons.
      * destruct (shiftDown s).
        -- apply keeps_use; [|exact Hs].
           apply keeps_bind; [now apply keeps_flags|]. intros _.
           apply keeps_resetButtons.
        -- apply keeps_use; [apply keeps_resetButtons | exact Hs].
Qed.

End WellFormed.

(** ** Invariants of the event loop *)

Section Invariants.
Context {page : Collaborators}.

Lemma dispatch_evolved e s :
  wellFormed s -> evolved s (final (dispatch e s)).
Proof.
  intros W. apply wp_final. destruct e as [event|event|event|event]; cbn.
  - apply keeps_onMouseDown. now apply evolved_refl.
  - apply keeps_onMouseMove. now apply evolved_refl.
  - now apply onMouseUp_evolved.
  - apply keeps_onKeyUp. now apply evolved_refl.
Qed.

Lemma runEvents_evolved es : forall s,
  wellFormed s -> evolved s (runEvents es s).
Proof.
  induction es as [|e es IH]; intros s W; [now apply evolved_refl|].
  cbn [runEvents fold_left].
  pose proof (dispatch_evolved e s W) as H1.
  eapply evolved_trans; [exact H1|]. apply IH. now destruct H1.
Qed.

(** X5.  Whatever events arrive, and whether handlers throw or not, no
    region is ever twice in [selectionBoxArray]: a region enters the list
    once, when its marquee is released, and leaves it only by the delete
    key.  The list starts without a region twice, in a state whose
    references name boxes of the store. *)
Theorem runEvents_no_duplicates es s :
  wellFormed s -> NoDup (selectionBoxArray (runEvents es s)).
Proof.
  intros W. destruct (runEvents_evolved es s W) as [[H _] _]. exact H.
Qed.

(** X6.  No event changes the shape or the layer of a region it finds, and
    none takes a box out of the store: the shape tag and [layerName] are
    those of the construction. *)
Theorem runEvents_keeps_regions es s r this :
  wellFormed s ->
  boxes s !! r = Some this ->
  exists this',
    boxes (runEvents es s) !! r = Some this' /\
    selectedShape this' = selectedShape this /\
    layerName this' = layerName this.
Proof.
  intros W Hr. destruct (runEvents_evolved es s W) as [_ K].
  destruct (K r this Hr) as (this' & Hr' & Hs & Hl). eauto.
Qed.

End Invariants.

(** ** What a pointer move leaves alone *)

Section Move.
Context {page : Collaborators}.

Lemma sameSelection_refl s : sameSelection s s.
Proof.
  repeat split. apply keptBy_refl, sameMembers_refl.
Qed.

(** A step that, from [s], changes boxes by [sameMembers] and leaves the
    other fields that [sameSelection] names. *)
Lemma sameSelection_step s0 s s' :
  sameSelection s0 s ->
  sameSelection s s' ->
  sameSelection s0 s'.
Proof.
  unfold sameSelection.
  intros (A1 & A2 & A3 & A4 & A5 & A6 & A7 & A8 & A9 & A10 & A11 & A12
          & A13 & A14)
         (B1 & B2 & B3 & B4 & B5 & B6 & B7 & B8 & B9 & B10 & B11 & B12
          & B13 & B14).
  repeat split; try congruence.
  eapply keptBy_trans; eauto using sameMembers_trans.
Qed.

Lemma sameSelection_box s r b b' :
  boxes s !! r = Some b -> sameMembers b b' ->
  sameSelection s (set_boxes (<[r := b']> (boxes s)) s).
Proof.
  intros Hb Hrel. repeat split; st_simpl.
  - apply length_insert.
  - eapply keptBy_insert; eauto using sameMembers_refl.
Qed.

Lemma keeps_members s0 r f :
  (forall b, sameMembers b (f b)) ->
  keeps (sameSelection s0) (modifyBox r f).
Proof.
  intros Hf. apply keeps_modifyBox. intros s b Hs Hb.
  eapply sameSelection_step; [exact Hs|].
  now apply (sameSelection_box s r b).
Qed.

Lemma lineEnd_targets p tgt cs :
  List.map target (lineEnd p tgt <$> cs) = List.map target cs.
Proof.
  induction cs as [|c cs IH]; [reflexivity|].
  cbn. rewrite lineEnd_target. f_equal. exact IH.
Qed.

Lemma keeps_members_updateLineEnd s0 r p tgt :
  keeps (sameSelection s0) (updateLineEnd r p tgt).
Proof.
  apply keeps_members. intros b. repeat split. cbn.
  apply lineEnd_targets.
Qed.

Lemma keeps_members_updateBox s0 r :
  keeps (sameSelection s0) (updateBox r).
Proof.
  apply keeps_bind; [apply keeps_getBox|]. intros this.
  apply keeps_bind; [apply keeps_defined|]. intros _.
  apply keeps_members. intros b. repeat split.
Qed.

Lemma keeps_members_updateLineEnds s0 refs p device :
  keeps (sameSelection s0) (updateLineEnds refs p device).
Proof.
  induction refs as [|r rest IH]; [apply keeps_ret|].
  cbn [updateLineEnds].
  apply keeps_bind; [apply keeps_members_updateLineEnd|].
  intros _. exact IH.
Qed.

Lemma keeps_members_onMouseMove s0 event :
  keeps (sameSelection s0) (onMouseMove event).
Proof.
  unfold onMouseMove. apply keeps_get_then. intros s Hs.
  destruct (make_selection_box s).
  { apply wp_modify. eapply sameSelection_step; [exact Hs|].
    repeat split. apply keptBy_refl, sameMembers_refl. }
  destruct (resizeSideInFocus s) as [side|].
  - refine (keeps_bind _ _ _ (keeps_defined _ _) _ s Hs). intros r.
    apply keeps_getBox_then. clear s Hs. intros s this Hs Hr.
    destruct (resizeSide side event this) as [this'|] eqn:E;
      [|apply wp_ret; exact Hs].
    apply wp_bind, wp_modifyBox; [|now intros _].
    intros b Hb. apply keeps_use; [apply keeps_members_updateBox|].
    eapply sameSelection_step; [exact Hs|].
    apply (sameSelection_box s r b); [exact Hb|].
    rewrite Hr in Hb. injection Hb as <-.
    now apply (resizeSide_members side event).
  - cbv zeta. destruct (make_connection s).
    { refine (keeps_bind _ _ _ (keeps_defined _ _) _ s Hs). intros r.
      apply keeps_members_updateLineEnd. }
    destruct (shiftDown s); [|apply wp_ret; exact Hs].
    destruct (object_selected s) as [k|]; [|apply wp_ret; exact Hs].
    destruct (intersectPlane _); [|apply wp_ret; exact Hs].
    refine (keeps_bind _ _ _ (keeps_defined _ _) _ s Hs). intros d.
    apply keeps_bind; [|intros _; apply keeps_members_updateLineEnds].
    apply keeps_modify. intros s1 Hs1.
    eapply sameSelection_step; [exact Hs1|].
    repeat split. apply keptBy_refl, sameMembers_refl.
Qed.

(** X7.  A pointer move, in whatever mode and whether it throws or not,
    never adds, removes, focuses or unfocuses a region, never changes the
    mode or the adjacency map, and never selects or deselects a point:
    [selectedPointIDs], [nSelected] and the colour buffers are as before,
    also while a resize drag moves the corners.  The membership is only
    recomputed at the pointer-up. *)
Theorem onMouseMove_keeps_selection event s :
  sameSelection s (final (onMouseMove event s)).
Proof.
  apply wp_final, keeps_members_onMouseMove, sameSelection_refl.
Qed.

End Move.

(** ** The end of a gesture *)

Section PointerUp.
Context {page : Collaborators}.

Lemma resets_resetButtons : resets resetButtons.
Proof. intros s. repeat split. Qed.

Lemma resets_bind {A} (m : M A) (f : A -> M unit) :
  (forall a, resets (f a)) -> resets (m ≫= f).
Proof.
  intros Hf s. apply wp_bind. unfold wp at 1.
  destruct (m s) as [a s'|s']; [apply Hf | exact I].
Qed.

Lemma resets_onMouseUp event : resets (onMouseUp event).
Proof.
  unfold onMouseUp. apply resets_bind. intros s.
  destruct (make_selection_box s).
  { cbv zeta. repeat (apply resets_bind; intros ?).
    destruct (String.eqb _ _); [apply resets_resetButtons|].
    repeat (apply resets_bind; intros ?). apply resets_resetButtons. }
  destruct (resizeSideInFocus s).
  { repeat (apply resets_bind; intros ?). apply resets_resetButtons. }
  destruct (make_connection s).
  { destruct (firstIntersect _ _) as [[k d]|];
      repeat (apply resets_bind; intros ?); apply resets_resetButtons. }
  destruct (shiftDown s);
    repeat (apply resets_bind; intros ?); apply resets_resetButtons.
Qed.

(** What the methods leave of the mode. *)
Section Mode.
Variables (side : option string) (device : option nat).

Lemma keeps_mode_box r f : keeps (modeIs side device) (modifyBox r f).
Proof. apply keeps_modifyBox. now intros s b Hs _. Qed.

Lemma keeps_mode_flags g :
  (forall s, resizeSideInFocus (g s) = resizeSideInFocus s) ->
  (forall s, object_selected (g s) = object_selected s) ->
  keeps (modeIs side device) (modify g).
Proof.
  intros Hr Ho. apply keeps_modify. intros s [H1 H2].
  split; congruence.
Qed.

Lemma keeps_mode_resetButtons : keeps (modeIs side device) resetButtons.
Proof. now apply keeps_mode_flags. Qed.

Lemma keeps_mode_updateColors r :
  keeps (modeIs side device) (updateColors r).
Proof.
  apply keeps_getBox_then. intros s this Hs Hr.
  apply wp_bind, wp_get. apply wp_bind, wp_defined; [|now intros _].
  intros L HL.
  destruct (restoreColors _ _ _) as [colors1 n1].
  destruct (updateColors_positions _ _ _ _ _ _)
    as [[newPoints colors2] n2].
  apply wp_modify. exact Hs.
Qed.

Lemma keeps_mode_getSelectionInfo r :
  keeps (modeIs side device) (getSelectionInfo r).
Proof.
  apply keeps_bind; [apply keeps_getBox|]. intros this.
  apply keeps_bind; [apply keeps_get|]. intros s.
  apply keeps_bind; [apply keeps_defined|]. intros L.
  apply keeps_ret.
Qed.

Lemma keeps_mode_setLineTarget r name :
  keeps (modeIs side device) (setLineTarget r name).
Proof.
  apply keeps_bind; [apply keeps_getBox|]. intros this.
  apply keeps_bind; [apply keeps_defined|]. intros c.
  apply keeps_mode_box.
Qed.

End Mode.

Lemma onMouseUp_mode event s :
  wp (onMouseUp event)
     (fun _ => modeIs (resizeAfter s) (selectedAfter s))
     (fun _ => True) s.
Proof.
  assert (Hweak : forall side device (m : M unit) s1,
             keeps (modeIs side device) m -> modeIs side device s1 ->
             wp m (fun _ => modeIs side device) (fun _ => True) s1).
  { intros side device m s1 Hm Hs1.
    eapply wp_mono; [apply Hm, Hs1 | auto | auto]. }
  unfold onMouseUp. apply wp_bind, wp_get.
  unfold resizeAfter, selectedAfter.
  destruct (make_selection_box s) eqn:Em.
  - cbv zeta. apply wp_bind. unfold wp at 1. rewrite newSelectionBox_run.
    apply wp_bind, wp_modify.
    apply wp_bind, wp_getBox; [|now intros _]. intros this _.
    apply wp_bind, wp_modify. apply wp_bind, wp_modify.
    apply Hweak; [|now split].
    apply keeps_if; [apply keeps_mode_resetButtons|].
    apply keeps_bind; [apply keeps_mode_box|]. intros _.
    apply keeps_bind; [apply keeps_mode_box|]. intros _.
    apply keeps_bind; [apply keeps_mode_box|]. intros _.
    apply keeps_bind; [apply keeps_mode_getSelectionInfo|]. intros info.
    apply keeps_bind; [now apply keeps_mode_flags|]. intros _.
    apply keeps_mode_resetButtons.
  - destruct (resizeSideInFocus s) as [name|] eqn:Er.
    + apply wp_bind, wp_modify.
      apply Hweak; [|now split].
      apply keeps_bind; [apply keeps_defined|]. intros r.
      apply keeps_bind; [apply keeps_mode_box|]. intros _.
      apply keeps_bind; [apply keeps_mode_box|]. intros _.
      apply keeps_bind; [apply keeps_mode_box|]. intros _.
      apply keeps_bind; [apply keeps_mode_updateColors|]. intros _.
      apply keeps_bind; [apply keeps_getBox|]. intros this.
      apply keeps_bind; [apply keeps_mode_box|]. intros _.
      apply keeps_mode_resetButtons.
    + destruct (make_connection s).
      * apply Hweak; [|now split].
        destruct (firstIntersect _ _) as [[k d]|].
        -- apply keeps_bind; [apply keeps_defined|]. intros r.
           apply keeps_bind; [apply keeps_mode_setLineTarget|]. intros _.
           apply keeps_bind; [apply keeps_mode_box|]. intros _.
           apply keeps_bind; [apply keeps_get|]. intros s'.
           apply keeps_bind; [apply keeps_defined|]. intros l.
           apply keeps_bind; [now apply keeps_mode_flags|]. intros _.
           apply keeps_mode_resetButtons.
        -- apply keeps_bind; [apply keeps_defined|]. intros r.
           apply keeps_bind; [apply keeps_mode_box|]. intros _.
           apply keeps_mode_resetButtons.
      * destruct (shiftDown s).
        -- apply wp_bind, wp_modify.
           apply Hweak; [apply keeps_mode_resetButtons|].
           split; [exact Er | reflexivity].
        -- apply Hweak; [apply keeps_mode_resetButtons | now split].
Qed.

(** X8.  Every pointer-up that returns has reset the buttons:
    [mouseDown], [shiftDown], [make_selection_box] and [make_connection]
    are off, the anchor and the extent of the marquee are zero and
    [layerSelected] is empty.  It does not always end the gesture: a
    pointer-up that finds a marquee pending commits the marquee and leaves
    [resizeSideInFocus] as it was, so that a resize that was begun stays
    active; otherwise [resizeSideInFocus] is cleared.  [object_selected] is
    cleared by the release of a shift gesture only. *)
Theorem onMouseUp_returns_reset event s s' :
  onMouseUp event s = Ok tt s' ->
  idle s' /\
  resizeSideInFocus s' = resizeAfter s /\
  object_selected s' = selectedAfter s.
Proof.
  intros E. pose proof (resets_onMouseUp event s) as H.
  pose proof (onMouseUp_mode event s) as H'.
  unfold wp in H, H'. rewrite E in H, H'. exact (conj H H').
Qed.

End PointerUp.

(** ** The delete key, again *)

Section DeleteKey.
Context {page : Collaborators}.

Lemma spliceOut_others r r' l :
  r' <> r -> r' ∈ spliceOut r l <-> r' ∈ l.
Proof.
  intros Hne. destruct (decide (r ∈ l)) as [Hin|Hout].
  - apply list_elem_of_split_l in Hin as (l1 & l2 & -> & Hl1).
    rewrite spliceOut_first by assumption.
    rewrite !elem_of_app, elem_of_cons. tauto.
  - now rewrite spliceOut_absent.
Qed.

Lemma removeBox_throws r s this :
  boxes s !! r = Some this ->
  lookup_layer (layerName this) (layer_points s) = None ->
  removeBox r s = TypeError s.
Proof.
  intros Hr HL. unfold removeBox. run_getBox. run_pure. now rewrite HL.
Qed.

(** X9.  In a well-formed state the delete key, with a box in focus
    whose layer exists, returns and removes the region for good: it is no
    longer in [selectionBoxArray] while every other region is, the focus
    is cleared, the box has neither handles nor lines, its points leave
    the count, every adjacency list keeps its other references and loses
    the region if it held it once, and a second delete changes nothing. *)
Theorem onKeyUp_delete_removes event s r this L :
  wellFormed s ->
  keyCode event = 46%nat ->
  boxInFocus s = Some r ->
  boxes s !! r = Some this ->
  lookup_layer (layerName this) (layer_points s) = Some L ->
  exists s',
    onKeyUp event s = Ok tt s' /\
    (r ∉ selectionBoxArray s') /\
    (forall r', r' <> r ->
                r' ∈ selectionBoxArray s' <-> r' ∈ selectionBoxArray s) /\
    boxInFocus s' = None /\
    (exists this', boxes s' !! r = Some this' /\
                   curves this' = [] /\ resizePoints this' = []) /\
    nSelected s' =
      (nSelected s - Z.of_nat (length (selectedPointIDs this)))%Z /\
    (forall device l,
        deviceBoxMap s !! device = Some l ->
        exists l',
          deviceBoxMap s' !! device = Some l' /\
          (forall r', r' <> r -> r' ∈ l' <-> r' ∈ l) /\
          (NoDup l -> r ∉ l')) /\
    onKeyUp event s' = Ok tt s'.
Proof.
  intros (W1 & _) Hk Hf Hr HL.
  unfold onKeyUp at 1. rewrite bind_get, Hf, Hk.
  cbn [Nat.eqb]. unfold removePoints. run_modifyBox.
  erewrite (bind_Ok (removeBox _)).
  2:{ eapply removeBox_run; st_simpl.
      - eapply lookup_modified; eassumption.
      - exact HL. }
  unfold removeLines. run_modifyBox. run_pure.
  eexists. split; [reflexivity|]. st_simpl.
  split; [now apply spliceOut_NoDup|].
  split; [intros r' Hne; now apply spliceOut_others|].
  split; [reflexivity|].
  split.
  { eexists. split; [eapply lookup_modified; box_lookup|]. cbn. auto. }
  split; [reflexivity|].
  split.
  - intros device l Hl. exists (spliceOut r l).
    rewrite lookup_fmap, Hl. split; [reflexivity|].
    split; [intros r' Hne; now apply spliceOut_others|].
    apply spliceOut_NoDup.
  - now apply onKeyUp_no_focus.
Qed.

(** X10.  The delete key on a box whose [layerName] names no layer, as
    the empty name of a region that touched none, throws in [removeBox]:
    the handles are gone, and the region stays in [selectionBoxArray] and
    in focus with its lines; the count and the adjacency map are
    untouched. *)
Theorem onKeyUp_delete_throws event s r this :
  keyCode event = 46%nat ->
  boxInFocus s = Some r ->
  boxes s !! r = Some this ->
  lookup_layer (layerName this) (layer_points s) = None ->
  exists s',
    onKeyUp event s = TypeError s' /\
    selectionBoxArray s' = selectionBoxArray s /\
    boxInFocus s' = Some r /\
    deviceBoxMap s' = deviceBoxMap s /\
    nSelected s' = nSelected s /\
    boxes s' !! r = Some (with_resizePoints [] this).
Proof.
  intros Hk Hf Hr HL.
  unfold onKeyUp. rewrite bind_get, Hf, Hk.
  cbn [Nat.eqb]. unfold removePoints. run_modifyBox.
  erewrite (bind_TypeError (removeBox _)).
  2:{ eapply removeBox_throws; st_simpl.
      - eapply lookup_modified; eassumption.
      - exact HL. }
  eexists. split; [reflexivity|]. st_simpl.
  do 4 (split; [assumption || reflexivity|]).
  eapply lookup_modified; eassumption.
Qed.

End DeleteKey.

(** ** A new region *)

Section NewRegion.
Context {page : Collaborators}.

Lemma selectPoints_layers_named layers : forall this n,
  layerName this <> EmptyString ->
  layerName (selectPoints_layers layers this n).1.2 = layerName this.
Proof.
  induction layers as [|[nm L] layers IH]; intros this n Hn; [reflexivity|].
  cbn [selectPoints_layers]. rewrite selectPoints_positions_scan.
  set (this1 := with_selectedPointIDs _ _).
  assert (H1 : layerName this1 = layerName this).
  { subst this1. cbn. unfold adoptLayer.
    destruct (scan _ _ _); [reflexivity|].
    destruct (String.eqb_spec (layerName this) EmptyString);
      [contradiction | reflexivity]. }
  specialize (IH this1 (n + Z.of_nat (length (scan this (positions L) 0)))%Z).
  destruct (selectPoints_layers layers this1 _) as [[rest' this2] n2].
  cbn [fst snd] in *. rewrite IH; congruence.
Qed.

Lemma firstHitLayer_same_bounds this this' layers :
  ll this' = ll this -> ur this' = ur this ->
  selectedShape this' = selectedShape this ->
  firstHitLayer this' layers = firstHitLayer this layers.
Proof.
  intros Hl Hu Hs. induction layers as [|[nm L] layers IH]; [reflexivity|].
  cbn [firstHitLayer]. now rewrite IH, (scan_same_bounds this this').
Qed.

Lemma selectPoints_layers_layerName layers : forall this n,
  layerName this = EmptyString ->
  layerName (selectPoints_layers layers this n).1.2
  = firstHitLayer this layers.
Proof.
  induction layers as [|[nm L] layers IH]; intros this n Hn; [exact Hn|].
  cbn [selectPoints_layers firstHitLayer].
  rewrite selectPoints_positions_scan.
  set (ids := scan this (positions L) 0).
  set (this1 := with_selectedPointIDs _ _).
  destruct (adoptLayer_bounds nm ids this) as (Hl & Hu & Hs & _).
  assert (Hb : firstHitLayer this1 layers = firstHitLayer this layers).
  { apply firstHitLayer_same_bounds; subst this1; cbn; assumption. }
  pose proof (IH this1 (n + Z.of_nat (length ids))%Z) as IH1.
  pose proof (selectPoints_layers_named layers this1
                (n + Z.of_nat (length ids))%Z) as IH2.
  destruct (selectPoints_layers layers this1 _) as [[rest' this2] n2].
  cbn [fst snd] in *.
  assert (H1 : layerName this1
               = match ids with
                 | [] => EmptyString
                 | _ :: _ => nm
                 end).
  { subst this1. cbn. unfold adoptLayer. destruct ids; [exact Hn|].
    now rewrite Hn. }
  destruct ids as [|i ids'].
  - rewrite IH1, Hb; [reflexivity | exact H1].
  - destruct (String.eqb_spec nm EmptyString) as [->|Hne].
    + rewrite IH1, Hb; [reflexivity | exact H1].
    + rewrite IH2; [exact H1 | congruence].
Qed.

Lemma selectPoints_layers_lookup layers nm : forall this n,
  lookup_layer nm (selectPoints_layers layers this n).1.1
  = painted this <$> lookup_layer nm layers.
Proof.
  induction layers as [|[k L] layers IH]; intros this n; [reflexivity|].
  cbn [selectPoints_layers]. rewrite selectPoints_positions_scan.
  set (ids := scan this (positions L) 0).
  set (this1 := with_selectedPointIDs _ _).
  destruct (adoptLayer_bounds k ids this) as (Hl & Hu & Hs & _).
  specialize (IH this1 (n + Z.of_nat (length ids))%Z).
  destruct (selectPoints_layers layers this1 _) as [[rest' this2] n2].
  cbn [fst snd lookup_layer] in *.
  destruct (String.eqb k nm).
  - cbn. unfold painted. subst ids. now rewrite scan_pointsWithin.
  - rewrite IH. destruct (lookup_layer nm layers) as [L'|]; [|reflexivity].
    cbn. unfold painted. f_equal. f_equal. f_equal.
    rewrite <- !scan_pointsWithin. apply scan_same_bounds;
      subst this1; cbn; assumption.
Qed.


(** X11.  [new SelectionBox] always returns and appends one box to the
    store, with the given corners and shape.  Its [selectedPointIDs] are
    the points within the bounds of all the layers, layer after layer;
    its [layerName] is the first layer with such a point, or empty; the
    count grows by the number of these points; every layer has them
    painted; the collections and the focus are untouched. *)
Theorem newSelectionBox_selects ll0 ur0 shape s :
  exists s' this,
    newSelectionBox ll0 ur0 shape s = Ok (length (boxes s)) s' /\
    boxes s' = boxes s ++ [this] /\
    ll this = ll0 /\ ur this = ur0 /\ selectedShape this = shape /\
    selectedPointIDs this
    = concat (List.map (fun nL => pointsWithin this nL.2) (layer_points s)) /\
    layerName this = firstHitLayer this (layer_points s) /\
    nSelected s'
    = (nSelected s + Z.of_nat (length (selectedPointIDs this)))%Z /\
    (forall nm, lookup_layer nm (layer_points s')
                = painted this <$> lookup_layer nm (layer_points s)) /\
    selectionBoxArray s' = selectionBoxArray s /\
    boxInFocus s' = boxInFocus s /\
    deviceBoxMap s' = deviceBoxMap s.
Proof.
  eexists _, _. split; [apply newSelectionBox_run|]. st_simpl.
  split; [reflexivity|].
  destruct (selectPoints_layers_ids (layer_points s)
              (freshBox ll0 ur0 shape) (nSelected s))
    as (Ei & El & Eu & Es & En).
  set (this := (selectPoints_layers _ _ _).1.2) in *.
  assert (Hsame : forall layers,
             scanLayers this layers
             = scanLayers (freshBox ll0 ur0 shape) layers)
    by (intros; apply scanLayers_same_bounds; assumption).
  split; [exact El|]. split; [exact Eu|]. split; [exact Es|].
  split. { rewrite Ei, <- scanLayers_pointsWithin, Hsame. reflexivity. }
  split.
  { subst this. rewrite selectPoints_layers_layerName by reflexivity.
    symmetry. apply firstHitLayer_same_bounds; assumption. }
  split. { rewrite En, Ei. reflexivity. }
  split; [|repeat split].
  intros nm. rewrite selectPoints_layers_lookup.
  destruct (lookup_layer nm (layer_points s)) as [L|]; [|reflexivity].
  cbn. unfold painted. do 3 f_equal.
  rewrite <- !scan_pointsWithin. symmetry.
  apply scan_same_bounds; assumption.
Qed.

End NewRegion.

(** ** A committed marquee *)

Section Commit.
Context {page : Collaborators}.






End Commit.

(** ** The colours that [updateColors] leaves *)

Section PaintedPoints.
Context {page : Collaborators}.

Lemma aligned_apart i i' :
  (i mod 3 = 0)%nat -> (i' mod 3 = 0)%nat -> i <> i' ->
  forall d, (d <= 2)%nat ->
    (i + d)%nat <> i' /\ (i + d)%nat <> (i' + 1)%nat /\
    (i + d)%nat <> (i' + 2)%nat.
Proof.
  intros H H' Hne d Hd.
  pose proof (Nat.div_mod_eq i 3). pose proof (Nat.div_mod_eq i' 3). lia.
Qed.

Lemma setRGB_rgbAt i r g b colors :
  (i + 2 < length colors)%nat ->
  rgbAt (setRGB i r g b colors) i
  = Some (Binary.fround r, Binary.fround g, Binary.fround b).
Proof.
  intros Hi. unfold rgbAt, setRGB.
  rewrite (list_lookup_insert_ne _ (i + 2)%nat i) by lia.
  rewrite (list_lookup_insert_ne _ (i + 1)%nat i) by lia.
  rewrite list_lookup_insert_eq by lia.
  rewrite (list_lookup_insert_ne _ (i + 2)%nat (i + 1)%nat) by lia.
  rewrite list_lookup_insert_eq by (rewrite length_insert; lia).
  rewrite list_lookup_insert_eq by (rewrite !length_insert; lia).
  reflexivity.
Qed.

Lemma paint_snoc r g b ids i colors :
  fold_left (fun c i => setRGB i r g b c) (ids ++ [i]) colors
  = setRGB i r g b (fold_left (fun c i => setRGB i r g b c) ids colors).
Proof. now rewrite fold_left_app. Qed.

Lemma paint_fold_length r g b ids : forall colors,
  length (fold_left (fun c i => setRGB i r g b c) ids colors)
  = length colors.
Proof.
  induction ids as [|i ids IH]; intros colors; [reflexivity|].
  cbn. now rewrite IH, setRGB_length.
Qed.

(** Painting aligned points gives each of them the colour. *)
Lemma paint_rgbAt r g b ids colors i :
  aligned ids -> i ∈ ids -> (i + 2 < length colors)%nat ->
  rgbAt (fold_left (fun c i => setRGB i r g b c) ids colors) i
  = Some (Binary.fround r, Binary.fround g, Binary.fround b).
Proof.
  induction ids as [|i' ids IH] using rev_ind; intros Ha Hi Hlen.
  - now apply not_elem_of_nil in Hi.
  - rewrite paint_snoc.
    destruct (decide (i = i')) as [<-|Hne].
    + apply setRGB_rgbAt. now rewrite paint_fold_length.
    + assert (Hi' : i ∈ ids).
      { apply elem_of_app in Hi. destruct Hi as [Hi|Hi]; [exact Hi|].
        apply list_elem_of_singleton in Hi. contradiction. }
      assert (Ha' : aligned ids).
      { intros j Hj. apply Ha, elem_of_app. now left. }
      specialize (IH Ha' Hi' Hlen).
      assert (H3 : (i mod 3 = 0)%nat /\ (i' mod 3 = 0)%nat).
      { split; apply Ha, elem_of_app; [now left | right].
        apply list_elem_of_singleton. reflexivity. }
      destruct H3 as [H3 H3'].
      pose proof (aligned_apart i i' H3 H3' Hne 0 ltac:(lia)) as A0.
      pose proof (aligned_apart i i' H3 H3' Hne 1 ltac:(lia)) as A1.
      pose proof (aligned_apart i i' H3 H3' Hne 2 ltac:(lia)) as A2.
      rewrite Nat.add_0_r in A0.
      unfold rgbAt in *.
      rewrite !setRGB_lookup_other by tauto. exact IH.
  Qed.

(** Painting aligned points leaves an aligned point that is not among
    them as it was. *)
Lemma paint_rgbAt_other r g b ids colors i :
  aligned ids -> (i mod 3 = 0)%nat -> i ∉ ids ->
  rgbAt (fold_left (fun c i => setRGB i r g b c) ids colors) i
  = rgbAt colors i.
Proof.
  intros Ha H3 Hi.
  assert (Hu : forall d, (d <= 2)%nat -> ~ touched ids (i + d)%nat).
  { intros d Hd (i' & Hi' & Hj).
    assert (Hne : i <> i') by (intros ->; contradiction).
    pose proof (aligned_apart i i' H3 (Ha _ Hi') Hne d Hd). tauto. }
  unfold rgbAt.
  pose proof (paint_untouched r g b ids i colors) as P0.
  pose proof (paint_untouched r g b ids (i + 1)%nat colors
                (Hu 1%nat ltac:(lia))) as P1.
  pose proof (paint_untouched r g b ids (i + 2)%nat colors
                (Hu 2%nat ltac:(lia))) as P2.
  cbv zeta in P0, P1, P2.
  rewrite P0, P1, P2; [reflexivity|].
  specialize (Hu 0%nat ltac:(lia)). now rewrite Nat.add_0_r in Hu.
Qed.

Lemma pointsWithin_aligned this L : aligned (pointsWithin this L).
Proof.
  intros i Hi. unfold pointsWithin in Hi.
  apply list_elem_of_In, in_map_iff in Hi. destruct Hi as (k & <- & _).
  rewrite Nat.mul_comm. apply Nat.Div0.mod_mul.
Qed.

Lemma pointsWithin_bound this L i :
  i ∈ pointsWithin this L -> (i + 2 < length (positions L))%nat.
Proof.
  intros Hi. unfold pointsWithin in Hi.
  apply list_elem_of_In, in_map_iff in Hi. destruct Hi as (k & <- & Hk).
  apply filter_In in Hk. destruct Hk as [Hk _]. apply in_seq in Hk.
  pose proof (Nat.div_mod_eq (length (positions L)) 3).
  pose proof (Nat.mod_upper_bound (length (positions L)) 3). lia.
Qed.

(** The highlight colour is stored as it is. *)
Lemma fround_highlight :
  Binary.fround 1 = Num.Fin 1 /\ Binary.fround 0 = Num.Fin 0.
Proof. split; vm_compute; reflexivity. Qed.

(** X13.  With the box and its layer present, [updateColors] returns;
    [selectedPointIDs] becomes exactly the points of the layer within the
    bounds and [nSelected] moves by the difference.  When the colour buffer
    is as long as the position buffer and the old identifiers are vertex
    offsets, every point within the bounds is left in the highlight colour
    (1, 0, 1), every point that was selected and is now outside holds the
    base colour as the [Float32Array] keeps it, each component rounded to
    single precision, and no other entry of the buffer is written. *)
Theorem updateColors_paints r s this L :
  boxes s !! r = Some this ->
  lookup_layer (layerName this) (layer_points s) = Some L ->
  (length (positions L) <= length (customColor L))%nat ->
  aligned (selectedPointIDs this) ->
  exists s' L',
    updateColors r s = Ok tt s' /\
    boxes s' !! r
    = Some (with_selectedPointIDs (pointsWithin this L) this) /\
    nSelected s'
    = (nSelected s - Z.of_nat (length (selectedPointIDs this))
       + Z.of_nat (length (pointsWithin this L)))%Z /\
    lookup_layer (layerName this) (layer_points s') = Some L' /\
    positions L' = positions L /\
    length (customColor L') = length (customColor L) /\
    (forall i, i ∈ pointsWithin this L ->
       rgbAt (customColor L') i
       = Some (Num.Fin 1, Num.Fin 0, Num.Fin 1)) /\
    (forall i, i ∈ selectedPointIDs this -> i ∉ pointsWithin this L ->
       (i + 2 < length (customColor L))%nat ->
       rgbAt (customColor L') i
       = Some (Binary.fround color.1.1, Binary.fround color.1.2,
               Binary.fround color.2)) /\
    (forall j, ~ touched (selectedPointIDs this) j ->
       ~ touched (pointsWithin this L) j ->
       customColor L' !! j = customColor L !! j).
Proof.
  intros Hr HL Hlen Hal.
  eexists _, _. split; [eapply updateColors_run; eassumption|].
  rewrite scan_pointsWithin. st_simpl.
  split; [box_lookup|]. split; [reflexivity|].
  split; [exact (lookup_store_colors _ _ _ _ HL)|].
  cbn [positions customColor].
  split; [reflexivity|].
  split; [now rewrite highlight_length, restore_length|].
  split; [|split].
  - intros i Hi. destruct fround_highlight as [<- <-]. apply paint_rgbAt.
    + apply pointsWithin_aligned.
    + exact Hi.
    + rewrite restore_length. apply pointsWithin_bound in Hi. lia.
  - intros i Hi Hout Hb. unfold highlight.
    rewrite paint_rgbAt_other;
      [| apply pointsWithin_aligned | now apply Hal | exact Hout].
    unfold restore. exact (paint_rgbAt _ _ _ _ _ i Hal Hi Hb).
  - intros j Ho Hn. unfold highlight.
    pose proof (paint_untouched 1 0 1 (pointsWithin this L) j
                  (restore (selectedPointIDs this) (customColor L)) Hn) as P.
    cbv zeta in P. rewrite P. unfold restore.
    pose proof (paint_untouched color.1.1 color.1.2 color.2
                  (selectedPointIDs this) j (customColor L) Ho) as P'.
    exact P'.
Qed.

End PaintedPoints.

(** ** The end of a resize *)

Section ResizeCommit.
Context {page : Collaborators}.

Lemma flipCorners_rest this :
  layerName (flipCorners this) = layerName this /\
  selectedShape (flipCorners this) = selectedShape this /\
  curves (flipCorners this) = curves this /\
  selectedPointIDs (flipCorners this) = selectedPointIDs this /\
  box (flipCorners this) = box this /\
  selectedNeuronType (flipCorners this) = selectedNeuronType this /\
  selectedSynModel (flipCorners this) = selectedSynModel this.
Proof.
  unfold flipCorners. destruct (Num.Qltb _ _); destruct (Num.Qltb _ _);
    repeat split.
Qed.


End ResizeCommit.

(** ** Pointer-down *)

Section PointerDown.
Context {page : Collaborators}.

(** X15.  A pointer-down on a handle of the box in focus only starts a
    resize: it records the button, the coordinates and the name of the
    handle, and changes nothing else, whether or not shift is held and
    whatever regions or devices are under the pointer. *)
Theorem onMouseDown_handle_first ev s r this k p :
  onCanvas ev = true ->
  boxInFocus s = Some r ->
  boxes s !! r = Some this ->
  intersectResizePoints ev (resizePoints this) = Some k ->
  resizePoints this !! k = Some p ->
  onMouseDown ev s
  = Ok tt (set_resizeSideInFocus (Some (point_name p))
             (set_mouseDownCoords (mkPos (clientX ev) (clientY ev))
                (set_mouseDown true s))).
Proof.
  intros Hc Hf Hr Hk Hp. unfold onMouseDown. rewrite Hc. run_pure. st_simpl.
  rewrite Hf. run_pure. run_getBox. unfold firstIntersect. rewrite Hk, Hp.
  run_pure. reflexivity.
Qed.

Lemma focusFirst_miss pos refs s :
  (forall r, r ∈ refs -> is_Some (boxes s !! r)) ->
  firstWithin (boxes s) pos refs = None ->
  focusFirst pos refs s = Ok false s.
Proof.
  induction refs as [|r rest IH]; intros Hv Hn; [reflexivity|].
  cbn [firstWithin focusFirst] in *.
  destruct (Hv r) as [b Hb]; [apply list_elem_of_here|].
  rewrite Hb in Hn. run_getBox.
  destruct (truthy (withinBounds b pos)); [discriminate|].
  apply IH; [|exact Hn]. intros r' Hr'. apply Hv.
  now apply list_elem_of_further.
Qed.

(** X16.  In a well-formed state, a pointer-down without shift that
    misses the handles of the box in focus and every region starts a
    marquee: the handler returns with [make_selection_box] set and no box
    in focus; the box that was in focus loses its handles, and no other box,
    line, collection or count changes. *)
Theorem onMouseDown_empty_canvas ev s :
  wellFormed s ->
  onCanvas ev = true ->
  shiftKey ev = false ->
  missesHandles ev s ->
  firstWithin (boxes s) (mkPos (clientX ev) (height - clientY ev)%Q)
              (selectionBoxArray s) = None ->
  exists s',
    onMouseDown ev s = Ok tt s' /\
    make_selection_box s' = true /\
    boxInFocus s' = None /\
    mouseDown s' = true /\
    mouseDownCoords s' = mkPos (clientX ev) (clientY ev) /\
    make_connection s' = make_connection s /\
    resizeSideInFocus s' = resizeSideInFocus s /\
    selectionBoxArray s' = selectionBoxArray s /\
    deviceBoxMap s' = deviceBoxMap s /\
    nSelected s' = nSelected s /\
    layer_points s' = layer_points s /\
    length (boxes s') = length (boxes s) /\
    (forall r b, boxes s !! r = Some b ->
       boxes s' !! r
       = Some (if decide (boxInFocus s = Some r)
               then with_resizePoints [] b else b)).
Proof.
  intros (_ & Hv & _) Hc Hs Hmiss Hfirst.
  unfold onMouseDown. rewrite Hc. run_pure. st_simpl.
  unfold missesHandles in Hmiss.
  destruct (boxInFocus s) as [r0|] eqn:Hf.
  - destruct Hmiss as (b0 & H0 & Hray). run_pure.
    run_getBox. rewrite Hray. run_pure.
    unfold removePoints. run_modifyBox. run_pure. rewrite Hs. run_pure.
    st_simpl.
    erewrite (bind_Ok (focusFirst _ _)).
    2:{ apply focusFirst_miss; st_simpl.
        - intros r Hr. apply lookup_lt_is_Some. rewrite length_insert.
          apply lookup_lt_is_Some. now apply Hv.
        - rewrite (firstWithin_insert _ _ _ b0) by (auto; reflexivity).
          exact Hfirst. }
    run_pure. eexists. split; [reflexivity|]. st_simpl.
    rewrite length_insert. do 11 (split; [reflexivity|]).
    intros r b Hb. destruct (decide (Some r0 = Some r)) as [[= <-]|Hne].
    + rewrite Hb in H0. injection H0 as <-.
      eapply lookup_modified; eassumption.
    + rewrite list_lookup_insert_ne by congruence. exact Hb.
  - run_pure. rewrite Hs. run_pure. st_simpl.
    erewrite (bind_Ok (focusFirst _ _)).
    2:{ apply focusFirst_miss; st_simpl; assumption. }
    run_pure. eexists. split; [reflexivity|]. st_simpl. rewrite Hf.
    do 11 (split; [reflexivity|]).
    intros r b Hb. destruct (decide (None = Some r)); [discriminate|].
    exact Hb.
Qed.

End PointerDown.

(** ** A connecting gesture that ends on no device *)

Section ConnectingGesture.
Context {page : Collaborators}.







End ConnectingGesture.

(** ** Dragging a device *)

Section DraggingDevice.
Context {page : Collaborators}.





End DraggingDevice.

(** ** Removing lines *)

Section RemoveLines.
Context {page : Collaborators}.

Lemma removeLineTo_absent tgt cs :
  (forall c, c ∈ cs -> target c <> tgt) -> removeLineTo tgt cs = cs.
Proof.
  induction cs as [|c cs IH]; intros H; [reflexivity|].
  cbn [removeLineTo].
  destruct (String.eqb_spec tgt (target c)) as [E|_].
  - exfalso. exact (H c (list_elem_of_here _ _) (eq_sym E)).
  - rewrite IH; [reflexivity|].
    intros c' Hc'. apply H. now apply list_elem_of_further.
Qed.

Lemma removeLineTo_first tgt l1 c l2 :
  target c = tgt ->
  (forall c', c' ∈ l1 -> target c' <> tgt) ->
  removeLineTo tgt (l1 ++ c :: l2) = l1 ++ l2.
Proof.
  intros Ht. induction l1 as [|c1 l1 IH]; intros H; cbn [app removeLineTo].
  - now rewrite <- Ht, String.eqb_refl.
  - destruct (String.eqb_spec tgt (target c1)) as [E|_].
    + exfalso. exact (H c1 (list_elem_of_here _ _) (eq_sym E)).
    + rewrite IH; [reflexivity|].
      intros c' Hc'. apply H. now apply list_elem_of_further.
Qed.

(** X19.  [removeLines] on a stored box returns and changes only the
    lines of that box: with the empty target all of them go; with another
    target the first line to it goes and every other line stays in place,
    also later lines to the same target; without such a line nothing
    changes. *)
Theorem removeLines_removes r tgt s this :
  boxes s !! r = Some this ->
  exists cs',
    removeLines r tgt s
    = Ok tt (set_boxes (<[r := with_curves cs' this]> (boxes s)) s) /\
    (tgt = EmptyString -> cs' = []) /\
    (tgt <> EmptyString ->
     (forall c, c ∈ curves this -> target c <> tgt) ->
     cs' = curves this) /\
    (tgt <> EmptyString ->
     forall l1 c l2,
       curves this = l1 ++ c :: l2 -> target c = tgt ->
       (forall c', c' ∈ l1 -> target c' <> tgt) ->
       cs' = l1 ++ l2).
Proof.
  intros Hr. unfold removeLines. erewrite modifyBox_Some by eassumption.
  destruct (String.eqb_spec tgt EmptyString) as [->|Hne].
  - exists []. split; [reflexivity|]. split; [reflexivity|].
    split; intros H; contradiction.
  - exists (removeLineTo tgt (curves this)). split; [reflexivity|].
    split; [intros H; contradiction|].
    split.
    + intros _ H. now apply removeLineTo_absent.
    + intros _ l1 c l2 -> Ht H. now apply removeLineTo_first.
Qed.

End RemoveLines.

(** ** The count of the selected points *)

Section Counting.
Context {page : Collaborators}.

Lemma total_ext bs bs' refs :
  (forall r, r ∈ refs -> pointsOf bs' r = pointsOf bs r) ->
  total bs' refs = total bs refs.
Proof.
  induction refs as [|a refs IH]; intros H; [reflexivity|].
  cbn [total]. rewrite H by apply list_elem_of_here.
  rewrite IH; [reflexivity|].
  intros r Hr. apply H. now apply list_elem_of_further.
Qed.

Lemma total_app bs l1 l2 :
  total bs (l1 ++ l2) = (total bs l1 + total bs l2)%Z.
Proof.
  induction l1 as [|a l1 IH]; [reflexivity|].
  cbn [app total]. rewrite IH. lia.
Qed.

Lemma sameIds_refl b : sameIds b b.
Proof. repeat split. Qed.

Lemma pointsOf_kept bs bs' r :
  keptBy sameIds bs bs' -> length bs' = length bs ->
  pointsOf bs' r = pointsOf bs r.
Proof.
  intros K Hlen. unfold pointsOf. destruct (bs !! r) as [b|] eqn:E.
  - destruct (K r b E) as (b' & -> & _ & ->). reflexivity.
  - apply lookup_ge_None in E. rewrite lookup_ge_None_2 by lia.
    reflexivity.
Qed.

Lemma total_insert bs refs r b b' :
  NoDup refs -> r ∈ refs -> bs !! r = Some b ->
  total (<[r := b']> bs) refs
  = (total bs refs - Z.of_nat (length (selectedPointIDs b))
     + Z.of_nat (length (selectedPointIDs b')))%Z.
Proof.
  intros Hnd Hin Hb.
  induction refs as [|a refs IH]; [now apply not_elem_of_nil in Hin|].
  apply NoDup_cons in Hnd as [Ha Hnd]. cbn [total].
  destruct (decide (a = r)) as [->|Hne].
  - rewrite (total_ext bs (<[r := b']> bs) refs).
    + unfold pointsOf. rewrite (lookup_modified _ _ _ _ Hb), Hb. lia.
    + intros r' Hr'. unfold pointsOf.
      rewrite list_lookup_insert_ne; [reflexivity|].
      intros ->. contradiction.
  - apply elem_of_cons in Hin as [->|Hin]; [contradiction|].
    rewrite IH by assumption. unfold pointsOf at 1.
    rewrite list_lookup_insert_ne by congruence.
    fold (pointsOf bs a). lia.
Qed.

Lemma total_spliceOut bs refs r :
  r ∈ refs ->
  total bs (spliceOut r refs) = (total bs refs - pointsOf bs r)%Z.
Proof.
  intros Hin. apply list_elem_of_split_l in Hin as (l1 & l2 & -> & Hl1).
  rewrite spliceOut_first by assumption.
  rewrite !total_app. cbn [total]. lia.
Qed.

Lemma total_grow bs b refs :
  (forall r, r ∈ refs -> is_Some (bs !! r)) ->
  total (bs ++ [b]) refs = total bs refs.
Proof.
  intros H. apply total_ext. intros r Hr. unfold pointsOf.
  destruct (H r Hr) as [b0 Hb0].
  now rewrite (lookup_app_l_Some _ _ _ _ Hb0), Hb0.
Qed.

Lemma tracked_weaken R R' s :
  tracked R s -> (forall r, r ∈ R' -> r ∈ selectionBoxArray s) ->
  tracked R' s.
Proof. intros (Hc & Hn & _) H. repeat split; try apply Hc; assumption. Qed.

Lemma tracked_nil R s : tracked R s -> tracked [] s.
Proof.
  intros H. eapply tracked_weaken; [exact H|].
  intros r Hr. now apply not_elem_of_nil in Hr.
Qed.

(** A change of the boxes that keeps their points, with the list of
    regions, the focus and the count as they were. *)
Lemma tracked_transfer R s s' :
  tracked R s ->
  keptBy sameIds (boxes s) (boxes s') ->
  length (boxes s') = length (boxes s) ->
  selectionBoxArray s' = selectionBoxArray s ->
  boxInFocus s' = boxInFocus s ->
  nSelected s' = nSelected s ->
  tracked R s'.
Proof.
  intros ([Hn Hf] & Hnd & HR) K Hlen Ha Hfo Hns.
  unfold tracked, counted. rewrite Ha, Hfo, Hns.
  repeat split; try assumption.
  rewrite Hn. symmetry. apply total_ext. intros r _.
  now apply pointsOf_kept.
Qed.

Lemma tracked_focus R s r :
  tracked R s -> r ∈ selectionBoxArray s ->
  tracked R (set_boxInFocus (Some r) s).
Proof.
  intros ([Hn Hf] & Hnd & HR) Hr.
  repeat split; st_simpl; try assumption. now intros r' [= <-].
Qed.

Lemma tracked_unfocus R s : tracked R s -> tracked R (set_boxInFocus None s).
Proof.
  intros ([Hn Hf] & Hnd & HR).
  repeat split; st_simpl; try assumption. discriminate.
Qed.

Lemma modifyBox_None r f s :
  boxes s !! r = None -> modifyBox r f s = TypeError s.
Proof.
  intros H. unfold modifyBox.
  now rewrite (bind_TypeError _ _ _ _ (getBox_None _ _ H)).
Qed.

Section Methods.
Variable R : list nat.

Lemma keeps_tracked_flags g :
  (forall s, boxes (g s) = boxes s) ->
  (forall s, selectionBoxArray (g s) = selectionBoxArray s) ->
  (forall s, boxInFocus (g s) = boxInFocus s) ->
  (forall s, nSelected (g s) = nSelected s) ->
  keeps (tracked R) (modify g).
Proof.
  intros Hb Ha Hf Hn. apply keeps_modify. intros s Hs.
  eapply tracked_transfer; eauto; rewrite Hb;
    [apply keptBy_refl, sameIds_refl | reflexivity].
Qed.

Lemma keeps_tracked_box r f :
  (forall b, sameIds b (f b)) -> keeps (tracked R) (modifyBox r f).
Proof.
  intros Hf. apply keeps_modifyBox. intros s b Hs Hb.
  eapply tracked_transfer; [exact Hs | | | reflexivity..]; st_simpl.
  - eapply keptBy_insert; eauto using sameIds_refl.
  - apply length_insert.
Qed.

Lemma keeps_tracked_resetButtons : keeps (tracked R) resetButtons.
Proof. now apply keeps_tracked_flags. Qed.

Lemma keeps_tracked_removePoints r : keeps (tracked R) (removePoints r).
Proof. apply keeps_tracked_box. intros b. repeat split. Qed.

Lemma keeps_tracked_makeSelectionPoints r :
  keeps (tracked R) (makeSelectionPoints r).
Proof. apply keeps_tracked_box. intros b. repeat split. Qed.

Lemma keeps_tracked_makeLine r : keeps (tracked R) (makeLine r).
Proof. apply keeps_tracked_box. intros b. repeat split. Qed.

Lemma keeps_tracked_makeBox r : keeps (tracked R) (makeBox r).
Proof. apply keeps_tracked_box. intros b. repeat split. Qed.

Lemma keeps_tracked_updateLineStart r p :
  keeps (tracked R) (updateLineStart r p).
Proof. apply keeps_tracked_box. intros b. repeat split. Qed.

Lemma keeps_tracked_updateLineEnd r p tgt :
  keeps (tracked R) (updateLineEnd r p tgt).
Proof. apply keeps_tracked_box. intros b. repeat split. Qed.

Lemma keeps_tracked_removeLine r : keeps (tracked R) (removeLine r).
Proof. apply keeps_tracked_box. intros b. repeat split. Qed.

Lemma keeps_tracked_setLineTarget r device :
  keeps (tracked R) (setLineTarget r device).
Proof.
  apply keeps_bind; [apply keeps_getBox|]. intros this.
  apply keeps_bind; [apply keeps_defined|]. intros c.
  apply keeps_tracked_box. intros b. repeat split.
Qed.

Lemma keeps_tracked_getSelectionInfo r :
  keeps (tracked R) (getSelectionInfo r).
Proof.
  apply keeps_bind; [apply keeps_getBox|]. intros this.
  apply keeps_bind; [apply keeps_get|]. intros s.
  apply keeps_bind; [apply keeps_defined|]. intros L.
  apply keeps_ret.
Qed.

Lemma keeps_tracked_focusFirst pos refs :
  (forall r, r ∈ refs -> r ∈ R) ->
  keeps (tracked R) (focusFirst pos refs).
Proof.
  induction refs as [|r rest IH]; intros HR; [apply keeps_ret|].
  cbn [focusFirst]. apply keeps_getBox_then. intros s this Hs Hr.
  destruct (truthy _).
  2:{ apply keeps_use; [|exact Hs]. apply IH.
      intros r' Hr'. apply HR. now apply list_elem_of_further. }
  apply wp_bind, wp_modify.
  assert (Hs' : tracked R (set_boxInFocus (Some r) s)).
  { apply tracked_focus; [exact Hs|].
    destruct Hs as (_ & _ & HR'). apply HR', HR, list_elem_of_here. }
  revert Hs'. generalize (set_boxInFocus (Some r) s). clear s Hs Hr.
  intros s Hs. cbn [curveObject].
  refine (keeps_bind _ _ _ _ _ s Hs).
  - apply keeps_bind; [now apply keeps_tracked_flags|]. intros _.
    apply keeps_tracked_makeLine.
  - intros _. apply keeps_bind; [apply keeps_tracked_makeSelectionPoints|].
    intros _. apply keeps_ret.
Qed.

(** [updateColors] moves the count by what it moves the points of a
    region. *)
Lemma keeps_tracked_updateColors r :
  r ∈ R -> keeps (tracked R) (updateColors r).
Proof.
  intros HrR s Hs. unfold wp.
  destruct (boxes s !! r) as [this|] eqn:Hr.
  2:{ unfold updateColors.
      rewrite (bind_TypeError _ _ _ _ (getBox_None _ _ Hr)). exact Hs. }
  destruct (lookup_layer (layerName this) (layer_points s))
    as [L|] eqn:HL.
  2:{ rewrite (updateColors_throws r s this Hr HL). exact Hs. }
  rewrite (updateColors_run r s this L Hr HL).
  destruct Hs as ([Hn Hf] & Hnd & HR).
  repeat split; st_simpl; try assumption.
  rewrite (total_insert _ _ _ this) by auto. cbn. rewrite Hn. reflexivity.
Qed.

End Methods.

Lemma tracked_onMouseDown event : keeps (tracked []) (onMouseDown event).
Proof.
  unfold onMouseDown. destruct (onCanvas event); [|apply keeps_ret].
  apply keeps_bind; [now apply keeps_tracked_flags|]. intros _.
  apply keeps_get_then. intros s Hs.
  assert (Hrest : forall onHandle : bool,
    keeps (tracked [])
      (if onHandle then mret tt
       else if shiftKey event then
         modify (set_shiftDown true);;
         s ← get;
         match firstIntersect (intersectDragObjects event (drag_objects s))
                              (drag_objects s) with
         | Some (k, _) => modify (set_object_selected (Some k))
         | None => mret tt
         end
       else
         s ← get;
         let mouseDownCorrected :=
           mkPos (x (mouseDownCoords s))
                 (height - y (mouseDownCoords s))%Q in
         found ← focusFirst mouseDownCorrected (selectionBoxArray s);
         if (found : bool) then mret tt
         else modify (set_make_selection_box true))).
  { intros [|]; [apply keeps_ret|]. apply keeps_if.
    - apply keeps_bind; [now apply keeps_tracked_flags|]. intros _.
      apply keeps_bind; [apply keeps_get|]. intros s1.
      destruct (firstIntersect _ _) as [[k d]|];
        [now apply keeps_tracked_flags | apply keeps_ret].
    - apply keeps_get_then. intros s1 Hs1. cbv zeta.
      apply wp_bind. eapply wp_mono.
      + apply (keeps_tracked_focusFirst (selectionBoxArray s1)); [auto|].
        eapply tracked_weaken; [exact Hs1 | auto].
      + intros [|] s' Hs'; cbv beta.
        * apply wp_ret. eapply tracked_nil; eauto.
        * apply keeps_use; [now apply keeps_tracked_flags|].
          eapply tracked_nil; eauto.
      + intros s' Hs'. eapply tracked_nil; eauto. }
  refine (keeps_bind _ _ _ _ Hrest s Hs).
  destruct (boxInFocus s) as [r|]; [|apply keeps_ret].
  apply keeps_bind; [apply keeps_getBox|]. intros this.
  destruct (firstIntersect _ _) as [[k p]|].
  - apply keeps_bind;
      [now apply keeps_tracked_flags | intros _; apply keeps_ret].
  - apply keeps_bind; [apply keeps_tracked_removePoints|]. intros _.
    apply keeps_bind; [|intros _; apply keeps_ret].
    apply keeps_modify. intros s1. apply tracked_unfocus.
Qed.

Lemma tracked_same R s s' :
  tracked R s -> sameSelection s s' -> tracked R s'.
Proof.
  intros Hs (A1 & A2 & A3 & A4 & A5 & A6 & A7 & A8 & A9 & A10 & A11 & A12
             & A13 & A14).
  eapply tracked_transfer; [exact Hs | | assumption..].
  intros r b Hb. destruct (A14 r b Hb) as (b' & Hb' & Hreg & Hids & _).
  exists b'. split; [exact Hb'|]. split; assumption.
Qed.

Lemma tracked_onMouseMove event : keeps (tracked []) (onMouseMove event).
Proof.
  intros s Hs.
  pose proof (keeps_members_onMouseMove s event s (sameSelection_refl s))
    as H.
  eapply wp_mono; [exact H | |].
  - intros a s' H'. eapply tracked_same; eauto.
  - intros s' H'. eapply tracked_same; eauto.
Qed.

Lemma tracked_onMouseUp event s :
  wellFormed s -> tracked [] s ->
  wp (onMouseUp event) (fun _ => tracked []) (tracked []) s.
Proof.
  intros W Hs. unfold onMouseUp. apply wp_bind, wp_get.
  destruct (make_selection_box s).
  - cbv zeta. apply wp_bind. unfold wp at 1. rewrite newSelectionBox_run.
    match goal with
    | |- context [selectPoints_layers ?l ?f ?n] =>
        destruct (selectPoints_layers_ids l f n) as (Ei & _ & _ & _ & En)
    end.
    match goal with
    | |- wp _ _ _ (set_boxes (boxes s ++ [?b]) ?st) =>
        set (this1 := b) in *;
        set (s1 := set_boxes (boxes s ++ [this1]) st)
    end.
    assert (Hr : boxes s1 !! length (boxes s) = Some this1).
    { subst s1. st_simpl. rewrite lookup_app_r by lia.
      now rewrite Nat.sub_diag. }
    destruct W as (W1 & W2 & _). destruct Hs as ([Hn Hf] & _ & _).
    assert (Hout : length (boxes s) ∉ selectionBoxArray s).
    { intros Hin. apply W2, lookup_lt_is_Some in Hin. lia. }
    assert (H4 : forall g,
               boxes (g s1) = boxes s1 ->
               selectionBoxArray (g s1) = selectionBoxArray s1 ->
               nSelected (g s1) = nSelected s1 ->
               boxInFocus (g s1) = Some (length (boxes s)) ->
               tracked []
                 (set_selectionBoxArray
                    (selectionBoxArray (g s1) ++ [length (boxes s)])
                    (g s1))).
    { intros g Gb Ga Gn Gf. repeat split; st_simpl.
      - rewrite Gn, Gb, Ga. subst s1. st_simpl.
        rewrite total_app. cbn [total]. unfold pointsOf.
        rewrite lookup_app_r by lia. rewrite Nat.sub_diag.
        cbn [lookup list_lookup]. rewrite total_grow by exact W2.
        rewrite En, Ei, Hn. cbn [selectedPointIDs freshBox app]. lia.
      - intros r. rewrite Gf. intros [= <-].
        apply elem_of_app. right. apply list_elem_of_here.
      - rewrite Ga. subst s1. st_simpl.
        apply NoDup_app. repeat split; [exact W1 | | apply NoDup_singleton].
        intros r' Hin Hin'. apply list_elem_of_singleton in Hin'.
        congruence.
      - intros r Hr'. now apply not_elem_of_nil in Hr'. }
    clearbody s1 this1.
    apply wp_bind, wp_modify.
    apply wp_bind, wp_getBox;
      [| intros Hnone; st_simpl; rewrite Hr in Hnone; discriminate ].
    intros this _.
    apply wp_bind, wp_modify. apply wp_bind, wp_modify.
    specialize (H4 (fun st => set_layerSelected (layerName this)
                                (set_boxInFocus (Some (length (boxes s)))
                                   st))).
    cbv beta in H4.
    apply keeps_use; [| apply H4; reflexivity ].
    apply keeps_if; [apply keeps_tracked_resetButtons|].
    apply keeps_bind; [apply keeps_tracked_makeBox|]. intros _.
    apply keeps_bind; [apply keeps_tracked_makeSelectionPoints|]. intros _.
    apply keeps_bind; [apply keeps_tracked_box; intros b; repeat split|].
    intros _.
    apply keeps_bind; [apply keeps_tracked_getSelectionInfo|]. intros info.
    apply keeps_bind; [now apply keeps_tracked_flags|]. intros _.
    apply keeps_tracked_resetButtons.
  - destruct (resizeSideInFocus s) as [side|].
    + apply wp_bind, wp_modify.
      assert (Hs1 : tracked [] (set_resizeSideInFocus None s)).
      { eapply tracked_transfer; [exact Hs | | reflexivity..].
        apply keptBy_refl, sameIds_refl. }
      apply wp_bind, wp_defined; [|intros _; exact Hs1]. intros r Hr.
      eapply wp_mono with (Q := fun _ => tracked [r]) (E := tracked [r]);
        [| intros; eapply tracked_nil; eauto
         | intros; eapply tracked_nil; eauto ].
      apply keeps_use.
      2:{ eapply tracked_weaken; [exact Hs1|]. st_simpl.
          intros r' Hr'. apply list_elem_of_singleton in Hr' as ->.
          destruct Hs as ([_ Hf] & _). now apply Hf. }
      apply keeps_bind.
      { apply keeps_tracked_box. intros b. split.
        - apply flipCorners_region.
        - now destruct (flipCorners_rest b) as (_ & _ & _ & ? & _). }
      intros _.
      apply keeps_bind; [apply keeps_tracked_removePoints|]. intros _.
      apply keeps_bind; [apply keeps_tracked_makeSelectionPoints|].
      intros _.
      apply keeps_bind;
        [apply keeps_tracked_updateColors, list_elem_of_here|].
      intros _.
      apply keeps_bind; [apply keeps_getBox|]. intros this.
      apply keeps_bind; [apply keeps_tracked_updateLineStart|]. intros _.
      apply keeps_tracked_resetButtons.
    + apply keeps_use; [|exact Hs].
      apply keeps_if.
      * destruct (firstIntersect _ _) as [[k d]|].
        -- apply keeps_bind; [apply keeps_defined|]. intros r.
           apply keeps_bind; [apply keeps_tracked_setLineTarget|]. intros _.
           apply keeps_bind; [apply keeps_tracked_updateLineEnd|]. intros _.
           apply keeps_bind; [apply keeps_get|]. intros s'.
           apply keeps_bind; [apply keeps_defined|]. intros l.
           apply keeps_bind; [now apply keeps_tracked_flags|]. intros _.
           apply keeps_tracked_resetButtons.
        -- apply keeps_bind; [apply keeps_defined|]. intros r.
           apply keeps_bind; [apply keeps_tracked_removeLine|]. intros _.
           apply keeps_tracked_resetButtons.
      * apply keeps_if; [|apply keeps_tracked_resetButtons].
        apply keeps_bind; [now apply keeps_tracked_flags|]. intros _.
        apply keeps_tracked_resetButtons.
Qed.

Lemma tracked_onKeyUp event : keeps (tracked []) (onKeyUp event).
Proof.
  intros s Hs. unfold onKeyUp. apply wp_bind, wp_get.
  destruct (boxInFocus s) as [r|] eqn:Hf; [|exact Hs].
  destruct (Nat.eqb _ _); [|exact Hs].
  assert (Hin : r ∈ selectionBoxArray s).
  { destruct Hs as ([_ H] & _). now apply H. }
  unfold wp, removePoints.
  destruct (boxes s !! r) as [this|] eqn:Hr.
  2:{ rewrite (bind_TypeError _ _ _ _ (modifyBox_None _ _ _ Hr)).
      exact Hs. }
  run_modifyBox.
  assert (Hs1 : tracked []
                  (set_boxes (<[r := with_resizePoints [] this]> (boxes s))
                     s)).
  { eapply tracked_transfer; [exact Hs | | | reflexivity..]; st_simpl.
    - eapply keptBy_insert; eauto using sameIds_refl. repeat split.
    - apply length_insert. }
  destruct (lookup_layer (layerName this) (layer_points s)) as [L|] eqn:HL.
  2:{ erewrite (bind_TypeError (removeBox _)).
      2:{ eapply removeBox_throws; st_simpl.
          - eapply lookup_modified; eassumption.
          - exact HL. }
      exact Hs1. }
  erewrite (bind_Ok (removeBox _)).
  2:{ eapply removeBox_run; st_simpl.
      - eapply lookup_modified; eassumption.
      - exact HL. }
  unfold removeLines. run_modifyBox. run_pure.
  destruct Hs as ([Hn _] & Hnd & _).
  repeat split; st_simpl.
  - rewrite (total_ext (boxes s)).
    + rewrite total_spliceOut by exact Hin. unfold pointsOf.
      rewrite Hr, Hn. reflexivity.
    + intros r' _. apply pointsOf_kept; [|now rewrite !length_insert].
      intros r0 b0 Hb0. destruct (decide (r = r0)) as [<-|Hne].
      * rewrite Hr in Hb0. injection Hb0 as <-. eexists.
        split; [eapply lookup_modified; box_lookup|]. repeat split.
      * exists b0. rewrite !list_lookup_insert_ne by assumption.
        split; [exact Hb0 | apply sameIds_refl].
  - discriminate.
  - eapply sublist_NoDup; [exact Hnd | apply spliceOut_sublist].
  - intros r' Hr'. now apply not_elem_of_nil in Hr'.
Qed.

Lemma dispatch_tracked e s :
  wellFormed s -> tracked [] s -> tracked [] (final (dispatch e s)).
Proof.
  intros W Hs. apply wp_final. destruct e as [event|event|event|event]; cbn.
  - now apply tracked_onMouseDown.
  - now apply tracked_onMouseMove.
  - now apply tracked_onMouseUp.
  - now apply tracked_onKeyUp.
Qed.

Lemma runEvents_tracked es : forall s,
  wellFormed s -> tracked [] s -> tracked [] (runEvents es s).
Proof.
  induction es as [|e es IH]; intros s W Hs; [exact Hs|].
  cbn [runEvents fold_left]. apply IH.
  - now destruct (dispatch_evolved e s W).
  - now apply dispatch_tracked.
Qed.

(** X20.  Whatever events arrive, and whether handlers throw or not,
    [nSelected] stays the number of points of the regions of
    [selectionBoxArray], a point counted once for every region that holds
    it, and the box in focus stays one of these regions. *)
Theorem runEvents_counted es s :
  wellFormed s -> counted s -> counted (runEvents es s).
Proof.
  intros W C.
  assert (T : tracked [] s).
  { split; [exact C|]. split; [now destruct W|].
    intros r Hr. now apply not_elem_of_nil in Hr. }
  now destruct (runEvents_tracked es s W T).
Qed.

End Counting.

(** * More properties on a page *)

Section Decide.

Lemma alignedb_aligned ids : alignedb ids = true -> aligned ids.
Proof.
  unfold alignedb. rewrite forallb_forall. intros H i Hi.
  apply Nat.eqb_eq, H. now apply list_elem_of_In.
Qed.


Lemma start_wellFormed layers : wellFormed (Scenario.start layers).
Proof.
  repeat split; cbn.
  - apply NoDup_nil_2.
  - intros r Hr. now apply not_elem_of_nil in Hr.
  - discriminate.
  - intros device l r Hl Hr.
    apply lookup_singleton_Some in Hl as [_ <-].
    now apply not_elem_of_nil in Hr.
Qed.

Lemma runEvents_start_wellFormed {page : Collaborators} es layers :
  wellFormed (runEvents es (Scenario.start layers)).
Proof. now destruct (runEvents_evolved es _ (start_wellFormed layers)). Qed.

Import Scenario Cases.

Lemma drawn_wellFormed : wellFormed drawn.
Proof. unfold drawn. apply runEvents_start_wellFormed. Qed.

Lemma connected_wellFormed : wellFormed connected.
Proof.
  unfold connected.
  now destruct (runEvents_evolved connect drawn drawn_wellFormed).
Qed.


End Decide.

Module OnCases.
Import Scenario Cases.

Lemma ellipse_zero_square_empty_witness :
  selectedShape thinEllipse = "Ellipse" /\
  (x (ll thinEllipse) < x (ur thinEllipse))%Q /\
  isZero (squaredHalfExtent (x (ll thinEllipse)) (x (ur thinEllipse)))
  = true /\
  withinBounds thinEllipse (mkPos (cx thinEllipse) (cy thinEllipse))
  = Some false.
Proof.
  assert (Hs : selectedShape thinEllipse = "Ellipse")
    by (vm_compute; reflexivity).
  assert (Hw : (x (ll thinEllipse) < x (ur thinEllipse))%Q)
    by (vm_compute; reflexivity).
  assert (Hz : isZero (squaredHalfExtent (x (ll thinEllipse))
                         (x (ur thinEllipse))) = true)
    by (vm_compute; reflexivity).
  exact (conj Hs (conj Hw (conj Hz
           (ellipse_zero_square_empty thinEllipse
              (mkPos (cx thinEllipse) (cy thinEllipse)) Hs
              (or_introl Hz))))).
Defined.

Lemma withinBounds_flat_ellipse_empty_witness :
  selectedShape flatEllipse = "Ellipse" /\
  (x (ur flatEllipse) == x (ll flatEllipse))%Q /\
  withinBounds flatEllipse (mkPos 100 200) = Some false.
Proof.
  assert (Hs : selectedShape flatEllipse = "Ellipse")
    by (vm_compute; reflexivity).
  assert (Hf : (x (ur flatEllipse) == x (ll flatEllipse))%Q)
    by (vm_compute; reflexivity).
  exact (conj Hs (conj Hf
           (withinBounds_flat_ellipse_empty flatEllipse (mkPos 100 200) Hs
              (or_introl Hf)))).
Defined.

Lemma withinBounds_inverted_rectangle_empty_witness :
  selectedShape invertedRectangle = "Rectangle" /\
  (x (ur invertedRectangle) < x (ll invertedRectangle))%Q /\
  withinBounds invertedRectangle (mkPos 200 200) = Some false.
Proof.
  assert (Hs : selectedShape invertedRectangle = "Rectangle")
    by (vm_compute; reflexivity).
  assert (Hi : (x (ur invertedRectangle) < x (ll invertedRectangle))%Q)
    by (vm_compute; reflexivity).
  exact (conj Hs (conj Hi
           (withinBounds_inverted_rectangle_empty invertedRectangle
              (mkPos 200 200) Hs (or_introl Hi)))).
Defined.

Lemma ellipse_flipCorners_same_witness :
  selectedShape invertedEllipse = "Ellipse" /\
  withinBounds (flipCorners invertedEllipse) (mkPos 200 200)
  = withinBounds invertedEllipse (mkPos 200 200).
Proof.
  assert (Hs : selectedShape invertedEllipse = "Ellipse")
    by (vm_compute; reflexivity).
  exact (conj Hs
           (ellipse_flipCorners_same invertedEllipse (mkPos 200 200)
              Hs)).
Defined.

Lemma runEvents_no_duplicates_witness :
  wellFormed (start oneLayer) /\
  NoDup (selectionBoxArray (runEvents session (start oneLayer))).
Proof.
  pose proof (start_wellFormed oneLayer) as W.
  exact (conj W (runEvents_no_duplicates session (start oneLayer) W)).
Defined.

Lemma runEvents_keeps_regions_witness :
  wellFormed drawn /\
  boxes drawn !! 0%nat = Some drawnBox /\
  exists this',
    boxes (runEvents (connect ++ [pressDelete]) drawn) !! 0%nat
    = Some this' /\
    selectedShape this' = selectedShape drawnBox /\
    layerName this' = layerName drawnBox.
Proof.
  pose proof (drawn_wellFormed) as W.
  assert (Hb : boxes drawn !! 0%nat = Some drawnBox)
    by (vm_compute; reflexivity).
  exact (conj W (conj Hb
           (runEvents_keeps_regions (connect ++ [pressDelete]) drawn 0%nat
              drawnBox W Hb))).
Defined.

Lemma onMouseUp_returns_reset_witness :
  make_selection_box pendingResize = true /\
  onMouseUp (mouse 100 450) pendingResize
  = Ok tt (final (onMouseUp (mouse 100 450) pendingResize)) /\
  idle (final (onMouseUp (mouse 100 450) pendingResize)) /\
  resizeSideInFocus (final (onMouseUp (mouse 100 450) pendingResize))
  = Some "lowerLeft".
Proof.
  assert (Hm : make_selection_box pendingResize = true)
    by (vm_compute; reflexivity).
  assert (E : onMouseUp (mouse 100 450) pendingResize
              = Ok tt (final (onMouseUp (mouse 100 450) pendingResize)))
    by (vm_compute; reflexivity).
  assert (Hr : resizeAfter pendingResize = Some "lowerLeft")
    by (vm_compute; reflexivity).
  destruct (onMouseUp_returns_reset (mouse 100 450) pendingResize _ E)
    as (Hi & Hside & _).
  exact (conj Hm (conj E (conj Hi (eq_trans Hside Hr)))).
Defined.

Lemma onKeyUp_delete_removes_witness :
  wellFormed connected /\
  boxInFocus connected = Some 0%nat /\
  boxes connected !! 0%nat = Some connectedBox /\
  lookup_layer (layerName connectedBox) (layer_points connected)
  = Some connectedLayer /\
  exists s',
    onKeyUp (mkKeyEvent 46) connected = Ok tt s' /\
    (0%nat ∉ selectionBoxArray s') /\
    boxInFocus s' = None.
Proof.
  pose proof (connected_wellFormed) as W.
  assert (Hk : keyCode (mkKeyEvent 46) = 46%nat) by reflexivity.
  assert (Hf : boxInFocus connected = Some 0%nat)
    by (vm_compute; reflexivity).
  assert (Hb : boxes connected !! 0%nat = Some connectedBox)
    by (vm_compute; reflexivity).
  assert (HL : lookup_layer (layerName connectedBox) (layer_points connected)
               = Some connectedLayer) by (vm_compute; reflexivity).
  destruct (onKeyUp_delete_removes (mkKeyEvent 46) connected 0%nat
              connectedBox connectedLayer W Hk Hf Hb HL)
    as (s' & E & Hout & _ & Hnone & _).
  refine (conj W (conj Hf (conj Hb (conj HL _)))).
  exists s'. exact (conj E (conj Hout Hnone)).
Defined.

Lemma onKeyUp_delete_throws_witness :
  boxInFocus emptyDrawn = Some 0%nat /\
  boxes emptyDrawn !! 0%nat = Some emptyBox /\
  lookup_layer (layerName emptyBox) (layer_points emptyDrawn) = None /\
  exists s',
    onKeyUp (mkKeyEvent 46) emptyDrawn = TypeError s' /\
    selectionBoxArray s' = selectionBoxArray emptyDrawn /\
    boxInFocus s' = Some 0%nat.
Proof.
  assert (Hk : keyCode (mkKeyEvent 46) = 46%nat) by reflexivity.
  assert (Hf : boxInFocus emptyDrawn = Some 0%nat)
    by (vm_compute; reflexivity).
  assert (Hb : boxes emptyDrawn !! 0%nat = Some emptyBox)
    by (vm_compute; reflexivity).
  assert (HL : lookup_layer (layerName emptyBox) (layer_points emptyDrawn)
               = None) by (vm_compute; reflexivity).
  destruct (onKeyUp_delete_throws (mkKeyEvent 46) emptyDrawn 0%nat emptyBox
              Hk Hf Hb HL) as (s' & E & Ha & Hfo & _).
  refine (conj Hf (conj Hb (conj HL _))).
  exists s'. exact (conj E (conj Ha Hfo)).
Defined.


Lemma updateColors_paints_witness :
  boxes resizing !! 0%nat = Some resizingBox /\
  lookup_layer (layerName resizingBox) (layer_points resizing)
  = Some resizingLayer /\
  (length (positions resizingLayer)
   <= length (customColor resizingLayer))%nat /\
  aligned (selectedPointIDs resizingBox) /\
  selectedPointIDs resizingBox = [0; 3]%nat /\
  pointsWithin resizingBox resizingLayer = [] /\
  exists s' L',
    updateColors 0 resizing = Ok tt s' /\
    lookup_layer (layerName resizingBox) (layer_points s') = Some L' /\
    rgbAt (customColor L') 0
    = Some (Binary.fround color.1.1, Binary.fround color.1.2,
            Binary.fround color.2) /\
    rgbAt (customColor resizingLayer) 0
    = Some (Num.Fin 1, Num.Fin 0, Num.Fin 1).
Proof.
  assert (H1 : boxes resizing !! 0%nat = Some resizingBox)
    by (vm_compute; reflexivity).
  assert (H2 : lookup_layer (layerName resizingBox) (layer_points resizing)
               = Some resizingLayer) by (vm_compute; reflexivity).
  assert (H3 : (length (positions resizingLayer)
                <= length (customColor resizingLayer))%nat)
    by (vm_compute; lia).
  assert (H4 : aligned (selectedPointIDs resizingBox))
    by (apply alignedb_aligned; vm_compute; reflexivity).
  assert (H5 : selectedPointIDs resizingBox = [0; 3]%nat)
    by (vm_compute; reflexivity).
  assert (H6 : pointsWithin resizingBox resizingLayer = [])
    by (vm_compute; reflexivity).
  assert (H7 : rgbAt (customColor resizingLayer) 0
               = Some (Num.Fin 1, Num.Fin 0, Num.Fin 1))
    by (vm_compute; reflexivity).
  assert (Hin : 0%nat ∈ selectedPointIDs resizingBox)
    by (rewrite H5; apply list_elem_of_here).
  assert (Hout : 0%nat ∉ pointsWithin resizingBox resizingLayer)
    by (rewrite H6; apply not_elem_of_nil).
  assert (Hb : (0 + 2 < length (customColor resizingLayer))%nat)
    by (vm_compute; lia).
  destruct (updateColors_paints 0%nat resizing resizingBox resizingLayer
              H1 H2 H3 H4)
    as (s' & L' & E & _ & _ & HL' & _ & _ & _ & Hbase & _).
  refine (conj H1 (conj H2 (conj H3 (conj H4 (conj H5 (conj H6 _)))))).
  exists s', L'.
  exact (conj E (conj HL' (conj (Hbase 0%nat Hin Hout Hb) H7))).
Defined.


Lemma onMouseDown_handle_first_witness :
  onCanvas (mouse 100 450) = true /\
  boxInFocus drawn = Some 0%nat /\
  boxes drawn !! 0%nat = Some drawnBox /\
  intersectResizePoints (mouse 100 450) (resizePoints drawnBox)
  = Some 0%nat /\
  resizePoints drawnBox !! 0%nat = Some lowerLeftHandle /\
  onMouseDown (mouse 100 450) drawn
  = Ok tt (set_resizeSideInFocus (Some (point_name lowerLeftHandle))
             (set_mouseDownCoords (mkPos 100 450)
                (set_mouseDown true drawn))).
Proof.
  assert (H1 : onCanvas (mouse 100 450) = true) by reflexivity.
  assert (H2 : boxInFocus drawn = Some 0%nat) by (vm_compute; reflexivity).
  assert (H3 : boxes drawn !! 0%nat = Some drawnBox)
    by (vm_compute; reflexivity).
  assert (H4 : intersectResizePoints (mouse 100 450) (resizePoints drawnBox)
               = Some 0%nat) by (vm_compute; reflexivity).
  assert (H5 : resizePoints drawnBox !! 0%nat = Some lowerLeftHandle)
    by (vm_compute; reflexivity).
  exact (conj H1 (conj H2 (conj H3 (conj H4 (conj H5
           (onMouseDown_handle_first (mouse 100 450) drawn 0%nat drawnBox
              0%nat lowerLeftHandle H1 H2 H3 H4 H5)))))).
Defined.

Lemma onMouseDown_empty_canvas_witness :
  wellFormed drawn /\
  onCanvas (mouse 400 100) = true /\
  shiftKey (mouse 400 100) = false /\
  missesHandles (mouse 400 100) drawn /\
  firstWithin (boxes drawn) (mkPos 400 (height - 100)%Q)
              (selectionBoxArray drawn) = None /\
  exists s',
    onMouseDown (mouse 400 100) drawn = Ok tt s' /\
    make_selection_box s' = true /\
    boxInFocus s' = None.
Proof.
  pose proof (drawn_wellFormed) as W.
  assert (H1 : onCanvas (mouse 400 100) = true) by reflexivity.
  assert (H2 : shiftKey (mouse 400 100) = false) by reflexivity.
  assert (H3 : missesHandles (mouse 400 100) drawn).
  { vm_compute. eexists. split; reflexivity. }
  assert (H4 : firstWithin (boxes drawn) (mkPos 400 (height - 100)%Q)
                 (selectionBoxArray drawn) = None)
    by (vm_compute; reflexivity).
  destruct (onMouseDown_empty_canvas (mouse 400 100) drawn W H1 H2 H3 H4)
    as (s' & E & Hm & Hf & _).
  refine (conj W (conj H1 (conj H2 (conj H3 (conj H4 _))))).
  exists s'. exact (conj E (conj Hm Hf)).
Defined.



Lemma removeLines_removes_witness :
  boxes connected !! 0%nat = Some connectedBox /\
  exists cs',
    removeLines 0 "poisson_generator_1" connected
    = Ok tt (set_boxes (<[0%nat := with_curves cs' connectedBox]>
                          (boxes connected)) connected).
Proof.
  assert (H : boxes connected !! 0%nat = Some connectedBox)
    by (vm_compute; reflexivity).
  destruct (removeLines_removes 0%nat "poisson_generator_1" connected
              connectedBox H) as (cs' & E & _).
  refine (conj H _). exists cs'. exact E.
Defined.

Lemma runEvents_counted_witness :
  wellFormed (start oneLayer) /\
  counted (start oneLayer) /\
  counted (runEvents session (start oneLayer)).
Proof.
  pose proof (start_wellFormed oneLayer) as W.
  assert (C : counted (start oneLayer)).
  { split; [reflexivity | discriminate]. }
  exact (conj W (conj C (runEvents_counted session (start oneLayer) W C))).
Defined.

End OnCases.
